(** * Histogram: the per-sensor histogram accumulator of the raw data converter

    A shallow embedding of [host/analysis/RawDataConverter/Histogram.cpp].
    Every member function of the class is a function of the same name over
    an explicit object state; the C++ integer types are [Z] with their
    wrap-around written out, arrays are lists reached through nullable
    pointers, [throw] and undefined behaviour are outcomes of a small state
    and error monad, and [double] is the kernel's binary64 float. *)

From Stdlib Require Import ZArith Bool Lia.
From Stdlib Require Import Uint63 PrimFloat SpecFloat FloatOps FloatAxioms.
From stdpp Require Import base option list list_numbers sorting.

Local Open Scope Z_scope.

(** ** Machine integers *)

(** [unsigned short], [unsigned int] and [unsigned long] (LP64) values are
    the integers below these moduli; [int] is the signed 32-bit range. *)
Definition USHRT_MOD : Z := 2 ^ 16.
Definition UINT_MOD : Z := 2 ^ 32.
Definition ULONG_MOD : Z := 2 ^ 64.
Definition INT_MAX : Z := 2 ^ 31 - 1.
Definition INT_MIN : Z := - 2 ^ 31.

Definition to_ushort (z : Z) : Z := z mod USHRT_MOD.
Definition to_uint (z : Z) : Z := z mod UINT_MOD.

(** Conversion of an [unsigned int] to [int]: values above [INT_MAX] become
    negative (two's complement). *)
Definition to_int (u : Z) : Z :=
  let r := u mod UINT_MOD in
  if r <=? INT_MAX then r else r - UINT_MOD.

(** ** Data model *)

(** The fields of [HitInfo] that [addHits] reads. [eventNumber] is handed to
    [getEventParameter] by reference to [unsigned long]; the other fields
    are unsigned and are copied into the locals of [addHits]. *)
Record HitInfo : Type := mkHitInfo {
  eventNumber : Z;
  relativeBCID : Z;
  column : Z;
  row : Z;
  tot : Z
}.

(** The one field of [ParInfo] the histogram reads. *)
Record ParInfo : Type := mkParInfo {
  scanParameter : Z
}.

(** The object state. A pointer member is [None] when it is the null
    pointer and [Some a] when it points to the array [a]. *)
Record Histogram : Type := mkHistogram {
  _nMetaEventIndexLength : Z;
  _metaEventIndex : option (list Z);
  _nParInfoLength : Z;
  _parInfo : option (list ParInfo);
  _lastMetaEventIndex : Z;
  _parameterValues : list Z;
  _NparameterValues : Z;
  _minParameterValue : Z;
  _maxParameterValue : Z;
  _occupancy : option (list Z);
  _relBcid : option (list Z);
  _tot : option (list Z);
  _createOccHist : bool;
  _createRelBCIDhist : bool;
  _createTotHist : bool
}.

Definition set_lastMetaEventIndex (v : Z) (h : Histogram) : Histogram :=
  mkHistogram (_nMetaEventIndexLength h) (_metaEventIndex h) (_nParInfoLength h)
    (_parInfo h) v (_parameterValues h) (_NparameterValues h)
    (_minParameterValue h) (_maxParameterValue h) (_occupancy h) (_relBcid h)
    (_tot h) (_createOccHist h) (_createRelBCIDhist h) (_createTotHist h).

Definition set_metaEventIndex (n : Z) (p : option (list Z)) (h : Histogram) : Histogram :=
  mkHistogram n p (_nParInfoLength h)
    (_parInfo h) (_lastMetaEventIndex h) (_parameterValues h) (_NparameterValues h)
    (_minParameterValue h) (_maxParameterValue h) (_occupancy h) (_relBcid h)
    (_tot h) (_createOccHist h) (_createRelBCIDhist h) (_createTotHist h).

Definition set_parInfo (n : Z) (p : option (list ParInfo)) (h : Histogram) : Histogram :=
  mkHistogram (_nMetaEventIndexLength h) (_metaEventIndex h) n
    p (_lastMetaEventIndex h) (_parameterValues h) (_NparameterValues h)
    (_minParameterValue h) (_maxParameterValue h) (_occupancy h) (_relBcid h)
    (_tot h) (_createOccHist h) (_createRelBCIDhist h) (_createTotHist h).

Definition set_parameterValues (v : list Z) (h : Histogram) : Histogram :=
  mkHistogram (_nMetaEventIndexLength h) (_metaEventIndex h) (_nParInfoLength h)
    (_parInfo h) (_lastMetaEventIndex h) v (_NparameterValues h)
    (_minParameterValue h) (_maxParameterValue h) (_occupancy h) (_relBcid h)
    (_tot h) (_createOccHist h) (_createRelBCIDhist h) (_createTotHist h).

Definition set_NparameterValues (v : Z) (h : Histogram) : Histogram :=
  mkHistogram (_nMetaEventIndexLength h) (_metaEventIndex h) (_nParInfoLength h)
    (_parInfo h) (_lastMetaEventIndex h) (_parameterValues h) v
    (_minParameterValue h) (_maxParameterValue h) (_occupancy h) (_relBcid h)
    (_tot h) (_createOccHist h) (_createRelBCIDhist h) (_createTotHist h).

Definition set_minParameterValue (v : Z) (h : Histogram) : Histogram :=
  mkHistogram (_nMetaEventIndexLength h) (_metaEventIndex h) (_nParInfoLength h)
    (_parInfo h) (_lastMetaEventIndex h) (_parameterValues h) (_NparameterValues h)
    v (_maxParameterValue h) (_occupancy h) (_relBcid h)
    (_tot h) (_createOccHist h) (_createRelBCIDhist h) (_createTotHist h).

Definition set_maxParameterValue (v : Z) (h : Histogram) : Histogram :=
  mkHistogram (_nMetaEventIndexLength h) (_metaEventIndex h) (_nParInfoLength h)
    (_parInfo h) (_lastMetaEventIndex h) (_parameterValues h) (_NparameterValues h)
    (_minParameterValue h) v (_occupancy h) (_relBcid h)
    (_tot h) (_createOccHist h) (_createRelBCIDhist h) (_createTotHist h).

Definition set_occupancy (p : option (list Z)) (h : Histogram) : Histogram :=
  mkHistogram (_nMetaEventIndexLength h) (_metaEventIndex h) (_nParInfoLength h)
    (_parInfo h) (_lastMetaEventIndex h) (_parameterValues h) (_NparameterValues h)
    (_minParameterValue h) (_maxParameterValue h) p (_relBcid h)
    (_tot h) (_createOccHist h) (_createRelBCIDhist h) (_createTotHist h).

Definition set_relBcid (p : option (list Z)) (h : Histogram) : Histogram :=
  mkHistogram (_nMetaEventIndexLength h) (_metaEventIndex h) (_nParInfoLength h)
    (_parInfo h) (_lastMetaEventIndex h) (_parameterValues h) (_NparameterValues h)
    (_minParameterValue h) (_maxParameterValue h) (_occupancy h) p
    (_tot h) (_createOccHist h) (_createRelBCIDhist h) (_createTotHist h).

Definition set_tot (p : option (list Z)) (h : Histogram) : Histogram :=
  mkHistogram (_nMetaEventIndexLength h) (_metaEventIndex h) (_nParInfoLength h)
    (_parInfo h) (_lastMetaEventIndex h) (_parameterValues h) (_NparameterValues h)
    (_minParameterValue h) (_maxParameterValue h) (_occupancy h) (_relBcid h)
    p (_createOccHist h) (_createRelBCIDhist h) (_createTotHist h).

Definition set_createOccHist (b : bool) (h : Histogram) : Histogram :=
  mkHistogram (_nMetaEventIndexLength h) (_metaEventIndex h) (_nParInfoLength h)
    (_parInfo h) (_lastMetaEventIndex h) (_parameterValues h) (_NparameterValues h)
    (_minParameterValue h) (_maxParameterValue h) (_occupancy h) (_relBcid h)
    (_tot h) b (_createRelBCIDhist h) (_createTotHist h).

Definition set_createRelBCIDhist (b : bool) (h : Histogram) : Histogram :=
  mkHistogram (_nMetaEventIndexLength h) (_metaEventIndex h) (_nParInfoLength h)
    (_parInfo h) (_lastMetaEventIndex h) (_parameterValues h) (_NparameterValues h)
    (_minParameterValue h) (_maxParameterValue h) (_occupancy h) (_relBcid h)
    (_tot h) (_createOccHist h) b (_createTotHist h).

Definition set_createTotHist (b : bool) (h : Histogram) : Histogram :=
  mkHistogram (_nMetaEventIndexLength h) (_metaEventIndex h) (_nParInfoLength h)
    (_parInfo h) (_lastMetaEventIndex h) (_parameterValues h) (_NparameterValues h)
    (_minParameterValue h) (_maxParameterValue h) (_occupancy h) (_relBcid h)
    (_tot h) (_createOccHist h) (_createRelBCIDhist h) b.

(** ** Exceptions and outcomes *)

(** The integers the code throws, under the names of the error taxonomy.
    The two exceptions that are preceded by a call of [error(...)] carry the
    numbers that call writes into its message. *)
Inductive exception : Type :=
| InvalidColumn
| InvalidRow
| ParameterIndexOutOfRange (tParIndex minParameterValue maxParameterValue : Z)
| CorrelationError (rEventNumber lastBoundary lastMetaEventIndex : Z)
| InvalidTot
| InvalidBcid.

Definition thrown_value (e : exception) : Z :=
  match e with
  | InvalidColumn => 20
  | InvalidRow => 21
  | ParameterIndexOutOfRange _ _ _ => 22
  | CorrelationError _ _ _ => 23
  | InvalidTot => 24
  | InvalidBcid => 25
  end.

(** A member function either returns a value in a new state, leaves by a
    [throw] in the state reached so far, or has undefined behaviour (a null
    or out-of-range access, an out-of-range conversion). *)
Inductive outcome (A : Type) : Type :=
| Returns (a : A) (h : Histogram)
| Throws (e : exception) (h : Histogram)
| Undefined.
Arguments Returns {A} a h.
Arguments Throws {A} e h.
Arguments Undefined {A}.

Definition M (A : Type) : Type := Histogram → outcome A.

#[global] Instance M_ret : MRet M := λ A a h, Returns a h.
#[global] Instance M_bind : MBind M := λ A B f m h,
  match m h with
  | Returns a h' => f a h'
  | Throws e h' => Throws e h'
  | Undefined => Undefined
  end.

Definition get : M Histogram := λ h, Returns h h.
Definition modify (f : Histogram → Histogram) : M unit := λ h, Returns tt (f h).
Definition throw {A : Type} (e : exception) : M A := λ h, Throws e h.
Definition undefined {A : Type} : M A := λ _, Undefined.

(** The value of an optional result, undefined behaviour when there is none. *)
Definition defined {A : Type} (o : option A) : M A :=
  match o with
  | Some a => mret a
  | None => undefined
  end.

(** ** Arrays behind pointers *)

(** [p[i]] as an rvalue. *)
Definition load {A : Type} (p : option (list A)) (i : Z) : option A :=
  a ← p; if 0 <=? i then a !! Z.to_nat i else None.

(** [p[i] = v]. *)
Definition store {A : Type} (p : option (list A)) (i : Z) (v : A) : option (list A) :=
  a ← p;
  if (0 <=? i) && (i <? Z.of_nat (length a)) then Some (<[Z.to_nat i := v]> a) else None.

Arguments load : simpl never.
Arguments store : simpl never.

(** [for (i = from; i < to; ++i) body(i)], the body run for its effect. *)
Fixpoint for_each (body : Z → M unit) (range : list Z) : M unit :=
  match range with
  | [] => mret tt
  | i :: range' => body i;; for_each body range'
  end.

(** The same loop with a body that may [return] from the function: the
    result is the returned value, or [None] when the loop runs to its end. *)
Fixpoint for_first {A : Type} (body : Z → M (option A)) (range : list Z) : M (option A) :=
  match range with
  | [] => mret None
  | i :: range' =>
      r ← body i;
      match r with
      | Some a => mret (Some a)
      | None => for_first body range'
      end
  end.

(** The same loop threading an accumulator that the body updates. *)
Fixpoint for_fold {A : Type} (body : Z → A → M A) (range : list Z) (acc : A) : M A :=
  match range with
  | [] => mret acc
  | i :: range' => acc' ← body i acc; for_fold body range' acc'
  end.

(** ** Standard library algorithms the code calls *)

(** [std::sort] on a vector of [unsigned int]: the elements in ascending
    order of their values. *)
Definition std_sort (l : list Z) : list Z := merge_sort Z.le l.

(** [std::set<int>::insert]: the set is kept as its strictly ascending
    sequence of elements, which is the order its iterators visit. *)
Fixpoint set_insert (x : Z) (l : list Z) : list Z :=
  match l with
  | [] => [x]
  | y :: l' =>
      if x <? y then x :: l
      else if x =? y then l
      else y :: set_insert x l'
  end.

(** [std::set<int> tSet(first, last)] over [unsigned int] elements: each
    element is converted to [int] and inserted. *)
Definition std_set_int (l : list Z) : list Z :=
  foldl (λ s u, set_insert (to_int u) s) [] l.

(** [std::unique]: the elements kept, each the first of a run of equal
    neighbours. Their number is the distance of the returned iterator from
    [begin()]. *)
Fixpoint unique_prefix (l : list Z) : list Z :=
  match l with
  | [] => []
  | x :: l' =>
      match l' with
      | [] => [x]
      | y :: _ => if x =? y then unique_prefix l' else x :: unique_prefix l'
      end
  end.

(** The vector after [std::unique] when its result is not used to erase:
    the kept elements, then what the old vector held behind them. *)
Definition std_unique (l : list Z) : list Z :=
  unique_prefix l ++ drop (length (unique_prefix l)) l.

(** ** Conversions between integers and [double] *)

(** [(double) u] for an unsigned integer [u]. *)
Definition double_of_uint (u : Z) : float := PrimFloat.of_uint63 (Uint63.of_Z u).

(** [(int) x]: truncation towards zero, undefined when the truncated value
    is no [int] (or [x] no number). *)
Definition double_to_int (x : float) : option Z :=
  match Prim2SF x with
  | S754_zero _ => Some 0
  | S754_finite s m e =>
      let a := if 0 <=? e then Z.pos m * 2 ^ e else Z.pos m / 2 ^ (- e) in
      let v := if s then - a else a in
      if (INT_MIN <=? v) && (v <=? INT_MAX) then Some v else None
  | S754_infinity _ | S754_nan => None
  end.

(** The literal [3.141592653589893238462643383] of the noise formula: the
    binary64 number nearest to it. *)
Definition noise_constant : float := 0x1.921fb54442df9p+1%float.

(** ** Statements of the specification *)

(** The sum over all cells of the occupancy array (of no cells when there is
    no array). *)
Definition occupancy_sum (h : Histogram) : Z :=
  foldr Z.add 0 (default [] (_occupancy h)).

(** The scan of [getEventParameter] stops at the pair (i, i+1): the next
    boundary exceeds the event number or is less than the current one. *)
Definition stops_at (metaEventIndex : list Z) (rEventNumber i : Z) : Prop :=
  ∃ cur next,
    load (Some metaEventIndex) i = Some cur ∧
    load (Some metaEventIndex) (i + 1) = Some next ∧
    (rEventNumber < next ∨ next < cur).

(** [v] stands at position [i] of the value set and nowhere before. *)
Definition first_match (values : list Z) (v : Z) (i : nat) : Prop :=
  values !! i = Some v ∧ ∀ j, (j < i)%nat → values !! j ≠ Some v.

(** The noise of the specification, [d * (mu1 + mu2) / A * sqrt(pi/2)] in
    binary64, with the binary64 number nearest to pi. *)
Definition spec_pi : float := 0x1.921fb54442d18p+1%float.

Definition spec_noise (d mu1 mu2 A : Z) : float :=
  (double_of_uint d * double_of_uint (mu1 + mu2) / double_of_uint A
   * sqrt (spec_pi / 2))%float.

(** The first position of [v] in [values], counted from [i]. *)
Fixpoint index_from (i : Z) (values : list Z) (v : Z) : option Z :=
  match values with
  | [] => None
  | x :: values' => if x =? v then Some i else index_from (i + 1) values' v
  end.

(** A pointer member seen through its getter and setter. *)
Record member (getp : Histogram → option (list Z))
    (setp : option (list Z) → Histogram → Histogram) : Prop := {
  get_set : ∀ p h, getp (setp p h) = p;
  set_set : ∀ p q h, setp p (setp q h) = setp p h;
  set_get : ∀ h, setp (getp h) h = h
}.

(** The tables of a histogram whose scan-parameter and event-index tables
    are loaded with at least the [_nMetaEventIndexLength] entries the scan
    addresses. *)
Definition tables_loaded (h : Histogram) (meta : list Z) (par : list ParInfo) : Prop :=
  _metaEventIndex h = Some meta ∧ _parInfo h = Some par ∧
  1 ≤ _nMetaEventIndexLength h < UINT_MOD ∧
  _nMetaEventIndexLength h ≤ Z.of_nat (length meta) ∧
  _nMetaEventIndexLength h ≤ Z.of_nat (length par) ∧
  0 ≤ _lastMetaEventIndex h.

(** The fields of a hit hold values of the unsigned types of the locals of
    [addHits] they are copied to. *)
Definition hit_in_type (hit : HitInfo) : Prop :=
  0 ≤ column hit < USHRT_MOD ∧ 0 ≤ row hit < UINT_MOD ∧
  0 ≤ tot hit < UINT_MOD ∧ 0 ≤ relativeBCID hit < UINT_MOD.

(** Every counter of [a] is an unsigned value that [k] increments do not
    carry past the largest [unsigned int]. *)
Definition room_for (k : nat) (a : list Z) : Prop :=
  Forall (λ c, 0 ≤ c ∧ c + Z.of_nat k < UINT_MOD) a.

(** [a'] has the cells of [a], with every zero of [a] still zero. *)
Definition keeps_zeros (a a' : list Z) : Prop :=
  length a' = length a ∧ ∀ p : nat, a !! p = Some 0 → a' !! p = Some 0.

(** ** Statements about what a member function leaves alone *)

(** [h'] has the configuration of [h]: the same tables, value set, limits
    and flags, arrays of the same sizes behind the same pointers that are
    not null, and a cursor that is not before the cursor of [h]. *)
Definition same_configuration (h h' : Histogram) : Prop :=
  _nMetaEventIndexLength h' = _nMetaEventIndexLength h ∧
  _metaEventIndex h' = _metaEventIndex h ∧
  _nParInfoLength h' = _nParInfoLength h ∧
  _parInfo h' = _parInfo h ∧
  _parameterValues h' = _parameterValues h ∧
  _NparameterValues h' = _NparameterValues h ∧
  _minParameterValue h' = _minParameterValue h ∧
  _maxParameterValue h' = _maxParameterValue h ∧
  _createOccHist h' = _createOccHist h ∧
  _createRelBCIDhist h' = _createRelBCIDhist h ∧
  _createTotHist h' = _createTotHist h ∧
  length <$> _occupancy h' = length <$> _occupancy h ∧
  length <$> _relBcid h' = length <$> _relBcid h ∧
  length <$> _tot h' = length <$> _tot h ∧
  _lastMetaEventIndex h ≤ _lastMetaEventIndex h'.

(** [m] only reads the histogram: it never throws, and when it returns, the
    histogram is the one it was called on and the result satisfies [P]. *)
Definition reads {A : Type} (P : A → Prop) (m : M A) : Prop :=
  ∀ h, match m h with
       | Returns a h' => h' = h ∧ P a
       | Throws _ _ => False
       | Undefined => True
       end.

(** The boundaries of an event index table do not decrease over its first
    [n] entries. *)
(** The number of hits of a batch whose [key] (a field, or the cell it is
    counted in) is [t]. *)
Definition hits_with (key : HitInfo → Z) (t : Z) (rHitInfo : list HitInfo) : Z :=
  Z.of_nat (length (filter (λ hit, key hit = t) rHitInfo)).

(** [runs h P m]: in the histogram [h], [m] returns a value that satisfies
    [P] and leaves [h] as it was. *)
Definition runs {A : Type} (h : Histogram) (P : A → Prop) (m : M A) : Prop :=
  ∃ a, m h = Returns a h ∧ P a.

Definition boundaries_ascend (metaEventIndex : list Z) (n : Z) : Prop :=
  ∀ j cur next, 0 ≤ j → j + 1 < n →
    load (Some metaEventIndex) j = Some cur →
    load (Some metaEventIndex) (j + 1) = Some next → cur ≤ next.

(** ** The constructor and some histograms *)

(** The constructor. It leaves the two table lengths uninitialised. *)
Definition Histogram_init (nMetaEventIndexLength nParInfoLength : Z) : Histogram :=
  mkHistogram nMetaEventIndexLength None nParInfoLength None 0 [] 1 0 0
    None None None false false false.

(** A histogram with no histogram enabled and no scan parameter. *)
Definition idle : Histogram := Histogram_init 0 0.

(** A histogram with occupancy enabled, no scan parameter, and the
    occupancy array [occupancy]. *)
Definition occupancy_only (occupancy : list Z) : Histogram :=
  mkHistogram 0 None 0 None 0 [] 1 0 0 (Some occupancy) None None true false false.

(** The tables of a scan at the parameter values 10 and 20, each over two
    readouts, with the cursor at [cursor]. *)
Definition two_steps (cursor : Z) : Histogram :=
  mkHistogram 4 (Some [0; 50; 100; 150]) 4
    (Some [mkParInfo 10; mkParInfo 10; mkParInfo 20; mkParInfo 20])
    cursor [10; 20] 2 10 20 None None None false false false.

(** A table of one readout that starts at event 5. *)
Definition one_readout : Histogram :=
  mkHistogram 1 (Some [5]) 1 (Some [mkParInfo 10])
    0 [10] 1 10 10 None None None false false false.

(** A sensor of one pixel scanned at the parameter values 0 and 2, with 50
    hits at the first and 100 at the second. *)
Definition scanned_pixel : Histogram :=
  mkHistogram 2 (Some [0; 100]) 2 (Some [mkParInfo 0; mkParInfo 2])
    0 [0; 2] 2 0 2 (Some [50; 100]) None None true false false.

(** A new histogram after [createOccupancyHist true]: occupancy is enabled
    and there is no occupancy array yet. *)
Definition unallocated : Histogram :=
  mkHistogram 0 None 0 None 0 [] 1 0 0 None None None true false false.

(** A histogram with the three histograms enabled and no scan parameter. *)
Definition all_histograms (occupancy relBcid tot : list Z) : Histogram :=
  mkHistogram 0 None 0 None 0 [] 1 0 0
    (Some occupancy) (Some relBcid) (Some tot) true true true.

(** What [setNoScanParameter] makes of [two_steps 0] on a sensor of one
    pixel: the tables and the value set stay, the count is 1. *)
Definition count_set_back : Histogram :=
  mkHistogram 4 (Some [0; 50; 100; 150]) 4
    (Some [mkParInfo 10; mkParInfo 10; mkParInfo 20; mkParInfo 20])
    0 [10; 20] 1 10 20 (Some [0]) None None false false false.

(** What [addScanParameter] makes of a new histogram on a sensor of one
    pixel for the table of the values 20, 10, 20. *)
Definition three_entries : Histogram :=
  mkHistogram 0 None 3 (Some [mkParInfo 20; mkParInfo 10; mkParInfo 20])
    0 [10; 20] 2 10 20 (Some [0; 0]) None None false false false.

(** ** The member functions *)

Section Histogram.

(** The sensor geometry: the macros [RAW_DATA_MAX_COLUMN] and
    [RAW_DATA_MAX_ROW] of the headers, constants of type [int]. *)
Variable RAW_DATA_MAX_COLUMN : Z.
Variable RAW_DATA_MAX_ROW : Z.

(** What storage holds when [new T[n]] hands it out. *)
Variable indeterminate : nat → Z.

Definition new_array (n : Z) : list Z := indeterminate <$> seq 0 (Z.to_nat n).

(** The offset of cell (column, row, parameter) in [_occupancy], computed in
    [long]. *)
Definition occupancy_index (i j k : Z) : Z :=
  i + j * RAW_DATA_MAX_COLUMN + k * RAW_DATA_MAX_COLUMN * RAW_DATA_MAX_ROW.

Definition getMaxParameter : M Z := h ← get; mret (_maxParameterValue h).
Definition getMinParameter : M Z := h ← get; mret (_minParameterValue h).
Definition getNparameters : M Z := h ← get; mret (_NparameterValues h).

Definition deleteOccupancyArray : M unit := modify (set_occupancy None).
Definition deleteTotArray : M unit := modify (set_tot None).
Definition deleteRelBcidArray : M unit := modify (set_relBcid None).

Definition allocateOccupancyArray : M unit :=
  n ← getNparameters;
  deleteOccupancyArray;;
  modify (set_occupancy (Some (new_array
    ((RAW_DATA_MAX_COLUMN - 1) + (RAW_DATA_MAX_ROW - 1) * RAW_DATA_MAX_COLUMN
     + (n - 1) * RAW_DATA_MAX_COLUMN * RAW_DATA_MAX_ROW + 1)))).

Definition resetOccupancyArray : M unit :=
  for_each (λ i,
    for_each (λ j,
      n ← getNparameters;
      for_each (λ k,
        h ← get;
        a ← defined (store (_occupancy h) (occupancy_index i j k) 0);
        modify (set_occupancy (Some a)))
      (seqZ 0 n))
    (seqZ 0 RAW_DATA_MAX_ROW))
  (seqZ 0 RAW_DATA_MAX_COLUMN).

Definition allocateTotArray : M unit :=
  deleteTotArray;; modify (set_tot (Some (new_array 16))).

Definition resetTotArray : M unit :=
  for_each (λ i,
    h ← get;
    a ← defined (store (_tot h) i 0);
    modify (set_tot (Some a)))
  (seqZ 0 16).

Definition allocateRelBcidArray : M unit :=
  deleteRelBcidArray;; modify (set_relBcid (Some (new_array 16))).

Definition resetRelBcidArray : M unit :=
  for_each (λ i,
    h ← get;
    a ← defined (store (_relBcid h) i 0);
    modify (set_relBcid (Some a)))
  (seqZ 0 16).

Definition createOccupancyHist (CreateOccHist : bool) : M unit :=
  modify (set_createOccHist CreateOccHist).

Definition createRelBCIDHist (CreateRelBCIDHist : bool) : M unit :=
  modify (set_createRelBCIDhist CreateRelBCIDHist);;
  allocateRelBcidArray;;
  resetRelBcidArray.

Definition createTotHist (CreateTotHist : bool) : M unit :=
  modify (set_createTotHist CreateTotHist);;
  allocateTotArray;;
  resetTotArray.

(** One turn of the scan of [getEventParameter]: [Some v] when the function
    returns [v] from inside the loop. *)
Definition getEventParameter_body (rEventNumber i : Z) : M (option Z) :=
  h ← get;
  next ← defined (load (_metaEventIndex h) (i + 1));
  stop ← (if rEventNumber <? next then mret true
          else cur ← defined (load (_metaEventIndex h) i); mret (next <? cur));
  if stop : bool then
    modify (set_lastMetaEventIndex i);;
    p ← defined (load (_parInfo h) i);
    mret (Some (scanParameter p))
  else mret None.

Definition getEventParameter (rEventNumber : Z) : M Z :=
  h ← get;
  match _parInfo h with
  | None => mret 0
  | Some _ =>
      let last := to_uint (_nMetaEventIndexLength h - 1) in
      r ← for_first (getEventParameter_body rEventNumber)
            (seqZ (_lastMetaEventIndex h) (last - _lastMetaEventIndex h));
      match r with
      | Some v => mret v
      | None =>
          h' ← get;
          boundary ← defined (load (_metaEventIndex h') last);
          if boundary <=? rEventNumber then
            p ← defined (load (_parInfo h') last);
            mret (scanParameter p)
          else
            throw (CorrelationError rEventNumber boundary (_lastMetaEventIndex h'))
      end
  end.

Definition getParIndex (rEventParameter : Z) : M Z :=
  h ← get;
  r ← for_first (λ i,
        v ← defined (_parameterValues h !! Z.to_nat i);
        mret (if v =? rEventParameter then Some i else None))
      (seqZ 0 (Z.of_nat (length (_parameterValues h))));
  mret (default 0 r).

(** [_array[i] += 1] on counters of the given modulus. *)
Definition increment (modulus : Z) (p : option (list Z)) (i : Z) : option (list Z) :=
  v ← load p i; store p i ((v + 1) mod modulus).
Arguments increment : simpl never.

(** The body of the loop of [addHits] for the hit [hit]. *)
Definition addHit (hit : HitInfo) : M unit :=
  let tColumnIndex := to_ushort (column hit - 1) in
  if RAW_DATA_MAX_COLUMN - 1 <? tColumnIndex then throw InvalidColumn else
  let tRowIndex := to_uint (row hit - 1) in
  if to_uint (RAW_DATA_MAX_ROW - 1) <? tRowIndex then throw InvalidRow else
  let tTot := to_uint (tot hit) in
  if 15 <? tTot then throw InvalidTot else
  let tRelBcid := to_uint (relativeBCID hit) in
  if 15 <? tRelBcid then throw InvalidBcid else
  tEventParameter ← getEventParameter (eventNumber hit);
  tParIndex ← getParIndex tEventParameter;
  n ← getNparameters;
  h ← get;
  (if (tParIndex <? 0) || (to_uint (n - 1) <? tParIndex) then
    throw (ParameterIndexOutOfRange tParIndex (_minParameterValue h) (_maxParameterValue h))
  else mret tt);;
  (if _createOccHist h then
    a ← defined (increment UINT_MOD (_occupancy h)
                   (occupancy_index tColumnIndex tRowIndex tParIndex));
    modify (set_occupancy (Some a))
  else mret tt);;
  (if _createRelBCIDhist h then
    h ← get;
    a ← defined (increment ULONG_MOD (_relBcid h) tRelBcid);
    modify (set_relBcid (Some a))
  else mret tt);;
  (if _createTotHist h then
    h ← get;
    a ← defined (increment ULONG_MOD (_tot h) tTot);
    modify (set_tot (Some a))
  else mret tt).

(** [addHits(rNhits, rHitInfo)]: the batch is the list of the [rNhits] hits
    behind [rHitInfo], taken in order. *)
Fixpoint addHits (rHitInfo : list HitInfo) : M unit :=
  match rHitInfo with
  | [] => mret tt
  | hit :: rest => addHit hit;; addHits rest
  end.

Definition setParameterLimits : M unit :=
  h ← get;
  pushed ← for_fold (λ i (acc : list Z),
        p ← defined (load (_parInfo h) i);
        mret (acc ++ [scanParameter p]))
      (seqZ 0 (_nParInfoLength h)) [];
  let tParameterValues := std_sort pushed in
  let tSet := std_set_int tParameterValues in
  modify (set_parameterValues (to_uint <$> tSet));;
  modify (λ h, set_parameterValues (std_unique (_parameterValues h)) h);;
  front ← defined (head tParameterValues);
  modify (set_minParameterValue front);;
  back ← defined (last tParameterValues);
  modify (set_maxParameterValue back);;
  modify (set_NparameterValues (Z.of_nat (length (unique_prefix tParameterValues)))).

Definition addScanParameter (rNparInfoLength : Z) (rParInfo : option (list ParInfo)) : M unit :=
  modify (set_parInfo rNparInfoLength rParInfo);;
  setParameterLimits;;
  allocateOccupancyArray;;
  resetOccupancyArray.

Definition addMetaEventIndex (rNmetaEventIndexLength : Z) (rMetaEventIndex : option (list Z)) : M unit :=
  modify (set_metaEventIndex rNmetaEventIndexLength rMetaEventIndex).

Definition setNoScanParameter : M unit :=
  deleteOccupancyArray;;
  modify (set_NparameterValues 1);;
  allocateOccupancyArray;;
  resetOccupancyArray.

Definition getOccupancy : M (Z * option (list Z)) :=
  h ← get; mret (_NparameterValues h, _occupancy h).
Definition getTotHist : M (option (list Z)) := h ← get; mret (_tot h).
Definition getRelBcidHist : M (option (list Z)) := h ← get; mret (_relBcid h).

(** The occupancy of pixel (i, j) at parameter index [k]. *)
Definition occupancy_at (i j k : Z) : M Z :=
  h ← get; defined (load (_occupancy h) (occupancy_index i j k)).

(** The two passes of [calculateThresholdScanArrays] over the parameter
    indices of one pixel. *)
Definition pixel_M (i j n : Z) : M Z :=
  for_fold (λ k M, v ← occupancy_at i j k; mret (to_uint (M + v))) (seqZ 0 n) 0.

(** The turn of the second pass for parameter index [k]: the occupancy is
    added to [mu1] below the threshold, its complement to [mu2] above. *)
Definition pixel_mu_step (i j A : Z) (threshold : float) (k : Z) (mu : Z * Z) : M (Z * Z) :=
  mu1 ← (if (double_of_uint k <? threshold)%float
         then v ← occupancy_at i j k; mret (to_uint (mu.1 + v))
         else mret mu.1);
  mu2 ← (if (threshold <? double_of_uint k)%float
         then v ← occupancy_at i j k; mret (to_uint (mu.2 + to_uint (A - v)))
         else mret mu.2);
  mret (mu1, mu2).

Definition pixel_mu (i j n A : Z) (threshold : float) : M (Z * Z) :=
  for_fold (pixel_mu_step i j A threshold) (seqZ 0 n) (0, 0).

(** The body of the pixel loop: the two maps after pixel (i, j). The
    lines the code prints for pixel (3, 15) are not modelled; they read
    cells that [pixel_M] reads as well. *)
Definition calculateThresholdScanArrays_pixel (q_max n A d i j : Z)
    (maps : list float * list float) : M (list float * list float) :=
  tMinOccupancy ← occupancy_at i j 0;
  tMaxOccupancy ← occupancy_at i j (n - 1);
  M ← pixel_M i j n;
  let threshold :=
    (double_of_uint q_max - double_of_uint d * double_of_uint M / double_of_uint A)%float in
  rMuArray ← defined (store (Some maps.1) (to_uint (i + j * RAW_DATA_MAX_COLUMN)) threshold);
  mu ← pixel_mu i j n A threshold;
  let noise :=
    (double_of_uint d * double_of_uint (to_uint (mu.1 + mu.2)) / double_of_uint A
     * sqrt (noise_constant / 2))%float in
  rSigmaArray ← defined (store (Some maps.2) (to_uint (i + j * RAW_DATA_MAX_COLUMN)) noise);
  mret (rMuArray, rSigmaArray).

(** [calculateThresholdScanArrays(rMuArray, rSigmaArray)]: the result is the
    contents of the two caller arrays when the function returns. *)
Definition calculateThresholdScanArrays (rMuArray rSigmaArray : list float)
    : M (list float * list float) :=
  h ← get;
  if _NparameterValues h <? 2 then mret (rMuArray, rSigmaArray) else
  q_min ← getMinParameter;
  q_max ← getMaxParameter;
  n ← getNparameters;
  let A := 100 in
  d ← defined (double_to_int
         ((double_of_uint q_max - double_of_uint q_min) / double_of_uint (to_uint (n - 1)))%float);
  let d := to_uint d in
  for_fold (λ i maps,
      for_fold (λ j maps, calculateThresholdScanArrays_pixel q_max n A d i j maps)
        (seqZ 0 RAW_DATA_MAX_ROW) maps)
    (seqZ 0 RAW_DATA_MAX_COLUMN) (rMuArray, rSigmaArray).

(** The destructor. *)
Definition Histogram_delete : M unit :=
  deleteOccupancyArray;; deleteTotArray;; deleteRelBcidArray.

(** [test()]: every statement of its body is commented out. *)
Definition test : M unit := mret tt.

(** ** Statements about the sensor geometry and the counters *)

Definition valid_column (hit : HitInfo) : Prop := 1 ≤ column hit ≤ RAW_DATA_MAX_COLUMN.
Definition valid_row (hit : HitInfo) : Prop := 1 ≤ row hit ≤ RAW_DATA_MAX_ROW.
Definition valid_tot (hit : HitInfo) : Prop := 0 ≤ tot hit ≤ 15.
Definition valid_relativeBCID (hit : HitInfo) : Prop := 0 ≤ relativeBCID hit ≤ 15.

(** The sensor geometry fits the types the indices are compared in. *)
Definition geometry_in_type : Prop :=
  0 < RAW_DATA_MAX_COLUMN < USHRT_MOD ∧ 0 < RAW_DATA_MAX_ROW ≤ INT_MAX.

(** The counter at [i] behind [p] after a hit, [p'] being the pointer after
    it: incremented in a histogram that is enabled, untouched in one that is
    not. *)
Definition counted (enabled : bool) (modulus : Z) (p p' : option (list Z)) (i : Z) : Prop :=
  if enabled then ∃ a, increment modulus p i = Some a ∧ p' = Some a else p' = p.

(** A histogram run without scan parameter, as the constructor and
    [setNoScanParameter] leave it: no tables, one parameter index, and an
    array of its size behind every histogram that is enabled. *)
Definition no_scan_parameter (h : Histogram) : Prop :=
  _parInfo h = None ∧ _parameterValues h = [] ∧ _NparameterValues h = 1 ∧
  (_createOccHist h = true →
     ∃ a, _occupancy h = Some a ∧
          Z.of_nat (length a) = RAW_DATA_MAX_COLUMN * RAW_DATA_MAX_ROW * 1) ∧
  (_createRelBCIDhist h = true → ∃ a, _relBcid h = Some a ∧ length a = 16%nat) ∧
  (_createTotHist h = true → ∃ a, _tot h = Some a ∧ length a = 16%nat).

(** * Proofs *)

(** ** The monad *)

Lemma bind_Returns {A B : Type} (m : M A) (f : A → M B) (h h' : Histogram) (a : A) :
  m h = Returns a h' → (m ≫= f) h = f a h'.
Proof. intros E. unfold mbind, M_bind. by rewrite E. Qed.

Lemma bind_Throws {A B : Type} (m : M A) (f : A → M B) (h h' : Histogram) (e : exception) :
  m h = Throws e h' → (m ≫= f) h = Throws e h'.
Proof. intros E. unfold mbind, M_bind. by rewrite E. Qed.

Lemma bind_Undefined {A B : Type} (m : M A) (f : A → M B) (h : Histogram) :
  m h = Undefined → (m ≫= f) h = Undefined.
Proof. intros E. unfold mbind, M_bind. by rewrite E. Qed.

(** A bind that returns did so through a first part that returned. *)
Lemma bind_Returns_inv {A B : Type} (m : M A) (f : A → M B) (h h' : Histogram) (b : B) :
  (m ≫= f) h = Returns b h' → ∃ a h1, m h = Returns a h1 ∧ f a h1 = Returns b h'.
Proof.
  unfold mbind, M_bind. destruct (m h) as [a h1| |]; [|done..].
  intros E. by exists a, h1.
Qed.

Lemma defined_Some {A : Type} (o : option A) (a : A) (h : Histogram) :
  o = Some a → defined o h = Returns a h.
Proof. by intros ->. Qed.

Ltac unfold_monad :=
  unfold defined, undefined, throw, modify, get;
  unfold mbind, M_bind, mret, M_ret; cbv beta.

Ltac unfold_monad_in H :=
  unfold defined, undefined, throw, modify, get in H;
  unfold mbind, M_bind, mret, M_ret in H; cbv beta in H.

(** ** Arrays *)

Lemma load_Some {A : Type} (a : list A) (i : Z) :
  0 ≤ i → load (Some a) i = a !! Z.to_nat i.
Proof. intros Hi. unfold load. simpl. destruct (Z.leb_spec 0 i); [done|lia]. Qed.

Lemma load_Some_inv {A : Type} (p : option (list A)) (i : Z) (x : A) :
  load p i = Some x → ∃ a, p = Some a ∧ 0 ≤ i ∧ a !! Z.to_nat i = Some x.
Proof.
  destruct p as [a|]; [|done]. unfold load. simpl.
  destruct (Z.leb_spec 0 i); [|done]. intros E. by exists a.
Qed.

Lemma store_Some {A : Type} (a : list A) (i : Z) (v : A) :
  0 ≤ i < Z.of_nat (length a) → store (Some a) i v = Some (<[Z.to_nat i := v]> a).
Proof.
  intros Hi. unfold store. simpl.
  destruct (Z.leb_spec 0 i); [|lia]. destruct (Z.ltb_spec i (Z.of_nat (length a))); [done|lia].
Qed.

Lemma store_Some_inv {A : Type} (p : option (list A)) (i : Z) (v : A) (b : list A) :
  store p i v = Some b →
  ∃ a, p = Some a ∧ 0 ≤ i < Z.of_nat (length a) ∧ b = <[Z.to_nat i := v]> a.
Proof.
  destruct p as [a|]; [|done]. unfold store. simpl.
  destruct (Z.leb_spec 0 i); [|done].
  destruct (Z.ltb_spec i (Z.of_nat (length a))); [|done].
  intros [= <-]. exists a. split; [done|]. split; [lia|done].
Qed.

(** ** Allocation and reset of the 16-slot arrays *)

Lemma member_tot : member _tot set_tot.
Proof. split; [done|done|by intros []]. Qed.

Lemma member_relBcid : member _relBcid set_relBcid.
Proof. split; [done|done|by intros []]. Qed.

Lemma member_occupancy : member _occupancy set_occupancy.
Proof. split; [done|done|by intros []]. Qed.

(** The reset loop, started behind the cells [filled], overwrites every
    cell that is left with zero. *)
Lemma reset_loop getp setp (Hm : member getp setp) (rest filled : list Z) (h : Histogram) :
  getp h = Some (filled ++ rest) →
  for_each (λ i, h ← get; a ← defined (store (getp h) i 0); modify (setp (Some a)))
    (seqZ (Z.of_nat (length filled)) (Z.of_nat (length rest))) h
  = Returns tt (setp (Some (filled ++ replicate (length rest) 0)) h).
Proof.
  revert filled h. induction rest as [|x rest IH]; intros filled h Hp.
  - rewrite seqZ_nil by (simpl; lia). simpl. unfold mret, M_ret.
    rewrite <- Hp. by rewrite (set_get _ _ Hm).
  - rewrite seqZ_cons by (simpl; lia). simpl for_each.
    assert (Hst : store (getp h) (Z.of_nat (length filled)) 0
                  = Some ((filled ++ [0]) ++ rest)).
    { rewrite Hp, store_Some by (rewrite length_app; simpl; lia).
      rewrite Nat2Z.id. f_equal.
      rewrite insert_app_r_alt, Nat.sub_diag by lia. simpl. by rewrite <- app_assoc. }
    erewrite bind_Returns; last first.
    { unfold_monad. rewrite Hst. reflexivity. }
    cbv beta.
    replace (Z.succ (Z.of_nat (length filled))) with (Z.of_nat (length (filled ++ [0])))
      by (rewrite length_app; simpl; lia).
    replace (Z.pred (Z.of_nat (S (length rest)))) with (Z.of_nat (length rest)) by lia.
    rewrite IH by (by rewrite (get_set _ _ Hm)).
    rewrite (set_set _ _ Hm). do 3 f_equal.
    rewrite <- app_assoc. done.
Qed.

Lemma length_new_array (n : Z) : length (new_array n) = Z.to_nat n.
Proof. unfold new_array. by rewrite length_fmap, length_seq. Qed.

(** Reset of a freshly allocated array of [n] cells, whatever it held. *)
Lemma reset_new_array getp setp (Hm : member getp setp) (n : nat) (h : Histogram) :
  for_each (λ i, h ← get; a ← defined (store (getp h) i 0); modify (setp (Some a)))
    (seqZ 0 (Z.of_nat n)) (setp (Some (new_array (Z.of_nat n))) h)
  = Returns tt (setp (Some (replicate n 0)) h).
Proof.
  pose proof (reset_loop getp setp Hm (new_array (Z.of_nat n)) []
                (setp (Some (new_array (Z.of_nat n))) h)) as E.
  rewrite length_new_array, Nat2Z.id in E. simpl in E.
  change (Z.of_nat 0) with 0 in E.
  rewrite E by (by rewrite (get_set _ _ Hm)).
  by rewrite (set_set _ _ Hm).
Qed.

(** C10. Calling the ToT or the relative-BCID enable setter with any
    boolean, [false] included, stores the flag, reallocates the 16-slot
    array and fills it with zeros: whatever counts the array held before the
    call are gone after it. *)
Theorem create_hist_reallocates_and_zero_fills (b : bool) (h : Histogram) :
  createTotHist b h
    = Returns tt (set_tot (Some (replicate 16 0)) (set_createTotHist b h)) ∧
  createRelBCIDHist b h
    = Returns tt (set_relBcid (Some (replicate 16 0)) (set_createRelBCIDhist b h)).
Proof.
  split.
  - unfold createTotHist, allocateTotArray, deleteTotArray, resetTotArray.
    erewrite bind_Returns by reflexivity.
    erewrite bind_Returns by reflexivity.
    pose proof (reset_new_array _tot set_tot member_tot 16) as E. simpl in E.
    rewrite (set_set _ _ member_tot).
    apply E.
  - unfold createRelBCIDHist, allocateRelBcidArray, deleteRelBcidArray, resetRelBcidArray.
    erewrite bind_Returns by reflexivity.
    erewrite bind_Returns by reflexivity.
    pose proof (reset_new_array _relBcid set_relBcid member_relBcid 16) as E. simpl in E.
    rewrite (set_set _ _ member_relBcid).
    apply E.
Qed.

(** ** The threshold and noise estimator *)

(** C7. With fewer than two distinct parameter values
    [calculateThresholdScanArrays] returns at once: both caller arrays are
    handed back as they were passed, no element written, and the histogram
    is unchanged. *)
Theorem calculateThresholdScanArrays_too_few_parameters
    (rMuArray rSigmaArray : list float) (h : Histogram) :
  _NparameterValues h < 2 →
  calculateThresholdScanArrays rMuArray rSigmaArray h
    = Returns (rMuArray, rSigmaArray) h.
Proof.
  intros Hn. unfold calculateThresholdScanArrays.
  erewrite bind_Returns by reflexivity.
  destruct (Z.ltb_spec (_NparameterValues h) 2); [done|lia].
Qed.

(** No number is less than itself. *)
Lemma ltb_irrefl (x : float) : (x <? x)%float = false.
Proof.
  rewrite ltb_spec. unfold SFltb, SFcompare.
  destruct (Prim2SF x) as [s|s| |s m e]; [done|by destruct s|done|].
  rewrite Z.compare_refl.
  assert (Hm : Pos.compare_cont Eq m m = Eq) by apply Pos.compare_cont_refl.
  destruct s; [|by rewrite Hm].
  unfold CompOpp. by rewrite Hm.
Qed.

(** A parameter index equal to the threshold adds to neither sum. *)
Lemma pixel_mu_step_at_threshold (i j A k : Z) (mu : Z * Z) (h : Histogram) :
  pixel_mu_step i j A (double_of_uint k) k mu h = Returns mu h.
Proof.
  unfold pixel_mu_step. rewrite ltb_irrefl. unfold_monad. by destruct mu.
Qed.

(** ** The parameter index *)

Lemma index_from_absent (i : Z) (values : list Z) (v : Z) :
  v ∉ values → index_from i values v = None.
Proof.
  revert i. induction values as [|x values IH]; intros i Hv; [done|].
  simpl. destruct (Z.eqb_spec x v) as [->|_].
  - exfalso. apply Hv. left.
  - apply IH. intros Hin. apply Hv. by right.
Qed.

Lemma index_from_first_match (i : Z) (values : list Z) (v : Z) (k : nat) :
  first_match values v k → index_from i values v = Some (i + Z.of_nat k).
Proof.
  revert i k. induction values as [|x values IH]; intros i k [Hk Hfirst]; [done|].
  simpl. destruct k as [|k].
  - injection Hk as ->. rewrite Z.eqb_refl. f_equal. lia.
  - destruct (Z.eqb_spec x v) as [->|_].
    + by destruct (Hfirst 0%nat ltac:(lia)).
    + rewrite (IH (i + 1) k); [f_equal; lia|]. split; [done|].
      intros j Hj. apply (Hfirst (S j)). lia.
Qed.

(** The search loop of [getParIndex] over the cells behind [before]. *)
Lemma getParIndex_loop (v : Z) (values before rest : list Z) (h : Histogram) :
  values = before ++ rest →
  for_first (λ i,
      x ← defined (values !! Z.to_nat i);
      mret (if x =? v then Some i else None))
    (seqZ (Z.of_nat (length before)) (Z.of_nat (length rest))) h
  = Returns (index_from (Z.of_nat (length before)) rest v) h.
Proof.
  revert before. induction rest as [|x rest IH]; intros before ->.
  - by rewrite seqZ_nil by (simpl; lia).
  - rewrite seqZ_cons by (simpl; lia). simpl for_first. simpl index_from.
    erewrite bind_Returns; last first.
    { erewrite bind_Returns; [reflexivity|]. apply defined_Some.
      rewrite Nat2Z.id. apply list_lookup_middle. done. }
    cbv beta. destruct (Z.eqb_spec x v) as [->|_]; [done|].
    replace (Z.succ (Z.of_nat (length before))) with (Z.of_nat (length (before ++ [x])))
      by (rewrite length_app; simpl; lia).
    replace (Z.pred (Z.of_nat (S (length rest)))) with (Z.of_nat (length rest)) by lia.
    replace (Z.of_nat (length before) + 1) with (Z.of_nat (length (before ++ [x])))
      by (rewrite length_app; simpl; lia).
    apply IH. by rewrite <- app_assoc.
Qed.

Lemma getParIndex_index_from (v : Z) (h : Histogram) :
  getParIndex v h = Returns (default 0 (index_from 0 (_parameterValues h) v)) h.
Proof.
  unfold getParIndex. erewrite bind_Returns by reflexivity.
  erewrite bind_Returns; [reflexivity|].
  apply (getParIndex_loop v (_parameterValues h) [] (_parameterValues h)). done.
Qed.

(** C4. [getParIndex] searches the parameter value set from its start for a
    value equal to its argument: it returns the position of the first
    match, and index 0 for every value that is not in the set; the
    histogram is unchanged and no error is raised. *)
Theorem getParIndex_linear_search (v : Z) (h : Histogram) :
  (∀ i : nat, first_match (_parameterValues h) v i →
     getParIndex v h = Returns (Z.of_nat i) h) ∧
  (v ∉ _parameterValues h → getParIndex v h = Returns 0 h).
Proof.
  rewrite getParIndex_index_from. split.
  - intros i Hi. by rewrite (index_from_first_match 0 _ v i Hi).
  - intros Hv. by rewrite index_from_absent.
Qed.

(** ** The correlation of event numbers with scan parameters *)

(** One turn of the scan, whatever the tables hold: it goes on in the same
    state, or returns with the cursor set to its index, or is undefined. *)
Lemma getEventParameter_body_outcome (ev i : Z) (h : Histogram) :
  match getEventParameter_body ev i h with
  | Returns None h' => h' = h
  | Returns (Some _) h' => h' = set_lastMetaEventIndex i h
  | Throws _ _ => False
  | Undefined => True
  end.
Proof.
  unfold getEventParameter_body. unfold_monad.
  destruct (load (_metaEventIndex h) (i + 1)) as [next|]; [|done].
  destruct (ev <? next).
  - by destruct (load (_parInfo h) i).
  - destruct (load (_metaEventIndex h) i) as [cur|]; [|done].
    destruct (next <? cur); [|done].
    by destruct (load (_parInfo h) i).
Qed.

(** The scan over a range of indices that all lie at or behind [c]: it runs
    to the end in the same state, or returns with the cursor at or behind
    [c]; it never throws. *)
Lemma getEventParameter_scan_outcome (ev c : Z) (range : list Z) (h : Histogram) :
  Forall (λ i, c ≤ i) range →
  match for_first (getEventParameter_body ev) range h with
  | Returns None h' => h' = h
  | Returns (Some _) h' => ∃ i, c ≤ i ∧ h' = set_lastMetaEventIndex i h
  | Throws _ _ => False
  | Undefined => True
  end.
Proof.
  induction range as [|i range IH]; intros Hrange; [done|].
  apply Forall_cons in Hrange as [Hi Hrange]. specialize (IH Hrange).
  simpl. unfold mbind, M_bind.
  pose proof (getEventParameter_body_outcome ev i h) as Hbody.
  destruct (getEventParameter_body ev i h) as [[v|] h'| |]; [| |done..].
  - subst h'. unfold mret, M_ret. by exists i.
  - by subst h'.
Qed.

(** The outcomes of [getEventParameter]: a return or a throw leaves the
    histogram as it was, but for the cursor, which may have moved on. *)
Lemma getEventParameter_outcome (ev : Z) (h : Histogram) :
  match getEventParameter ev h with
  | Returns _ h' =>
      h' = h ∨ ∃ i, _lastMetaEventIndex h ≤ i ∧ h' = set_lastMetaEventIndex i h
  | Throws _ h' => h' = h
  | Undefined => True
  end.
Proof.
  unfold getEventParameter. unfold mbind at 1. unfold M_bind, get.
  destruct (_parInfo h) as [par|] eqn:Hpar; [|simpl; by left].
  unfold mbind, M_bind.
  pose proof (getEventParameter_scan_outcome ev (_lastMetaEventIndex h)
    (seqZ (_lastMetaEventIndex h)
       (to_uint (_nMetaEventIndexLength h - 1) - _lastMetaEventIndex h)) h) as Hscan.
  specialize (Hscan ltac:(apply Forall_seqZ; lia)).
  destruct (for_first _ _ h) as [[v|] h'| |]; [| |done..].
  - simpl. by right.
  - subst h'. unfold_monad.
    destruct (load (_metaEventIndex h) _) as [boundary|]; [|done].
    destruct (boundary <=? ev); [|done].
    rewrite Hpar. destruct (load (Some par) _); [by left|done].
Qed.

(** C9. The correlation cursor never moves backward: in whatever state
    [getEventParameter] is called, and whether it returns or throws, the
    cursor after the call is at least the cursor before it. *)
Theorem getEventParameter_cursor_never_backward (ev : Z) (h : Histogram) :
  match getEventParameter ev h with
  | Returns _ h' | Throws _ h' => _lastMetaEventIndex h ≤ _lastMetaEventIndex h'
  | Undefined => True
  end.
Proof.
  pose proof (getEventParameter_outcome ev h) as Hout.
  destruct (getEventParameter ev h) as [v h'|e h'|]; [| |done].
  - destruct Hout as [->|(i & Hi & ->)]; [lia|done].
  - subst h'. lia.
Qed.

(** A turn of the scan at a pair where it stops. *)
Lemma getEventParameter_body_stops (ev i : Z) (h : Histogram)
    (meta : list Z) (par : list ParInfo) (p : ParInfo) :
  _metaEventIndex h = Some meta → _parInfo h = Some par →
  stops_at meta ev i → load (Some par) i = Some p →
  getEventParameter_body ev i h
    = Returns (Some (scanParameter p)) (set_lastMetaEventIndex i h).
Proof.
  intros Hmeta Hpar (cur & next & Hcur & Hnext & Hstop) Hp.
  unfold getEventParameter_body. unfold_monad.
  rewrite Hmeta, Hnext, Hcur, Hpar, Hp.
  destruct (Z.ltb_spec ev next); [done|].
  destruct (Z.ltb_spec next cur); [done|lia].
Qed.

(** A turn of the scan at a pair of the table where it does not stop. *)
Lemma getEventParameter_body_goes_on (ev i : Z) (h : Histogram) (meta : list Z) :
  _metaEventIndex h = Some meta →
  0 ≤ i → i + 1 < Z.of_nat (length meta) →
  ¬ stops_at meta ev i →
  getEventParameter_body ev i h = Returns None h.
Proof.
  intros Hmeta Hi Hlen Hgo.
  destruct (lookup_lt_is_Some_2 meta (Z.to_nat i) ltac:(lia)) as [cur Hcur].
  destruct (lookup_lt_is_Some_2 meta (Z.to_nat (i + 1)) ltac:(lia)) as [next Hnext].
  rewrite <- load_Some in Hcur, Hnext by lia.
  unfold getEventParameter_body. unfold_monad.
  rewrite Hmeta, Hnext, Hcur.
  destruct (Z.ltb_spec ev next) as [Hlt|_].
  { destruct Hgo. exists cur, next. auto. }
  destruct (Z.ltb_spec next cur) as [Hlt|_]; [|done].
  destruct Hgo. exists cur, next. auto.
Qed.

(** The scan from [c] over [len] pairs none of which stops it. *)
Lemma getEventParameter_scan_end (ev : Z) (h : Histogram) (meta : list Z)
    (len : nat) (c : Z) :
  _metaEventIndex h = Some meta →
  0 ≤ c → c + Z.of_nat len < Z.of_nat (length meta) →
  (∀ j, c ≤ j < c + Z.of_nat len → ¬ stops_at meta ev j) →
  for_first (getEventParameter_body ev) (seqZ c (Z.of_nat len)) h = Returns None h.
Proof.
  intros Hmeta. revert c. induction len as [|len IH]; intros c Hc Hlen Hgo.
  - by rewrite seqZ_nil.
  - rewrite seqZ_cons by lia. simpl for_first.
    erewrite bind_Returns; last first.
    { apply (getEventParameter_body_goes_on ev c h meta); [done|lia|lia|].
      apply Hgo. lia. }
    cbv beta iota.
    replace (Z.pred (Z.of_nat (S len))) with (Z.of_nat len) by lia.
    apply IH; [lia|lia|]. intros j Hj. apply Hgo. lia.
Qed.

(** The scan from [c] stops at the first pair that stops it. *)
Lemma getEventParameter_scan_stops (ev : Z) (h : Histogram) (meta : list Z)
    (par : list ParInfo) (p : ParInfo) (k : nat) (c len : Z) :
  _metaEventIndex h = Some meta → _parInfo h = Some par →
  0 ≤ c → c + Z.of_nat k + 1 < Z.of_nat (length meta) → Z.of_nat k < len →
  (∀ j, c ≤ j < c + Z.of_nat k → ¬ stops_at meta ev j) →
  stops_at meta ev (c + Z.of_nat k) →
  load (Some par) (c + Z.of_nat k) = Some p →
  for_first (getEventParameter_body ev) (seqZ c len) h
    = Returns (Some (scanParameter p)) (set_lastMetaEventIndex (c + Z.of_nat k) h).
Proof.
  intros Hmeta Hpar. revert c len.
  induction k as [|k IH]; intros c len Hc Hlen Hk Hgo Hstop Hp.
  - rewrite seqZ_cons by lia. simpl for_first.
    rewrite Z.add_0_r in *.
    erewrite bind_Returns; last by eapply getEventParameter_body_stops.
    done.
  - rewrite seqZ_cons by lia. simpl for_first.
    erewrite bind_Returns; last first.
    { apply (getEventParameter_body_goes_on ev c h meta); [done|lia|lia|].
      apply Hgo. lia. }
    cbv beta iota.
    replace (c + Z.of_nat (S k)) with (Z.succ c + Z.of_nat k) in * by lia.
    apply IH; [lia|lia|lia| |done|done].
    intros j Hj. apply Hgo. lia.
Qed.

(** C3. [getEventParameter] returns scan parameter 0 when no parameter
    table is loaded. With the tables loaded it scans the pairs (i, i+1) from
    the cursor on: at the first pair whose next boundary exceeds the event
    number or is less than the current boundary it sets the cursor to i and
    returns the scan parameter of entry i. When no pair stops the scan, it
    returns the scan parameter of the last entry if the last boundary is at
    most the event number, and otherwise throws the correlation error (23)
    with the event number and the last boundary, in an unchanged state and
    with no value returned. *)
Theorem getEventParameter_correlation (ev : Z) (h : Histogram) :
  (_parInfo h = None → getEventParameter ev h = Returns 0 h) ∧
  (∀ meta par, tables_loaded h meta par →
     let cursor := _lastMetaEventIndex h in
     let last := _nMetaEventIndexLength h - 1 in
     (∀ i p,
        cursor ≤ i < last →
        (∀ j, cursor ≤ j < i → ¬ stops_at meta ev j) →
        stops_at meta ev i →
        load (Some par) i = Some p →
        getEventParameter ev h
          = Returns (scanParameter p) (set_lastMetaEventIndex i h)) ∧
     (∀ boundary p,
        (∀ j, cursor ≤ j < last → ¬ stops_at meta ev j) →
        load (Some meta) last = Some boundary →
        load (Some par) last = Some p →
        (boundary ≤ ev → getEventParameter ev h = Returns (scanParameter p) h) ∧
        (ev < boundary →
           getEventParameter ev h = Throws (CorrelationError ev boundary cursor) h ∧
           thrown_value (CorrelationError ev boundary cursor) = 23))).
Proof.
  split.
  { intros Hpar. unfold getEventParameter. unfold_monad. by rewrite Hpar. }
  intros meta par (Hmeta & Hpar & Hn & Hlmeta & Hlpar & Hc) cursor last.
  assert (Hlast : to_uint (_nMetaEventIndexLength h - 1) = last).
  { unfold to_uint, UINT_MOD in *. apply Z.mod_small. lia. }
  split.
  - intros i p Hi Hgo Hstop Hp.
    unfold getEventParameter. erewrite bind_Returns by reflexivity.
    rewrite Hpar, Hlast.
    erewrite bind_Returns; last first.
    { replace i with (cursor + Z.of_nat (Z.to_nat (i - cursor))) in Hstop, Hp, Hgo by lia.
      eapply (getEventParameter_scan_stops ev h meta par p (Z.to_nat (i - cursor)));
        [done|done|done| | |exact Hgo|exact Hstop|exact Hp]; subst cursor last; lia. }
    cbv beta iota. do 2 f_equal. lia.
  - intros boundary p Hgo Hb Hp.
    assert (Hscan : for_first (getEventParameter_body ev)
              (seqZ cursor (last - cursor)) h = Returns None h).
    { destruct (Z.le_gt_cases (last - cursor) 0) as [Hle|Hgt].
      - by rewrite seqZ_nil.
      - replace (last - cursor) with (Z.of_nat (Z.to_nat (last - cursor))) by lia.
        apply (getEventParameter_scan_end ev h meta); [done|done|subst last; lia|].
        intros j Hj. apply Hgo. lia. }
    split.
    + intros Hle. unfold getEventParameter. erewrite bind_Returns by reflexivity.
      rewrite Hpar, Hlast. erewrite bind_Returns by exact Hscan.
      unfold_monad. rewrite Hmeta, Hb, Hpar, Hp.
      destruct (Z.leb_spec boundary ev); [done|lia].
    + intros Hlt. split; [|done].
      unfold getEventParameter. erewrite bind_Returns by reflexivity.
      rewrite Hpar, Hlast. erewrite bind_Returns by exact Hscan.
      unfold_monad. rewrite Hmeta, Hb.
      destruct (Z.leb_spec boundary ev); [lia|done].
Qed.

(** ** Hit ingestion *)

Lemma addHits_app (pre post : list HitInfo) (h : Histogram) :
  addHits (pre ++ post) h = (addHits pre;; addHits post) h.
Proof.
  revert h. induction pre as [|hit pre IH]; intros h; [done|].
  simpl. unfold mbind, M_bind in *.
  destruct (addHit hit h) as [[] h1| |]; [|done..]. apply IH.
Qed.

Lemma column_check (hit : HitInfo) :
  geometry_in_type → hit_in_type hit →
  (RAW_DATA_MAX_COLUMN - 1 <? to_ushort (column hit - 1)) = false ↔ valid_column hit.
Proof.
  unfold geometry_in_type, hit_in_type, valid_column, to_ushort, USHRT_MOD, INT_MAX.
  intros [Hc _] [Hcol _].
  destruct (Z.eq_dec (column hit) 0) as [->|Hne].
  - change ((0 - 1) mod 2 ^ 16) with 65535. rewrite Z.ltb_ge. lia.
  - rewrite Z.mod_small by lia. rewrite Z.ltb_ge. lia.
Qed.

Lemma row_check (hit : HitInfo) :
  geometry_in_type → hit_in_type hit →
  (to_uint (RAW_DATA_MAX_ROW - 1) <? to_uint (row hit - 1)) = false ↔ valid_row hit.
Proof.
  unfold geometry_in_type, hit_in_type, valid_row, to_uint, UINT_MOD, INT_MAX.
  intros [_ Hr] (_ & Hrow & _).
  rewrite (Z.mod_small (RAW_DATA_MAX_ROW - 1)) by lia.
  destruct (Z.eq_dec (row hit) 0) as [->|Hne].
  - change ((0 - 1) mod 2 ^ 32) with 4294967295. rewrite Z.ltb_ge. lia.
  - rewrite Z.mod_small by lia. rewrite Z.ltb_ge. lia.
Qed.

Lemma tot_check (hit : HitInfo) :
  hit_in_type hit → (15 <? to_uint (tot hit)) = false ↔ valid_tot hit.
Proof.
  unfold hit_in_type, valid_tot, to_uint, UINT_MOD. intros (_ & _ & Ht & _).
  rewrite Z.mod_small by lia. rewrite Z.ltb_ge. lia.
Qed.

Lemma relativeBCID_check (hit : HitInfo) :
  hit_in_type hit → (15 <? to_uint (relativeBCID hit)) = false ↔ valid_relativeBCID hit.
Proof.
  unfold hit_in_type, valid_relativeBCID, to_uint, UINT_MOD. intros (_ & _ & _ & Hb).
  rewrite Z.mod_small by lia. rewrite Z.ltb_ge. lia.
Qed.

(** C2. A batch is ingested hit by hit. At the first hit that fails a check
    the batch is aborted with the error of the first check that hit fails,
    in the order column, row, ToT, relative BCID: a column outside
    [1, MAX_COLUMN] gives InvalidColumn (20), a row outside [1, MAX_ROW]
    InvalidRow (21), a ToT outside [0, 15] InvalidTot (24), a relative BCID
    outside [0, 15] InvalidBcid (25). The histogram is then the one the
    hits before left: no counter is touched for the offending hit, and the
    hits behind it are not looked at. *)
Theorem addHits_invalid_hit_aborts (pre post : list HitInfo) (hit : HitInfo)
    (h h1 : Histogram) :
  geometry_in_type → hit_in_type hit →
  addHits pre h = Returns tt h1 →
  (¬ valid_column hit →
     addHits (pre ++ hit :: post) h = Throws InvalidColumn h1) ∧
  (valid_column hit → ¬ valid_row hit →
     addHits (pre ++ hit :: post) h = Throws InvalidRow h1) ∧
  (valid_column hit → valid_row hit → ¬ valid_tot hit →
     addHits (pre ++ hit :: post) h = Throws InvalidTot h1) ∧
  (valid_column hit → valid_row hit → valid_tot hit → ¬ valid_relativeBCID hit →
     addHits (pre ++ hit :: post) h = Throws InvalidBcid h1).
Proof.
  intros Hgeo Htype Hpre.
  pose proof (column_check hit Hgeo Htype) as Hcol.
  pose proof (row_check hit Hgeo Htype) as Hrow.
  pose proof (tot_check hit Htype) as Htot.
  pose proof (relativeBCID_check hit Htype) as Hbcid.
  assert (Hstep : addHits (pre ++ hit :: post) h = (addHit hit;; addHits post) h1).
  { rewrite addHits_app. by erewrite bind_Returns by exact Hpre. }
  rewrite Hstep. clear Hstep.
  repeat split.
  - intros Hc. apply bind_Throws. unfold addHit.
    destruct (_ <? to_ushort _); [done|]. destruct Hc. by apply Hcol.
  - intros Hc Hr. apply bind_Throws. unfold addHit.
    apply Hcol in Hc. rewrite Hc.
    destruct (_ <? to_uint (row hit - 1)); [done|]. destruct Hr. by apply Hrow.
  - intros Hc Hr Ht. apply bind_Throws. unfold addHit.
    apply Hcol in Hc. apply Hrow in Hr. rewrite Hc, Hr.
    destruct (_ <? to_uint (tot hit)); [done|]. destruct Ht. by apply Htot.
  - intros Hc Hr Ht Hb. apply bind_Throws. unfold addHit.
    apply Hcol in Hc. apply Hrow in Hr. apply Htot in Ht. rewrite Hc, Hr, Ht.
    destruct (_ <? to_uint (relativeBCID hit)); [done|]. destruct Hb. by apply Hbcid.
Qed.

(** The scan parameter lookup leaves everything but the cursor alone. *)
Lemma getEventParameter_Returns_frame (ev v : Z) (h h1 : Histogram) :
  getEventParameter ev h = Returns v h1 →
  ∃ i, h1 = set_lastMetaEventIndex i h.
Proof.
  intros E. pose proof (getEventParameter_outcome ev h) as Hout. rewrite E in Hout.
  destruct Hout as [->|(i & _ & ->)].
  - exists (_lastMetaEventIndex h). by destruct h.
  - by exists i.
Qed.

(** What a hit that is ingested did: its four fields passed their checks,
    its parameter index was in range, and each enabled histogram had the
    counter of the hit incremented, the others staying as they were. *)
Lemma addHit_Returns_inv (hit : HitInfo) (h h' : Histogram) :
  addHit hit h = Returns tt h' →
  (RAW_DATA_MAX_COLUMN - 1 <? to_ushort (column hit - 1)) = false ∧
  (to_uint (RAW_DATA_MAX_ROW - 1) <? to_uint (row hit - 1)) = false ∧
  (15 <? to_uint (tot hit)) = false ∧
  (15 <? to_uint (relativeBCID hit)) = false ∧
  ∃ v h1 occ' bcid' tot',
    getEventParameter (eventNumber hit) h = Returns v h1 ∧
    let tParIndex := default 0 (index_from 0 (_parameterValues h1) v) in
    0 ≤ tParIndex ≤ to_uint (_NparameterValues h1 - 1) ∧
    h' = set_tot tot' (set_relBcid bcid' (set_occupancy occ' h1)) ∧
    counted (_createOccHist h1) UINT_MOD (_occupancy h1) occ'
      (occupancy_index (to_ushort (column hit - 1)) (to_uint (row hit - 1)) tParIndex) ∧
    counted (_createRelBCIDhist h1) ULONG_MOD (_relBcid h1) bcid'
      (to_uint (relativeBCID hit)) ∧
    counted (_createTotHist h1) ULONG_MOD (_tot h1) tot' (to_uint (tot hit)).
Proof.
  unfold addHit.
  destruct (_ <? to_ushort _); [done|].
  destruct (_ <? to_uint (row hit - 1)); [done|].
  destruct (_ <? to_uint (tot hit)); [done|].
  destruct (_ <? to_uint (relativeBCID hit)); [done|].
  intros E. do 4 (split; [done|]).
  apply bind_Returns_inv in E as (v & h1 & Hev & E).
  rewrite bind_Returns with (1 := getParIndex_index_from v h1) in E.
  exists v, h1.
  unfold getNparameters in E. unfold_monad_in E.
  set (tParIndex := default 0 (index_from 0 (_parameterValues h1) v)) in *.
  destruct (Z.ltb_spec tParIndex 0) as [|Hlo]; [done|].
  destruct (Z.ltb_spec (to_uint (_NparameterValues h1 - 1)) tParIndex) as [|Hhi]; [done|].
  cbn beta iota in E. unfold counted.
  destruct (_createOccHist h1); cbn in E;
    [destruct (increment UINT_MOD _ _) as [a|] eqn:Ha; cbn in E;
       [exists (Some a)|discriminate E]
    |exists (_occupancy h1)];
    (destruct (_createRelBCIDhist h1); cbn in E;
       [destruct (increment ULONG_MOD (_relBcid h1) _) as [b|] eqn:Hb; cbn in E;
          [exists (Some b)|discriminate E]
       |exists (_relBcid h1)]);
    (destruct (_createTotHist h1); cbn in E;
       [destruct (increment ULONG_MOD (_tot h1) _) as [c|] eqn:Hc; cbn in E;
          [exists (Some c)|discriminate E]
       |exists (_tot h1)]);
    injection E as <-;
    repeat (first [done|split|eexists|by destruct h1]).
Qed.

(** *** The sum of the occupancy array *)

Lemma sum_insert (a : list Z) (i : nat) (v x : Z) :
  a !! i = Some v →
  foldr Z.add 0 (<[i := x]> a) = foldr Z.add 0 a - v + x.
Proof.
  revert i. induction a as [|y a IH]; intros i Hi; [done|].
  destruct i as [|i]; simpl in *.
  - injection Hi as ->. lia.
  - rewrite (IH i Hi). lia.
Qed.

(** One increment of a counter that has room adds one to the sum and leaves
    room for the increments that are left. *)
Lemma increment_sum (k : nat) (a a' : list Z) (i : Z) :
  room_for (S k) a →
  increment UINT_MOD (Some a) i = Some a' →
  foldr Z.add 0 a' = foldr Z.add 0 a + 1 ∧ room_for k a'.
Proof.
  unfold increment, room_for. intros Hroom Hinc.
  destruct (load (Some a) i) as [v|] eqn:Hv; [|done]. simpl in Hinc.
  apply load_Some_inv in Hv as (a0 & [= <-] & Hi & Hv).
  apply store_Some_inv in Hinc as (a0 & [= <-] & _ & ->).
  pose proof (Forall_lookup_1 _ _ _ _ Hroom Hv) as [Hv0 Hvk]. cbv beta in Hvk.
  assert (Hmod : (v + 1) mod UINT_MOD = v + 1) by (apply Z.mod_small; lia).
  rewrite Hmod. split.
  - rewrite (sum_insert a (Z.to_nat i) v (v + 1) Hv). lia.
  - apply Forall_insert.
    + eapply Forall_impl; [exact Hroom|]. simpl. lia.
    + lia.
Qed.

(** Ingestion of a batch into a histogram with occupancy enabled. *)
Lemma addHits_occupancy (rHitInfo : list HitInfo) (h h' : Histogram) :
  _createOccHist h = true →
  addHits rHitInfo h = Returns tt h' →
  (∀ a, _occupancy h = Some a → room_for (length rHitInfo) a) →
  occupancy_sum h' = occupancy_sum h + Z.of_nat (length rHitInfo).
Proof.
  revert h. induction rHitInfo as [|hit rest IH]; intros h Hocc Hret Hroom.
  { injection Hret as <-. simpl. lia. }
  simpl in Hret. apply bind_Returns_inv in Hret as ([] & h2 & Hhit & Hrest).
  apply addHit_Returns_inv in Hhit
    as (_ & _ & _ & _ & v & h1 & occ' & bcid' & tot' & Hev & _ & -> & Hcount & _ & _).
  apply getEventParameter_Returns_frame in Hev as [i ->].
  simpl in Hcount. rewrite Hocc in Hcount. destruct Hcount as (a' & Hinc & ->).
  destruct (_occupancy h) as [a|] eqn:Ha; [|done].
  destruct (increment_sum (length rest) a a' _ (Hroom a eq_refl) Hinc) as [Hsum Hroom'].
  set (h2 := set_tot _ _) in Hrest.
  assert (Hocc2 : _createOccHist h2 = true) by exact Hocc.
  assert (Hroom2 : ∀ a2, _occupancy h2 = Some a2 → room_for (length rest) a2).
  { simpl. by intros ? [= <-]. }
  rewrite (IH h2 Hocc2 Hrest Hroom2).
  unfold occupancy_sum. simpl. rewrite Ha. simpl. lia.
Qed.

(** C1 (amended). With occupancy histogramming enabled, after a batch is
    ingested (every hit passed its checks, its parameter was resolved and
    its parameter index was in range), the sum over all cells of the
    occupancy array is its sum before the batch plus the number of hits of
    the batch, provided no counter can wrap: every cell holds an unsigned
    value that the number of hits of the batch does not carry past
    2^32 - 1. In particular, from a zeroed array the sum is the number of
    ingested hits, for every batch that [rNhits], an [unsigned int], can
    count. *)
Theorem addHits_occupancy_sum (rHitInfo : list HitInfo) (h h' : Histogram) :
  _createOccHist h = true →
  addHits rHitInfo h = Returns tt h' →
  ((∀ a, _occupancy h = Some a →
      Forall (λ c, 0 ≤ c ∧ c + Z.of_nat (length rHitInfo) < UINT_MOD) a) →
   occupancy_sum h' = occupancy_sum h + Z.of_nat (length rHitInfo)) ∧
  (∀ cells : nat,
     _occupancy h = Some (replicate cells 0) →
     Z.of_nat (length rHitInfo) < UINT_MOD →
     occupancy_sum h' = Z.of_nat (length rHitInfo)).
Proof.
  intros Hocc Hret. split.
  - exact (addHits_occupancy rHitInfo h h' Hocc Hret).
  - intros cells Hzero Hlen.
    rewrite (addHits_occupancy rHitInfo h h' Hocc Hret).
    + unfold occupancy_sum. rewrite Hzero. simpl.
      clear. induction cells as [|cells IH]; simpl; lia.
    + intros a Ha. rewrite Hzero in Ha. injection Ha as <-.
      apply Forall_replicate. lia.
Qed.

(** A batch that is ingested holds only hits that pass the four checks. *)
Lemma addHits_Returns_valid (rHitInfo : list HitInfo) (h h' : Histogram) :
  geometry_in_type → Forall hit_in_type rHitInfo →
  addHits rHitInfo h = Returns tt h' →
  Forall (λ hit, valid_column hit ∧ valid_row hit ∧ valid_tot hit ∧
                 valid_relativeBCID hit) rHitInfo.
Proof.
  intros Hgeo. revert h. induction rHitInfo as [|hit rest IH]; intros h Htype Hret.
  { constructor. }
  apply Forall_cons in Htype as [Hhit Htype].
  simpl in Hret. apply bind_Returns_inv in Hret as ([] & h2 & Hone & Hrest).
  apply addHit_Returns_inv in Hone as (Hc & Hr & Ht & Hb & _).
  constructor; [|by eapply IH].
  split; [by apply column_check|]. split; [by apply row_check|].
  split; [by apply tot_check|by apply relativeBCID_check].
Qed.

(** ** The parameter table *)

Lemma std_sort_sorted (l : list Z) : StronglySorted Z.le (std_sort l).
Proof. apply StronglySorted_merge_sort; apply _. Qed.

Lemma std_sort_perm (l : list Z) : std_sort l ≡ₚ l.
Proof. apply merge_sort_Permutation. Qed.

Lemma elem_of_std_sort (l : list Z) (x : Z) : x ∈ std_sort l ↔ x ∈ l.
Proof. by rewrite std_sort_perm. Qed.

(** The front of a sorted vector is its least element, the back its
    greatest. *)
Lemma sorted_front_least (l : list Z) (x : Z) :
  StronglySorted Z.le l → head l = Some x → x ∈ l ∧ ∀ y, y ∈ l → x ≤ y.
Proof.
  intros Hs Hx. destruct l as [|x' l]; [done|]. injection Hx as ->.
  apply StronglySorted_inv in Hs as [_ Hall]. split; [left|].
  intros y [->|Hy]%elem_of_cons; [lia|].
  by apply (proj1 (Forall_forall _ _) Hall).
Qed.

Lemma sorted_back_greatest (l : list Z) (x : Z) :
  StronglySorted Z.le l → last l = Some x → x ∈ l ∧ ∀ y, y ∈ l → y ≤ x.
Proof.
  intros Hs [l' ->]%last_Some. split; [apply elem_of_app; right; left|].
  intros y [Hy|Hy%list_elem_of_singleton]%elem_of_app; [|lia].
  apply (StronglySorted_app_1_elem_of _ _ _ _ _ Hs Hy). left.
Qed.

(** [std::unique] on a sorted vector keeps one element of each value, in
    strictly ascending order. *)
Lemma elem_of_unique_prefix (l : list Z) (x : Z) : x ∈ unique_prefix l ↔ x ∈ l.
Proof.
  induction l as [|y [|z l] IH]; [done|done|].
  change (unique_prefix (y :: z :: l))
    with (if y =? z then unique_prefix (z :: l) else y :: unique_prefix (z :: l)).
  destruct (Z.eqb_spec y z) as [->|_].
  - rewrite IH, !elem_of_cons. tauto.
  - rewrite (elem_of_cons (z :: l)), elem_of_cons, IH. tauto.
Qed.

Lemma unique_prefix_sorted (l : list Z) :
  StronglySorted Z.le l → StronglySorted Z.lt (unique_prefix l).
Proof.
  induction l as [|y [|z l] IH]; intros Hs.
  - constructor.
  - repeat constructor.
  - change (unique_prefix (y :: z :: l))
      with (if y =? z then unique_prefix (z :: l) else y :: unique_prefix (z :: l)).
    apply StronglySorted_inv in Hs as [Hs Hall].
    destruct (Z.eqb_spec y z) as [->|Hne]; [by apply IH|].
    constructor; [by apply IH|].
    apply Forall_forall. intros x Hx.
    apply (proj1 (elem_of_unique_prefix _ _)) in Hx.
    pose proof (proj1 (Forall_forall _ _) Hall x Hx) as Hyx.
    apply elem_of_cons in Hx as [->|Hx]; [lia|].
    apply StronglySorted_inv in Hs as [_ Hall'].
    pose proof (proj1 (Forall_forall _ _) Hall' x Hx).
    pose proof (proj1 (Forall_forall _ _) Hall z ltac:(left)). lia.
Qed.

Lemma strictly_sorted_NoDup (l : list Z) : StronglySorted Z.lt l → NoDup l.
Proof.
  induction 1 as [|x l Hs IH Hall]; constructor; [|done].
  intros Hx. pose proof (proj1 (Forall_forall _ _) Hall x Hx). lia.
Qed.

(** The number of elements [std::unique] keeps of a sorted vector is the
    number of distinct values in it. *)
Lemma length_unique_prefix_std_sort (l : list Z) :
  length (unique_prefix (std_sort l)) = length (remove_dups l).
Proof.
  apply Permutation_length, NoDup_Permutation.
  - apply strictly_sorted_NoDup, unique_prefix_sorted, std_sort_sorted.
  - apply NoDup_remove_dups.
  - intros x. by rewrite elem_of_unique_prefix, elem_of_std_sort, elem_of_remove_dups.
Qed.

(** [std::unique] finds nothing to remove where no two neighbours are
    equal. *)
Lemma unique_prefix_NoDup (l : list Z) : NoDup l → unique_prefix l = l.
Proof.
  induction l as [|y [|z l] IH]; intros Hnd; [done|done|].
  change (unique_prefix (y :: z :: l))
    with (if y =? z then unique_prefix (z :: l) else y :: unique_prefix (z :: l)).
  apply NoDup_cons in Hnd as [Hy Hnd].
  destruct (Z.eqb_spec y z) as [->|_].
  - destruct Hy. left.
  - by rewrite IH.
Qed.

Lemma std_unique_NoDup (l : list Z) : NoDup l → std_unique l = l.
Proof.
  intros Hnd. unfold std_unique. rewrite (unique_prefix_NoDup l Hnd).
  by rewrite drop_all, app_nil_r.
Qed.

(** The set of [int]s is kept strictly ascending and holds what was
    inserted. *)
Lemma set_insert_spec (x : Z) (l : list Z) :
  StronglySorted Z.lt l →
  StronglySorted Z.lt (set_insert x l) ∧ ∀ y, y ∈ set_insert x l ↔ y = x ∨ y ∈ l.
Proof.
  induction 1 as [|z l Hs IH Hall]; simpl.
  - split; [repeat constructor|]. intros y. rewrite list_elem_of_singleton.
    rewrite elem_of_nil. tauto.
  - destruct (Z.ltb_spec x z) as [Hlt|Hge].
    + split; [|intros y; by rewrite elem_of_cons].
      constructor; [by constructor|]. constructor; [done|].
      eapply Forall_impl; [exact Hall|]. simpl. lia.
    + destruct (Z.eqb_spec x z) as [->|Hne].
      * split; [by constructor|]. intros y. rewrite elem_of_cons. tauto.
      * destruct IH as [IHs IHe]. split.
        -- constructor; [done|]. apply Forall_forall. intros y [->|Hy]%IHe; [lia|].
           by apply (proj1 (Forall_forall _ _) Hall).
        -- intros y. rewrite !elem_of_cons, IHe. tauto.
Qed.

Lemma std_set_int_spec (l : list Z) :
  StronglySorted Z.lt (std_set_int l) ∧ ∀ y, y ∈ std_set_int l ↔ y ∈ to_int <$> l.
Proof.
  unfold std_set_int.
  assert (Hgen : ∀ acc, StronglySorted Z.lt acc →
    StronglySorted Z.lt (foldl (λ s u, set_insert (to_int u) s) acc l) ∧
    ∀ y, y ∈ foldl (λ s u, set_insert (to_int u) s) acc l ↔ y ∈ acc ∨ y ∈ to_int <$> l).
  { induction l as [|u l IH]; intros acc Hacc; simpl.
    - split; [done|]. intros y. rewrite elem_of_nil. tauto.
    - destruct (set_insert_spec (to_int u) acc Hacc) as [Hs He].
      destruct (IH _ Hs) as [IHs IHe]. split; [done|].
      intros y. rewrite IHe, He, elem_of_cons. tauto. }
  destruct (Hgen [] ltac:(constructor)) as [Hs He]. split; [done|].
  intros y. rewrite He, elem_of_nil. tauto.
Qed.

(** The first loop of [setParameterLimits] pushes the scan parameters of the
    entries, in the order of the table. *)
Lemma setParameterLimits_push (par before rest : list ParInfo) (acc : list Z)
    (h : Histogram) :
  par = before ++ rest →
  for_fold (λ i (acc : list Z),
      p ← defined (load (Some par) i);
      mret (acc ++ [scanParameter p]))
    (seqZ (Z.of_nat (length before)) (Z.of_nat (length rest))) acc h
  = Returns (acc ++ (scanParameter <$> rest)) h.
Proof.
  revert before acc. induction rest as [|p rest IH]; intros before acc ->.
  - rewrite seqZ_nil by (simpl; lia). simpl. by rewrite app_nil_r.
  - rewrite seqZ_cons by (simpl; lia). simpl for_fold.
    erewrite bind_Returns; last first.
    { erewrite bind_Returns; [reflexivity|]. apply defined_Some.
      rewrite load_Some by lia. rewrite Nat2Z.id. by apply list_lookup_middle. }
    cbv beta.
    replace (Z.succ (Z.of_nat (length before))) with (Z.of_nat (length (before ++ [p])))
      by (rewrite length_app; simpl; lia).
    replace (Z.pred (Z.of_nat (S (length rest)))) with (Z.of_nat (length rest)) by lia.
    rewrite (IH (before ++ [p])) by (by rewrite <- app_assoc).
    by rewrite <- app_assoc.
Qed.

(** [setParameterLimits] on a table whose sorted values have a front and a
    back. *)
Lemma setParameterLimits_Returns (h : Histogram) (par : list ParInfo) (front back : Z) :
  _parInfo h = Some par → _nParInfoLength h = Z.of_nat (length par) →
  head (std_sort (scanParameter <$> par)) = Some front →
  last (std_sort (scanParameter <$> par)) = Some back →
  setParameterLimits h
  = Returns tt
      (set_NparameterValues
         (Z.of_nat (length (unique_prefix (std_sort (scanParameter <$> par)))))
         (set_maxParameterValue back
            (set_minParameterValue front
               (set_parameterValues
                  (std_unique (to_uint <$> std_set_int (std_sort (scanParameter <$> par))))
                  h)))).
Proof.
  intros Hpar Hn Hfront Hback. unfold setParameterLimits.
  erewrite bind_Returns by reflexivity.
  erewrite bind_Returns; last first.
  { rewrite Hpar, Hn. apply (setParameterLimits_push par [] par []). done. }
  simpl app. unfold_monad. by rewrite Hfront, Hback.
Qed.

(** On an empty table [setParameterLimits] reads the front of an empty
    vector. *)
Lemma setParameterLimits_empty (h : Histogram) :
  _parInfo h = Some [] → _nParInfoLength h = 0 →
  setParameterLimits h = Undefined.
Proof.
  intros Hpar Hn. unfold setParameterLimits.
  erewrite bind_Returns by reflexivity.
  erewrite bind_Returns; last first.
  { rewrite Hpar, Hn. apply (setParameterLimits_push [] [] [] []). done. }
  done.
Qed.

Lemma to_int_small (v : Z) : 0 ≤ v ≤ INT_MAX → to_int v = v.
Proof.
  unfold to_int, INT_MAX, UINT_MOD. intros Hv. rewrite Z.mod_small by lia.
  destruct (Z.leb_spec v (2 ^ 31 - 1)); [done|lia].
Qed.

Lemma to_uint_small (v : Z) : 0 ≤ v < UINT_MOD → to_uint v = v.
Proof. apply Z.mod_small. Qed.

(** The limits of a vector of values that is not empty: the front of the
    sorted vector is the least value, its back the greatest, [std::unique]
    keeps as many elements as there are distinct values; and, for values
    that [int] can hold, the value set derived through the set of [int]s
    is the strictly ascending sequence of the values. *)
Lemma limits_of_values (values : list Z) :
  values ≠ [] →
  ∃ front back,
    head (std_sort values) = Some front ∧ last (std_sort values) = Some back ∧
    (front ∈ values ∧ ∀ v, v ∈ values → front ≤ v) ∧
    (back ∈ values ∧ ∀ v, v ∈ values → v ≤ back) ∧
    length (unique_prefix (std_sort values)) = length (remove_dups values) ∧
    (Forall (λ v, 0 ≤ v ≤ INT_MAX) values →
       StronglySorted Z.lt (std_unique (to_uint <$> std_set_int (std_sort values))) ∧
       ∀ v, v ∈ std_unique (to_uint <$> std_set_int (std_sort values)) ↔ v ∈ values).
Proof.
  intros Hne.
  assert (Hsne : std_sort values ≠ []).
  { intros E. pose proof (std_sort_perm values) as Hp. rewrite E in Hp.
    by apply Permutation_nil_l in Hp. }
  destruct (proj2 (head_is_Some _) Hsne) as [front Hfront].
  destruct (proj2 (last_is_Some _) Hsne) as [back Hback].
  exists front, back. split; [done|]. split; [done|].
  destruct (sorted_front_least _ _ (std_sort_sorted values) Hfront) as [Hf1 Hf2].
  destruct (sorted_back_greatest _ _ (std_sort_sorted values) Hback) as [Hb1 Hb2].
  split; [|split; [|split]].
  - split; [by apply elem_of_std_sort|]. intros v Hv. by apply Hf2, elem_of_std_sort.
  - split; [by apply elem_of_std_sort|]. intros v Hv. by apply Hb2, elem_of_std_sort.
  - apply length_unique_prefix_std_sort.
  - intros Hsmall.
    destruct (std_set_int_spec (std_sort values)) as [Hs He].
    assert (Hid : to_int <$> std_sort values = std_sort values).
    { rewrite <- (list_fmap_id (std_sort values)) at 2. apply list_fmap_ext.
      intros i v Hv. unfold id. apply to_int_small.
      apply (proj1 (Forall_forall _ _) Hsmall), elem_of_std_sort.
      by eapply list_elem_of_lookup_2. }
    rewrite Hid in He.
    assert (Hid' : to_uint <$> std_set_int (std_sort values) = std_set_int (std_sort values)).
    { rewrite <- (list_fmap_id (std_set_int _)) at 2. apply list_fmap_ext.
      intros i v Hv. unfold id. apply to_uint_small.
      apply list_elem_of_lookup_2 in Hv.
      apply (proj1 (He v)) in Hv. apply (proj1 (elem_of_std_sort _ _)) in Hv.
      pose proof (proj1 (Forall_forall _ _) Hsmall v Hv) as Hrange. cbv beta in Hrange.
      unfold INT_MAX, UINT_MOD in *. lia. }
    rewrite Hid', (std_unique_NoDup _ (strictly_sorted_NoDup _ Hs)).
    split; [done|]. intros v. by rewrite He, elem_of_std_sort.
Qed.

(** ** Allocation and reset of the occupancy array *)

Lemma keeps_zeros_refl (a : list Z) : keeps_zeros a a.
Proof. by split. Qed.

Lemma keeps_zeros_trans (a b c : list Z) :
  keeps_zeros a b → keeps_zeros b c → keeps_zeros a c.
Proof. intros [Hl1 Hz1] [Hl2 Hz2]. split; [congruence|auto]. Qed.

(** A loop over an occupancy array of [len] cells whose every turn writes
    zeros, and zeros only: after the loop the cells named by [written] for
    the indices of the range hold zero. The parameter count [n] is not
    changed. *)
Lemma for_each_zeroes (n : Z) (len : nat) (body : Z → M unit)
    (written : Z → nat → Prop) (range : list Z) :
  (∀ i h a, i ∈ range →
     _occupancy h = Some a → length a = len → _NparameterValues h = n →
     ∃ a', body i h = Returns tt (set_occupancy (Some a') h) ∧ keeps_zeros a a' ∧
           ∀ p, written i p → a' !! p = Some 0) →
  ∀ h a, _occupancy h = Some a → length a = len → _NparameterValues h = n →
    ∃ a', for_each body range h = Returns tt (set_occupancy (Some a') h) ∧
          keeps_zeros a a' ∧
          ∀ i p, i ∈ range → written i p → a' !! p = Some 0.
Proof.
  induction range as [|i range IH]; intros Hbody h a Ha Hlen Hn.
  - exists a. split; [|split; [apply keeps_zeros_refl|]].
    + simpl. unfold mret, M_ret. by rewrite <- Ha, (set_get _ _ member_occupancy).
    + intros i p Hi. by apply elem_of_nil in Hi.
  - destruct (Hbody i h a ltac:(left) Ha Hlen Hn) as (a1 & Hrun1 & Hkeep1 & Hw1).
    destruct (IH (λ i' h' a' Hi', Hbody i' h' a' ltac:(by right))
                (set_occupancy (Some a1) h) a1 eq_refl
                ltac:(destruct Hkeep1; congruence) Hn)
      as (a2 & Hrun2 & Hkeep2 & Hw2).
    exists a2. split; [|split; [by eapply keeps_zeros_trans|]].
    + simpl. erewrite bind_Returns by exact Hrun1. cbv beta. rewrite Hrun2.
      by rewrite (set_set _ _ member_occupancy).
    + intros i' p [->|Hi']%elem_of_cons Hp; [|by eapply Hw2].
      apply Hkeep2. by apply Hw1.
Qed.

(** One assignment of the reset loop. *)
Lemma reset_cell (idx : Z) (h : Histogram) (a : list Z) :
  _occupancy h = Some a → 0 ≤ idx < Z.of_nat (length a) →
  ∃ a', (h ← get; a ← defined (store (_occupancy h) idx 0);
         modify (set_occupancy (Some a))) h
          = Returns tt (set_occupancy (Some a') h) ∧
        keeps_zeros a a' ∧ a' !! Z.to_nat idx = Some 0.
Proof.
  intros Ha Hidx. exists (<[Z.to_nat idx := 0]> a). split; [|split; [split|]].
  - unfold_monad. by rewrite Ha, store_Some.
  - by rewrite length_insert.
  - intros p Hp. destruct (decide (p = Z.to_nat idx)) as [->|Hne].
    + apply list_lookup_insert_eq. lia.
    + by rewrite list_lookup_insert_ne.
  - apply list_lookup_insert_eq. lia.
Qed.

(** The offsets of the cells are the numbers below the size of the array,
    each the offset of one cell. *)
Lemma occupancy_index_range (n i j k : Z) :
  0 ≤ i < RAW_DATA_MAX_COLUMN → 0 ≤ j < RAW_DATA_MAX_ROW → 0 ≤ k < n →
  0 ≤ occupancy_index i j k < RAW_DATA_MAX_COLUMN * RAW_DATA_MAX_ROW * n.
Proof.
  unfold occupancy_index. intros Hi Hj Hk.
  assert (0 ≤ j * RAW_DATA_MAX_COLUMN ≤ (RAW_DATA_MAX_ROW - 1) * RAW_DATA_MAX_COLUMN) by nia.
  assert (0 < RAW_DATA_MAX_COLUMN * RAW_DATA_MAX_ROW) by nia.
  assert (0 ≤ k * (RAW_DATA_MAX_COLUMN * RAW_DATA_MAX_ROW)
          ≤ (n - 1) * (RAW_DATA_MAX_COLUMN * RAW_DATA_MAX_ROW)) by nia.
  lia.
Qed.

Lemma occupancy_index_onto (n p : Z) :
  0 < RAW_DATA_MAX_COLUMN → 0 < RAW_DATA_MAX_ROW →
  0 ≤ p < RAW_DATA_MAX_COLUMN * RAW_DATA_MAX_ROW * n →
  ∃ i j k, 0 ≤ i < RAW_DATA_MAX_COLUMN ∧ 0 ≤ j < RAW_DATA_MAX_ROW ∧ 0 ≤ k < n ∧
           p = occupancy_index i j k.
Proof.
  intros Hc Hr Hp.
  exists (p mod RAW_DATA_MAX_COLUMN), ((p / RAW_DATA_MAX_COLUMN) mod RAW_DATA_MAX_ROW),
         (p / RAW_DATA_MAX_COLUMN / RAW_DATA_MAX_ROW).
  pose proof (Z.mod_pos_bound p RAW_DATA_MAX_COLUMN Hc).
  pose proof (Z.mod_pos_bound (p / RAW_DATA_MAX_COLUMN) RAW_DATA_MAX_ROW Hr).
  pose proof (Z.div_mod p RAW_DATA_MAX_COLUMN ltac:(lia)) as Hp1.
  pose proof (Z.div_mod (p / RAW_DATA_MAX_COLUMN) RAW_DATA_MAX_ROW ltac:(lia)) as Hp2.
  assert (0 ≤ p / RAW_DATA_MAX_COLUMN) by (apply Z.div_pos; lia).
  assert (0 ≤ p / RAW_DATA_MAX_COLUMN / RAW_DATA_MAX_ROW) by (apply Z.div_pos; lia).
  assert (p / RAW_DATA_MAX_COLUMN / RAW_DATA_MAX_ROW < n).
  { apply Z.div_lt_upper_bound; [lia|]. apply Z.div_lt_upper_bound; lia. }
  unfold occupancy_index. repeat split; try lia.
Qed.

(** [resetOccupancyArray] on an array of the size of the geometry and the
    parameter count fills it with zeros. *)
Lemma resetOccupancyArray_zeroes (h : Histogram) (a : list Z) :
  0 < RAW_DATA_MAX_COLUMN → 0 < RAW_DATA_MAX_ROW → 0 ≤ _NparameterValues h →
  _occupancy h = Some a →
  Z.of_nat (length a) = RAW_DATA_MAX_COLUMN * RAW_DATA_MAX_ROW * _NparameterValues h →
  resetOccupancyArray h = Returns tt (set_occupancy (Some (replicate (length a) 0)) h).
Proof.
  intros Hc Hr Hn Ha Hlen. set (n := _NparameterValues h) in *.
  destruct (for_each_zeroes n (length a)
    (λ i, for_each (λ j,
       n ← getNparameters;
       for_each (λ k,
         h ← get; a ← defined (store (_occupancy h) (occupancy_index i j k) 0);
         modify (set_occupancy (Some a))) (seqZ 0 n)) (seqZ 0 RAW_DATA_MAX_ROW))
    (λ i p, ∃ j k, 0 ≤ j < RAW_DATA_MAX_ROW ∧ 0 ≤ k < n ∧
                   p = Z.to_nat (occupancy_index i j k))
    (seqZ 0 RAW_DATA_MAX_COLUMN)) with (h := h) (a := a)
    as (a' & Hrun & [Hlen' _] & Hzero); [|done|done|done|].
  - (* a turn of the column loop *)
    intros i h1 a1 Hi%elem_of_seqZ Ha1 Hlen1 Hn1.
    destruct (for_each_zeroes n (length a)
      (λ j, n ← getNparameters;
         for_each (λ k,
           h ← get; a ← defined (store (_occupancy h) (occupancy_index i j k) 0);
           modify (set_occupancy (Some a))) (seqZ 0 n))
      (λ j p, ∃ k, 0 ≤ k < n ∧ p = Z.to_nat (occupancy_index i j k))
      (seqZ 0 RAW_DATA_MAX_ROW)) with (h := h1) (a := a1)
      as (a2 & Hrun2 & Hkeep2 & Hzero2); [|done|done|done|].
    + (* a turn of the row loop *)
      intros j h2 a2 Hj%elem_of_seqZ Ha2 Hlen2 Hn2.
      destruct (for_each_zeroes n (length a)
        (λ k, h ← get; a ← defined (store (_occupancy h) (occupancy_index i j k) 0);
              modify (set_occupancy (Some a)))
        (λ k p, p = Z.to_nat (occupancy_index i j k))
        (seqZ 0 n)) with (h := h2) (a := a2)
        as (a3 & Hrun3 & Hkeep3 & Hzero3); [|done|done|done|].
      * (* a turn of the parameter loop *)
        intros k h3 a3 Hk%elem_of_seqZ Ha3 Hlen3 Hn3.
        pose proof (occupancy_index_range n i j k ltac:(lia) ltac:(lia) ltac:(lia)).
        destruct (reset_cell (occupancy_index i j k) h3 a3 Ha3 ltac:(lia))
          as (a4 & Hrun4 & Hkeep4 & Hzero4).
        exists a4. split; [done|]. split; [done|]. by intros p ->.
      * exists a3. split; [|split; [done|]].
        -- unfold getNparameters. erewrite bind_Returns; last first.
           { erewrite bind_Returns by reflexivity. reflexivity. }
           cbv beta. by rewrite Hn2.
        -- intros p (k & Hk & ->). apply (Hzero3 k); [|done]. apply elem_of_seqZ. lia.
    + exists a2. split; [done|]. split; [done|].
      intros p (j & k & Hj & Hk & ->). apply (Hzero2 j); [apply elem_of_seqZ; lia|].
      by exists k.
  - unfold resetOccupancyArray. rewrite Hrun. do 3 f_equal.
    symmetry. apply replicate_as_Forall. split; [done|].
    apply Forall_lookup. intros p x Hx.
    assert (Hp : (p < length a')%nat) by (by eapply lookup_lt_Some).
    destruct (occupancy_index_onto n (Z.of_nat p) Hc Hr ltac:(lia))
      as (i & j & k & Hi & Hj & Hk & Hpidx).
    assert (Hz : a' !! p = Some 0).
    { apply (Hzero i); [apply elem_of_seqZ; lia|]. exists j, k. repeat split; lia. }
    congruence.
Qed.

(** [allocateOccupancyArray] followed by [resetOccupancyArray]: a zeroed
    array of one cell for every pixel and parameter index. *)
Lemma allocate_reset_occupancy (h : Histogram) :
  0 < RAW_DATA_MAX_COLUMN → 0 < RAW_DATA_MAX_ROW → 0 ≤ _NparameterValues h →
  (allocateOccupancyArray;; resetOccupancyArray) h
  = Returns tt (set_occupancy (Some (replicate
      (Z.to_nat (RAW_DATA_MAX_COLUMN * RAW_DATA_MAX_ROW * _NparameterValues h)) 0)) h).
Proof.
  intros Hc Hr Hn.
  assert (Hsize : (RAW_DATA_MAX_COLUMN - 1) + (RAW_DATA_MAX_ROW - 1) * RAW_DATA_MAX_COLUMN
                  + (_NparameterValues h - 1) * RAW_DATA_MAX_COLUMN * RAW_DATA_MAX_ROW + 1
                  = RAW_DATA_MAX_COLUMN * RAW_DATA_MAX_ROW * _NparameterValues h) by lia.
  erewrite bind_Returns; last first.
  { unfold allocateOccupancyArray, getNparameters, deleteOccupancyArray.
    unfold_monad. rewrite Hsize. reflexivity. }
  cbv beta.
  rewrite (resetOccupancyArray_zeroes _ (new_array
             (RAW_DATA_MAX_COLUMN * RAW_DATA_MAX_ROW * _NparameterValues h)));
    [|done|done|done|done|].
  - rewrite length_new_array. by rewrite !(set_set _ _ member_occupancy).
  - rewrite length_new_array. simpl. nia.
Qed.

(** ** Runs without scan parameter *)

(** [setNoScanParameter] forces the parameter count to 1 and leaves a
    zeroed occupancy array of one cell for every pixel. *)
Lemma setNoScanParameter_Returns (h : Histogram) :
  0 < RAW_DATA_MAX_COLUMN → 0 < RAW_DATA_MAX_ROW →
  setNoScanParameter h
  = Returns tt (set_occupancy
      (Some (replicate (Z.to_nat (RAW_DATA_MAX_COLUMN * RAW_DATA_MAX_ROW * 1)) 0))
      (set_NparameterValues 1 h)).
Proof.
  intros Hc Hr. unfold setNoScanParameter, deleteOccupancyArray.
  erewrite bind_Returns by reflexivity. cbv beta.
  erewrite bind_Returns by reflexivity. cbv beta.
  rewrite allocate_reset_occupancy; [|done|done|simpl; lia].
  by destruct h.
Qed.

(** An increment of a cell of the array succeeds and keeps the size of the
    array. *)
Lemma increment_Some (modulus : Z) (a : list Z) (i : Z) :
  0 ≤ i < Z.of_nat (length a) →
  ∃ a', increment modulus (Some a) i = Some a' ∧ length a' = length a.
Proof.
  intros Hi. unfold increment.
  destruct (lookup_lt_is_Some_2 a (Z.to_nat i) ltac:(lia)) as [v Hv].
  rewrite load_Some, Hv by lia. simpl. rewrite store_Some by done.
  eexists. split; [done|]. by rewrite length_insert.
Qed.

(** Without scan parameter a hit that passes the four checks is ingested. *)
Lemma addHit_no_scan_parameter (hit : HitInfo) (h : Histogram) :
  geometry_in_type → hit_in_type hit → no_scan_parameter h →
  valid_column hit → valid_row hit → valid_tot hit → valid_relativeBCID hit →
  ∃ h', addHit hit h = Returns tt h' ∧ no_scan_parameter h'.
Proof.
  intros Hgeo Htype (Hpar & Hvalues & Hn & Hocc & Hbcid & Htot) Hc Hr Ht Hb.
  pose proof Hc as Hc'. pose proof Hr as Hr'. pose proof Ht as Ht'. pose proof Hb as Hb'.
  apply (column_check hit Hgeo Htype) in Hc'. apply (row_check hit Hgeo Htype) in Hr'.
  apply (tot_check hit Htype) in Ht'. apply (relativeBCID_check hit Htype) in Hb'.
  unfold addHit. rewrite Hc', Hr', Ht', Hb'.
  assert (Hev : getEventParameter (eventNumber hit) h = Returns 0 h).
  { unfold getEventParameter. unfold_monad. by rewrite Hpar. }
  erewrite bind_Returns by exact Hev. cbv beta.
  erewrite bind_Returns by apply getParIndex_index_from. cbv beta.
  rewrite Hvalues. unfold getNparameters. unfold_monad. rewrite Hn. simpl.
  assert (Hcol : to_ushort (column hit - 1) = column hit - 1).
  { destruct Hgeo as [? _], Htype as [? _]. unfold valid_column, to_ushort, USHRT_MOD in *.
    apply Z.mod_small. lia. }
  assert (Hrow : to_uint (row hit - 1) = row hit - 1).
  { destruct Hgeo as [_ ?], Htype as (_ & ? & _).
    unfold valid_row, to_uint, UINT_MOD, INT_MAX in *. apply Z.mod_small. lia. }
  assert (Htot16 : 0 ≤ to_uint (tot hit) < 16).
  { destruct Htype as (_ & _ & ? & _). unfold valid_tot, to_uint, UINT_MOD in *.
    rewrite Z.mod_small; lia. }
  assert (Hbcid16 : 0 ≤ to_uint (relativeBCID hit) < 16).
  { destruct Htype as (_ & _ & _ & ?). unfold valid_relativeBCID, to_uint, UINT_MOD in *.
    rewrite Z.mod_small; lia. }
  rewrite Hcol, Hrow.
  pose proof (occupancy_index_range 1 (column hit - 1) (row hit - 1) 0
                ltac:(unfold valid_column in Hc; lia)
                ltac:(unfold valid_row in Hr; lia) ltac:(lia)) as Hidx.
  destruct h as [nM mE nP pI lM pV nV minV maxV occ bcid tots cO cB cT].
  simpl in *. subst pI pV nV.
  destruct cO; cbn;
    [destruct (Hocc eq_refl) as (a & -> & Hlen);
     destruct (increment_Some UINT_MOD a _ ltac:(rewrite Hlen; exact Hidx))
       as (a' & Hinca & Hlen'); rewrite Hinca; cbn|];
    (destruct cB; cbn;
       [destruct (Hbcid eq_refl) as (b & -> & Hlenb);
        destruct (increment_Some ULONG_MOD b _ ltac:(rewrite Hlenb; exact Hbcid16))
          as (b' & Hincb & Hlenb'); rewrite Hincb; cbn|]);
    (destruct cT; cbn;
       [destruct (Htot eq_refl) as (c & -> & Hlenc);
        destruct (increment_Some ULONG_MOD c _ ltac:(rewrite Hlenc; exact Htot16))
          as (c' & Hincc & Hlenc'); rewrite Hincc; cbn|]);
    (eexists; split; [reflexivity|]);
    unfold no_scan_parameter; simpl;
    repeat split; try done; intros _; eexists; (split; [reflexivity|congruence]).
Qed.

(** Without scan parameter every batch of hits that pass the four checks is
    ingested. *)
Lemma addHits_no_scan_parameter (rHitInfo : list HitInfo) (h : Histogram) :
  geometry_in_type → no_scan_parameter h →
  Forall (λ hit, hit_in_type hit ∧ valid_column hit ∧ valid_row hit ∧ valid_tot hit ∧
                 valid_relativeBCID hit) rHitInfo →
  ∃ h', addHits rHitInfo h = Returns tt h' ∧ no_scan_parameter h'.
Proof.
  intros Hgeo. revert h. induction rHitInfo as [|hit rest IH]; intros h Hh Hvalid.
  { by exists h. }
  apply Forall_cons in Hvalid as [(Htype & Hc & Hr & Ht & Hb) Hvalid].
  destruct (addHit_no_scan_parameter hit h Hgeo Htype Hh Hc Hr Ht Hb) as (h1 & Hrun1 & Hh1).
  destruct (IH h1 Hh1 Hvalid) as (h2 & Hrun2 & Hh2).
  exists h2. split; [|done]. simpl. by erewrite bind_Returns by exact Hrun1.
Qed.

(** From [setNoScanParameter] on, every batch of hits that pass the four
    checks is ingested and counted: the occupancy array sums to the number
    of hits. *)
Lemma addHits_no_scan_parameter_sum (rHitInfo : list HitInfo) (h : Histogram) :
  geometry_in_type → no_scan_parameter h → _createOccHist h = true →
  Forall (λ hit, hit_in_type hit ∧ valid_column hit ∧ valid_row hit ∧ valid_tot hit ∧
                 valid_relativeBCID hit) rHitInfo →
  Z.of_nat (length rHitInfo) < UINT_MOD →
  ∃ h1 h2,
    setNoScanParameter h = Returns tt h1 ∧
    addHits rHitInfo h1 = Returns tt h2 ∧
    occupancy_sum h2 = Z.of_nat (length rHitInfo).
Proof.
  intros Hgeo (Hpar & Hvalues & Hn & _ & Hbcid & Htot) Hocc Hvalid Hlen.
  pose proof Hgeo as [[Hc _] [Hr _]].
  eexists. rewrite (setNoScanParameter_Returns h Hc Hr).
  set (cells := Z.to_nat (RAW_DATA_MAX_COLUMN * RAW_DATA_MAX_ROW * 1)).
  set (h1 := set_occupancy _ _).
  assert (Hh1 : no_scan_parameter h1).
  { repeat split; try done. intros _. exists (replicate cells 0).
    split; [done|]. rewrite length_replicate. unfold cells. lia. }
  destruct (addHits_no_scan_parameter rHitInfo h1 Hgeo Hh1 Hvalid) as (h2 & Hrun & _).
  exists h2. split; [done|]. split; [done|].
  rewrite (addHits_occupancy rHitInfo h1 h2 Hocc Hrun).
  - unfold occupancy_sum, h1. simpl.
    assert (Hzero : ∀ k, foldr Z.add 0 (replicate k 0) = 0).
    { induction k as [|k IH]; simpl; lia. }
    rewrite Hzero. lia.
  - intros a [= <-]. apply Forall_replicate. lia.
Qed.

(** ** The parameter table and the occupancy array *)

(** [addScanParameter] with a table whose sorted values have a front and a
    back: the limits of [setParameterLimits], and a zeroed occupancy array of
    one cell for every pixel and distinct value. *)
Lemma addScanParameter_Returns (h : Histogram) (par : list ParInfo) (front back : Z) :
  0 < RAW_DATA_MAX_COLUMN → 0 < RAW_DATA_MAX_ROW →
  head (std_sort (scanParameter <$> par)) = Some front →
  last (std_sort (scanParameter <$> par)) = Some back →
  let count := Z.of_nat (length (unique_prefix (std_sort (scanParameter <$> par)))) in
  addScanParameter (Z.of_nat (length par)) (Some par) h
  = Returns tt
      (set_occupancy
         (Some (replicate (Z.to_nat (RAW_DATA_MAX_COLUMN * RAW_DATA_MAX_ROW * count)) 0))
         (set_NparameterValues count
            (set_maxParameterValue back
               (set_minParameterValue front
                  (set_parameterValues
                     (std_unique (to_uint <$> std_set_int (std_sort (scanParameter <$> par))))
                     (set_parInfo (Z.of_nat (length par)) (Some par) h)))))).
Proof.
  intros Hc Hr Hfront Hback count. unfold addScanParameter.
  erewrite bind_Returns by reflexivity. cbv beta.
  erewrite bind_Returns; last by apply (setParameterLimits_Returns _ par front back).
  cbv beta. rewrite allocate_reset_occupancy; [done|done|done|simpl; lia].
Qed.

(** What [addScanParameter] records for a table that is not empty: the
    least value as minimum, the greatest as maximum, the number of distinct
    values as count, a zeroed occupancy array of one cell for every pixel
    and distinct value; and, for values that [int] can hold, the strictly
    ascending sequence of the values as parameter value set. *)
Lemma addScanParameter_summary (h : Histogram) (par : list ParInfo) :
  0 < RAW_DATA_MAX_COLUMN → 0 < RAW_DATA_MAX_ROW → par ≠ [] →
  ∃ h', addScanParameter (Z.of_nat (length par)) (Some par) h = Returns tt h' ∧
    let values := scanParameter <$> par in
    (_minParameterValue h' ∈ values ∧ ∀ v, v ∈ values → _minParameterValue h' ≤ v) ∧
    (_maxParameterValue h' ∈ values ∧ ∀ v, v ∈ values → v ≤ _maxParameterValue h') ∧
    _NparameterValues h' = Z.of_nat (length (remove_dups values)) ∧
    _occupancy h' = Some (replicate
      (Z.to_nat (RAW_DATA_MAX_COLUMN * RAW_DATA_MAX_ROW * _NparameterValues h')) 0) ∧
    (Forall (λ v, 0 ≤ v ≤ INT_MAX) values →
       StronglySorted Z.lt (_parameterValues h') ∧
       ∀ v, v ∈ _parameterValues h' ↔ v ∈ values).
Proof.
  intros Hc Hr Hne.
  destruct (limits_of_values (scanParameter <$> par) ltac:(by destruct par))
    as (front & back & Hfront & Hback & Hmin & Hmax & Hcount & Hset).
  eexists. split; [by apply (addScanParameter_Returns h par front back)|].
  cbv zeta.
  cbn [_minParameterValue _maxParameterValue _NparameterValues _parameterValues
       _occupancy set_occupancy set_NparameterValues set_maxParameterValue
       set_minParameterValue set_parameterValues].
  rewrite Hcount. done.
Qed.

(** C6 (the code on an empty table). [addScanParameter] with an empty
    sequence of entries sets no count of 1. [setParameterLimits] reads the
    front of the empty vector of values, which is undefined; and the count
    it goes on to compute, the number of elements [std::unique] keeps of
    that vector, is 0. *)
Theorem addScanParameter_empty_table (h : Histogram) :
  addScanParameter 0 (Some []) h = Undefined ∧
  Z.of_nat (length (unique_prefix (std_sort []))) = 0.
Proof.
  split; [|done]. unfold addScanParameter.
  erewrite bind_Returns by reflexivity. cbv beta.
  apply bind_Undefined. by apply setParameterLimits_empty.
Qed.

(** * Further properties of the member functions *)

(** ** Batches *)

(** Ingesting a batch is ingesting a first part of it and then the rest: when
    the first part is ingested, the whole batch does what the rest does in
    the histogram the first part left; when the first part throws or is
    undefined, so is the whole batch, and the rest is not looked at. *)
Theorem addHits_split (pre post : list HitInfo) (h : Histogram) :
  addHits (pre ++ post) h
  = match addHits pre h with
    | Returns _ h1 => addHits post h1
    | Throws e h1 => Throws e h1
    | Undefined => Undefined
    end.
Proof.
  rewrite addHits_app. unfold mbind, M_bind.
  by destruct (addHits pre h) as [[] h1| |].
Qed.

Lemma increment_inv (modulus : Z) (p : option (list Z)) (i : Z) (a' : list Z) :
  increment modulus p i = Some a' →
  ∃ a v, p = Some a ∧ 0 ≤ i < Z.of_nat (length a) ∧ a !! Z.to_nat i = Some v ∧
         a' = <[Z.to_nat i := (v + 1) mod modulus]> a.
Proof.
  unfold increment. intros Hinc.
  destruct (load p i) as [v|] eqn:Hv; [|done]. simpl in Hinc.
  apply load_Some_inv in Hv as (a & -> & Hi & Hv).
  apply store_Some_inv in Hinc as (a0 & [= <-] & Hlen & ->).
  by exists a, v.
Qed.

Lemma counted_length (enabled : bool) (modulus : Z) (p p' : option (list Z)) (i : Z) :
  counted enabled modulus p p' i → length <$> p' = length <$> p.
Proof.
  unfold counted. destruct enabled; [|by intros ->].
  intros (a' & (a & v & -> & _ & _ & ->)%increment_inv & ->).
  simpl. by rewrite length_insert.
Qed.

(** A hit that makes [addHit] throw did so in the histogram it found, or in
    the one the scan parameter lookup left. *)
Lemma addHit_Throws_inv (hit : HitInfo) (h h' : Histogram) (e : exception) :
  addHit hit h = Throws e h' →
  h' = h ∨ ∃ v, getEventParameter (eventNumber hit) h = Returns v h'.
Proof.
  unfold addHit.
  destruct (_ <? to_ushort _); [intros [= _ <-]; by left|].
  destruct (_ <? to_uint (row hit - 1)); [intros [= _ <-]; by left|].
  destruct (_ <? to_uint (tot hit)); [intros [= _ <-]; by left|].
  destruct (_ <? to_uint (relativeBCID hit)); [intros [= _ <-]; by left|].
  unfold mbind at 1. unfold M_bind.
  pose proof (getEventParameter_outcome (eventNumber hit) h) as Hout.
  destruct (getEventParameter (eventNumber hit) h) as [v h1|e1 h1|]; [| |done].
  2:{ intros [= _ <-]. by left. }
  clear Hout. rewrite bind_Returns with (1 := getParIndex_index_from v h1).
  unfold getNparameters. unfold_monad.
  destruct (_ || _); cbn.
  { intros [= _ <-]. right. by exists v. }
  destruct (_createOccHist h1); cbn;
    [destruct (increment UINT_MOD _ _); cbn; [|done]|];
    (destruct (_createRelBCIDhist h1); cbn;
       [destruct (increment ULONG_MOD (_relBcid h1) _); cbn; [|done]|]);
    (destruct (_createTotHist h1); cbn;
       [destruct (increment ULONG_MOD (_tot h1) _); cbn; [|done]|]);
    done.
Qed.

Lemma same_configuration_refl (h : Histogram) : same_configuration h h.
Proof. unfold same_configuration. repeat split; lia. Qed.

Lemma same_configuration_trans (h1 h2 h3 : Histogram) :
  same_configuration h1 h2 → same_configuration h2 h3 → same_configuration h1 h3.
Proof.
  unfold same_configuration. intros H12 H23.
  destruct H12 as (?&?&?&?&?&?&?&?&?&?&?&?&?&?&?).
  destruct H23 as (?&?&?&?&?&?&?&?&?&?&?&?&?&?&?).
  repeat split; try congruence. lia.
Qed.

(** The scan parameter lookup keeps the configuration, whether it returns or
    throws. *)
Lemma getEventParameter_same_configuration (ev : Z) (h : Histogram) :
  match getEventParameter ev h with
  | Returns _ h' | Throws _ h' => same_configuration h h'
  | Undefined => True
  end.
Proof.
  pose proof (getEventParameter_outcome ev h) as Hout.
  destruct (getEventParameter ev h) as [v h'|e h'|]; [| |done].
  - destruct Hout as [->|(i & Hi & ->)]; [apply same_configuration_refl|].
    unfold same_configuration. simpl. repeat split; lia.
  - subst h'. apply same_configuration_refl.
Qed.

Lemma addHit_same_configuration (hit : HitInfo) (h : Histogram) :
  match addHit hit h with
  | Returns _ h' | Throws _ h' => same_configuration h h'
  | Undefined => True
  end.
Proof.
  destruct (addHit hit h) as [[] h'|e h'|] eqn:E; [| |done].
  - apply addHit_Returns_inv in E
      as (_ & _ & _ & _ & v & h1 & occ' & bcid' & tot' & Hev & _ & -> & Ho & Hb & Ht).
    pose proof (getEventParameter_same_configuration (eventNumber hit) h) as Hcfg.
    rewrite Hev in Hcfg. eapply same_configuration_trans; [exact Hcfg|].
    apply counted_length in Ho, Hb, Ht.
    unfold same_configuration. simpl. repeat split; done || lia.
  - pose proof (getEventParameter_same_configuration (eventNumber hit) h) as Hcfg.
    apply addHit_Throws_inv in E as [->|[v Hev]]; [apply same_configuration_refl|].
    by rewrite Hev in Hcfg.
Qed.

(** Ingestion never touches the configuration: whether a batch is ingested
    or aborted by a throw, the tables, the parameter value set, its limits
    and count and the three flags are what they were, every array has the
    size it had, and the cursor has not moved backward. *)
Theorem addHits_keeps_configuration (rHitInfo : list HitInfo) (h : Histogram) :
  match addHits rHitInfo h with
  | Returns _ h' | Throws _ h' => same_configuration h h'
  | Undefined => True
  end.
Proof.
  revert h. induction rHitInfo as [|hit rest IH]; intros h.
  { apply same_configuration_refl. }
  simpl. unfold mbind, M_bind.
  pose proof (addHit_same_configuration hit h) as Hhit.
  destruct (addHit hit h) as [[] h1|e h1|]; [|done..].
  specialize (IH h1).
  destruct (addHits rest h1) as [[] h2|e h2|]; [| |done];
    by eapply same_configuration_trans.
Qed.

(** A batch that throws was aborted at one hit: the hits before it were
    ingested, the hit alone throws the same exception in the histogram they
    left, and the three histograms hold exactly the counts the hits before
    left. No failing hit is counted in one histogram and not in another. *)
Theorem addHits_throw_keeps_counters (rHitInfo : list HitInfo) (h h' : Histogram)
    (e : exception) :
  addHits rHitInfo h = Throws e h' →
  ∃ pre hit post h1,
    rHitInfo = pre ++ hit :: post ∧
    addHits pre h = Returns tt h1 ∧
    addHits [hit] h1 = Throws e h' ∧
    _occupancy h' = _occupancy h1 ∧ _relBcid h' = _relBcid h1 ∧ _tot h' = _tot h1.
Proof.
  revert h. induction rHitInfo as [|hit rest IH]; intros h Hthrow; [done|].
  simpl in Hthrow. unfold mbind, M_bind in Hthrow.
  destruct (addHit hit h) as [[] h1|e1 h1|] eqn:Hhit; [| |done].
  - destruct (IH h1 Hthrow) as (pre & hit' & post & h2 & -> & Hpre & Hone & Hcounters).
    exists (hit :: pre), hit', post, h2. split; [done|]. split; [|done].
    simpl. by erewrite bind_Returns by exact Hhit.
  - injection Hthrow as -> ->.
    exists [], hit, rest, h. split; [done|]. split; [done|]. split.
    { simpl. by erewrite bind_Throws by exact Hhit. }
    apply addHit_Throws_inv in Hhit as [->|[v Hev]]; [done|].
    by apply getEventParameter_Returns_frame in Hev as [i ->].
Qed.

(** ** The counters of one hit *)

(** A hit that is ingested with occupancy enabled adds one (modulo 2^32) to
    the cell of its pixel and parameter index, the parameter index being
    what [getParIndex] returns for the scan parameter of its event, and
    leaves every other cell of the occupancy array as it was. *)
Theorem addHits_counts_occupancy_cell (hit : HitInfo) (h h' : Histogram) :
  geometry_in_type → hit_in_type hit →
  _createOccHist h = true →
  addHits [hit] h = Returns tt h' →
  ∃ a v value k h1,
    getEventParameter (eventNumber hit) h = Returns value h1 ∧
    getParIndex value h1 = Returns k h1 ∧
    _occupancy h = Some a ∧
    a !! Z.to_nat (occupancy_index (column hit - 1) (row hit - 1) k) = Some v ∧
    _occupancy h'
    = Some (<[Z.to_nat (occupancy_index (column hit - 1) (row hit - 1) k)
              := (v + 1) mod UINT_MOD]> a).
Proof.
  intros Hgeo Htype Hocc Hret.
  simpl in Hret. apply bind_Returns_inv in Hret as ([] & h2 & Hhit & [= <-]).
  apply addHit_Returns_inv in Hhit
    as (Hc & Hr & _ & _ & value & h1 & occ' & bcid' & tot' & Hev & _ & -> & Ho & _ & _).
  apply (column_check hit Hgeo Htype) in Hc. apply (row_check hit Hgeo Htype) in Hr.
  assert (Hcol : to_ushort (column hit - 1) = column hit - 1).
  { destruct Hgeo as [? _], Htype as [? _]. unfold valid_column, to_ushort, USHRT_MOD in *.
    apply Z.mod_small. lia. }
  assert (Hrow : to_uint (row hit - 1) = row hit - 1).
  { destruct Hgeo as [_ ?], Htype as (_ & ? & _).
    unfold valid_row, to_uint, UINT_MOD, INT_MAX in *. apply Z.mod_small. lia. }
  rewrite Hcol, Hrow in Ho.
  pose proof Hev as Hframe. apply getEventParameter_Returns_frame in Hframe as [i Hh1].
  assert (Hflag : _createOccHist h1 = true) by (by subst h1).
  assert (Harr : _occupancy h1 = _occupancy h) by (by subst h1).
  rewrite Hflag, Harr in Ho. destruct Ho as (a' & Hinc & ->).
  apply increment_inv in Hinc as (a & v & Ha & _ & Hv & ->).
  exists a, v, value, (default 0 (index_from 0 (_parameterValues h1) value)), h1.
  split; [done|]. split; [apply getParIndex_index_from|]. by repeat split.
Qed.

Lemma addHit_disabled (hit : HitInfo) (h : Histogram) :
  match addHit hit h with
  | Returns _ h' | Throws _ h' =>
      (_createOccHist h = false → _occupancy h' = _occupancy h) ∧
      (_createRelBCIDhist h = false → _relBcid h' = _relBcid h) ∧
      (_createTotHist h = false → _tot h' = _tot h)
  | Undefined => True
  end.
Proof.
  destruct (addHit hit h) as [[] h'|e h'|] eqn:E; [| |done].
  - apply addHit_Returns_inv in E
      as (_ & _ & _ & _ & v & h1 & occ' & bcid' & tot' & Hev & _ & -> & Ho & Hb & Ht).
    apply getEventParameter_Returns_frame in Hev as [i ->]. cbn in *.
    unfold counted in *.
    repeat split; intros Hflag; rewrite Hflag in *; done.
  - apply addHit_Throws_inv in E as [->|[v Hev]]; [done|].
    by apply getEventParameter_Returns_frame in Hev as [i ->].
Qed.

(** A histogram that is not enabled is never written: whether a batch is
    ingested or aborted by a throw, the occupancy array, the relative-BCID
    histogram and the ToT histogram whose flag is off are what they were. *)
Theorem addHits_disabled_histograms_untouched (rHitInfo : list HitInfo) (h : Histogram) :
  match addHits rHitInfo h with
  | Returns _ h' | Throws _ h' =>
      (_createOccHist h = false → _occupancy h' = _occupancy h) ∧
      (_createRelBCIDhist h = false → _relBcid h' = _relBcid h) ∧
      (_createTotHist h = false → _tot h' = _tot h)
  | Undefined => True
  end.
Proof.
  revert h. induction rHitInfo as [|hit rest IH]; intros h; [done|].
  simpl. unfold mbind, M_bind.
  pose proof (addHit_disabled hit h) as Hhit.
  pose proof (addHit_same_configuration hit h) as Hcfg.
  destruct (addHit hit h) as [[] h1|e h1|]; [|done..].
  specialize (IH h1).
  destruct Hcfg as (_ & _ & _ & _ & _ & _ & _ & _ & Hfo & Hfb & Hft & _).
  destruct Hhit as (Ho & Hb & Ht).
  destruct (addHits rest h1) as [[] h2|e h2|]; [| |done];
    destruct IH as (Ho' & Hb' & Ht');
    (split; [|split]); intros Hflag;
    [rewrite Ho', Ho|rewrite Hb', Hb|rewrite Ht', Ht|
     rewrite Ho', Ho|rewrite Hb', Hb|rewrite Ht', Ht]; congruence.
Qed.

(** ** More on the correlation of event numbers with scan parameters *)

(** A scan that returns from inside the loop does so in the turn of one
    index of its range. *)
Lemma getEventParameter_scan_Some_inv (ev v : Z) (range : list Z) (h h' : Histogram) :
  for_first (getEventParameter_body ev) range h = Returns (Some v) h' →
  ∃ i, i ∈ range ∧ getEventParameter_body ev i h = Returns (Some v) h'.
Proof.
  induction range as [|i range IH]; [done|].
  simpl. unfold mbind, M_bind.
  pose proof (getEventParameter_body_outcome ev i h) as Hbody.
  destruct (getEventParameter_body ev i h) as [[w|] h1| |] eqn:E; [| |done..].
  - intros [= -> ->]. exists i. split; [left|done].
  - subst h1. intros (j & Hj & Hrun)%IH. exists j. split; [by right|done].
Qed.

(** A scan that reaches the end of its range changed nothing. *)
Lemma getEventParameter_scan_None_frame (ev : Z) (range : list Z) (h h' : Histogram) :
  for_first (getEventParameter_body ev) range h = Returns None h' → h' = h.
Proof.
  induction range as [|i range IH]; [by intros [= <-]|].
  simpl. unfold mbind, M_bind.
  pose proof (getEventParameter_body_outcome ev i h) as Hbody.
  destruct (getEventParameter_body ev i h) as [[w|] h1| |]; [done| |done..].
  subst h1. apply IH.
Qed.

(** The turn that returned returns the same again once the cursor stands at
    its index. *)
Lemma getEventParameter_body_again (ev i v : Z) (h h' : Histogram) :
  getEventParameter_body ev i h = Returns (Some v) h' →
  h' = set_lastMetaEventIndex i h ∧
  getEventParameter_body ev i (set_lastMetaEventIndex i h)
    = Returns (Some v) (set_lastMetaEventIndex i h).
Proof.
  unfold getEventParameter_body. unfold_monad. cbn [_metaEventIndex _parInfo set_lastMetaEventIndex].
  destruct (load (_metaEventIndex h) (i + 1)) as [next|]; [|done].
  destruct (ev <? next).
  - destruct (load (_parInfo h) i); [|done]. by intros [= <- <-].
  - destruct (load (_metaEventIndex h) i) as [cur|]; [|done].
    destruct (next <? cur); [|done].
    destruct (load (_parInfo h) i); [|done]. by intros [= <- <-].
Qed.

(** Looking the same event number up again gives the same scan parameter
    and changes nothing: the first lookup left the cursor where the second
    one finds its pair at once. *)
Theorem getEventParameter_idempotent (ev v : Z) (h h1 : Histogram) :
  getEventParameter ev h = Returns v h1 →
  getEventParameter ev h1 = Returns v h1.
Proof.
  intros Hfirst. pose proof Hfirst as Hrun.
  unfold getEventParameter in Hrun. unfold mbind at 1 in Hrun. unfold M_bind, get in Hrun.
  destruct (_parInfo h) as [par|] eqn:Hpar; [|by injection Hrun as <- <-].
  apply bind_Returns_inv in Hrun as (r & h2 & Hscan & Hrest).
  destruct r as [w|].
  - injection Hrest as -> ->.
    apply getEventParameter_scan_Some_inv in Hscan as (i & Hi%elem_of_seqZ & Hbody).
    apply getEventParameter_body_again in Hbody as [-> Hagain].
    unfold getEventParameter. erewrite bind_Returns by reflexivity.
    cbn [_parInfo _nMetaEventIndexLength _lastMetaEventIndex set_lastMetaEventIndex].
    rewrite Hpar. rewrite seqZ_cons by lia. simpl for_first.
    erewrite bind_Returns; last by (erewrite bind_Returns by exact Hagain).
    done.
  - apply getEventParameter_scan_None_frame in Hscan as ->.
    assert (h1 = h) as ->; [|done].
    unfold_monad_in Hrest.
    destruct (load (_metaEventIndex h) _) as [boundary|]; [|done].
    destruct (boundary <=? ev); [|done].
    destruct (load (_parInfo h) _); [|done]. by injection Hrest as _ <-.
Qed.

(** The one exception of the lookup is the correlation error, thrown in an
    unchanged histogram with the event number, the boundary of the last
    entry, which lies above the event number, and the cursor. *)
Lemma getEventParameter_Throws_inv (ev : Z) (h h' : Histogram) (e : exception) :
  getEventParameter ev h = Throws e h' →
  h' = h ∧ ∃ boundary, ev < boundary ∧
    e = CorrelationError ev boundary (_lastMetaEventIndex h).
Proof.
  intros Hrun. pose proof (getEventParameter_outcome ev h) as Hout.
  rewrite Hrun in Hout. subst h'. split; [done|].
  unfold getEventParameter in Hrun. unfold mbind at 1 in Hrun. unfold M_bind, get in Hrun.
  destruct (_parInfo h) as [par|] eqn:Hpar; [|done].
  unfold_monad_in Hrun.
  pose proof (getEventParameter_scan_outcome ev (_lastMetaEventIndex h)
    (seqZ (_lastMetaEventIndex h)
       (to_uint (_nMetaEventIndexLength h - 1) - _lastMetaEventIndex h)) h) as Hscan.
  specialize (Hscan ltac:(apply Forall_seqZ; lia)).
  destruct (for_first _ _ h) as [[w|] h2| |]; try discriminate Hrun; [|done].
  subst h2.
  destruct (load (_metaEventIndex h) _) as [boundary|]; [|done].
  destruct (Z.leb_spec boundary ev).
  - rewrite Hpar in Hrun. by destruct (load (Some par) _).
  - injection Hrun as <-. by exists boundary.
Qed.

Lemma stops_at_dec (meta : list Z) (ev j : Z) :
  0 ≤ j → j + 1 < Z.of_nat (length meta) →
  stops_at meta ev j ∨ ¬ stops_at meta ev j.
Proof.
  intros Hj Hlen.
  destruct (lookup_lt_is_Some_2 meta (Z.to_nat j) ltac:(lia)) as [cur Hcur].
  destruct (lookup_lt_is_Some_2 meta (Z.to_nat (j + 1)) ltac:(lia)) as [next Hnext].
  rewrite <- load_Some in Hcur, Hnext by lia.
  destruct (Z.lt_ge_cases ev next); [left; exists cur, next; auto|].
  destruct (Z.lt_ge_cases next cur); [left; exists cur, next; auto|].
  right. intros (cur' & next' & Hcur' & Hnext' & Hstop).
  rewrite Hcur in Hcur'. rewrite Hnext in Hnext'.
  injection Hcur' as <-. injection Hnext' as <-. lia.
Qed.

(** Among the pairs from [c] on, none stops the scan or there is a first
    one that does. *)
Lemma first_stop_or_none (meta : list Z) (ev : Z) (len : nat) (c : Z) :
  0 ≤ c → c + Z.of_nat len < Z.of_nat (length meta) →
  (∀ j, c ≤ j < c + Z.of_nat len → ¬ stops_at meta ev j) ∨
  ∃ k : nat, (k < len)%nat ∧ stops_at meta ev (c + Z.of_nat k) ∧
             ∀ j, c ≤ j < c + Z.of_nat k → ¬ stops_at meta ev j.
Proof.
  revert c. induction len as [|len IH]; intros c Hc Hlen.
  { left. intros j Hj. lia. }
  destruct (stops_at_dec meta ev c Hc ltac:(lia)) as [Hstop|Hgo].
  { right. exists 0%nat. rewrite Z.add_0_r. split; [lia|]. split; [done|]. intros j Hj. lia. }
  destruct (IH (c + 1) ltac:(lia) ltac:(lia)) as [Hnone|(k & Hk & Hstop & Hfirst)].
  - left. intros j Hj. destruct (decide (j = c)) as [->|Hne]; [done|]. apply Hnone. lia.
  - right. exists (S k). split; [lia|].
    replace (c + Z.of_nat (S k)) with (c + 1 + Z.of_nat k) by lia. split; [done|].
    intros j Hj. destruct (decide (j = c)) as [->|Hne]; [done|]. apply Hfirst. lia.
Qed.

(** With boundaries that do not decrease and a cursor whose boundary is at
    most the event number, the lookup returns the scan parameter of the
    entry whose range of events holds the event number: its boundary is at
    most the event number, and it is the last entry or the next boundary
    lies above the event number. No correlation error is thrown, and the
    cursor is left at an entry whose boundary is at most the event number,
    so the same holds for every later event number that is not smaller. *)
Theorem getEventParameter_ascending_table (ev : Z) (h : Histogram)
    (meta : list Z) (par : list ParInfo) :
  tables_loaded h meta par →
  boundaries_ascend meta (_nMetaEventIndexLength h) →
  _lastMetaEventIndex h ≤ _nMetaEventIndexLength h - 1 →
  (∀ b, load (Some meta) (_lastMetaEventIndex h) = Some b → b ≤ ev) →
  ∃ i b p h',
    getEventParameter ev h = Returns (scanParameter p) h' ∧
    _lastMetaEventIndex h ≤ i ≤ _nMetaEventIndexLength h - 1 ∧
    load (Some par) i = Some p ∧
    load (Some meta) i = Some b ∧ b ≤ ev ∧
    (i = _nMetaEventIndexLength h - 1 ∨
     ∃ next, load (Some meta) (i + 1) = Some next ∧ ev < next) ∧
    (h' = h ∨ h' = set_lastMetaEventIndex i h) ∧
    ∃ b', load (Some meta) (_lastMetaEventIndex h') = Some b' ∧ b' ≤ ev.
Proof.
  intros (Hmeta & Hpar & Hn & Hlmeta & Hlpar & Hc) Hasc Hcur Hinv.
  set (cursor := _lastMetaEventIndex h) in *.
  set (last := _nMetaEventIndexLength h - 1) in *.
  assert (Hlast : to_uint (_nMetaEventIndexLength h - 1) = last).
  { unfold to_uint, UINT_MOD in *. apply Z.mod_small. lia. }
  assert (Hload : ∀ j, 0 ≤ j ≤ last → ∃ b, load (Some meta) j = Some b).
  { intros j Hj. rewrite load_Some by lia. apply lookup_lt_is_Some_2. lia. }
  assert (Hloadp : ∀ j, 0 ≤ j ≤ last → ∃ p, load (Some par) j = Some p).
  { intros j Hj. rewrite load_Some by lia. apply lookup_lt_is_Some_2. lia. }
  (* the boundary of an entry behind pairs that do not stop the scan *)
  assert (Hbelow : ∀ i, cursor ≤ i ≤ last →
            (∀ j, cursor ≤ j < i → ¬ stops_at meta ev j) →
            ∃ b, load (Some meta) i = Some b ∧ b ≤ ev).
  { intros i Hi Hgo. destruct (Hload i ltac:(lia)) as [b Hb]. exists b. split; [done|].
    destruct (decide (i = cursor)) as [->|Hne]; [by apply Hinv|].
    destruct (Hload (i - 1) ltac:(lia)) as [b0 Hb0].
    destruct (Z.le_gt_cases b ev) as [|Hgt]; [done|].
    destruct (Hgo (i - 1) ltac:(lia)). exists b0, b.
    replace (i - 1 + 1) with i by lia. auto. }
  destruct (first_stop_or_none meta ev (Z.to_nat (last - cursor)) cursor Hc ltac:(lia))
    as [Hnone|(k & Hk & Hstop & Hfirst)].
  - (* no pair stops the scan: the last entry *)
    assert (Hgo : ∀ j, cursor ≤ j < last → ¬ stops_at meta ev j).
    { intros j Hj. apply Hnone. lia. }
    destruct (Hbelow last ltac:(lia) Hgo) as (b & Hb & Hbev).
    destruct (Hloadp last ltac:(lia)) as [p Hp].
    destruct (Hbelow cursor ltac:(lia) ltac:(intros; lia)) as (b' & Hb' & Hbev').
    exists last, b, p, h. split; [|repeat split; try done; try lia; eauto].
    unfold getEventParameter. erewrite bind_Returns by reflexivity.
    rewrite Hpar, Hlast. fold cursor. erewrite bind_Returns; last first.
    { destruct (Z.le_gt_cases (last - cursor) 0) as [Hle|Hgt].
      - by rewrite seqZ_nil.
      - replace (last - cursor) with (Z.of_nat (Z.to_nat (last - cursor))) by lia.
        apply (getEventParameter_scan_end ev h meta); [done|done|lia|].
        intros j Hj. apply Hgo. lia. }
    unfold_monad. rewrite Hmeta, Hb, Hpar, Hp.
    destruct (Z.leb_spec b ev); [done|lia].
  - (* the first pair that stops the scan *)
    set (i := cursor + Z.of_nat k) in *.
    destruct (Hbelow i ltac:(lia) Hfirst) as (b & Hb & Hbev).
    destruct (Hloadp i ltac:(lia)) as [p Hp].
    exists i, b, p, (set_lastMetaEventIndex i h).
    split; [|repeat split; try done; try lia].
    + unfold getEventParameter. erewrite bind_Returns by reflexivity.
      rewrite Hpar, Hlast. fold cursor. erewrite bind_Returns; last first.
      { apply (getEventParameter_scan_stops ev h meta par p k cursor);
          [done|done|done|lia|lia|done|done|done]. }
      done.
    + right. destruct Hstop as (cur & next & Hcur' & Hnext & [Hlt|Hdesc]).
      * by exists next.
      * specialize (Hasc i cur next ltac:(lia) ltac:(lia) Hcur' Hnext). lia.
    + by right.
    + simpl. by exists b.
Qed.

(** The lookup only looks forward from the cursor. With boundaries that do
    not decrease, an event number below the boundary at the cursor, which
    belongs to an earlier entry when there is one, is given the scan
    parameter of the entry at the cursor when that is not the last entry,
    and is a correlation error when it is the last: hits have to come in
    the order of their event numbers. *)
Theorem getEventParameter_event_behind_cursor (ev b : Z) (h : Histogram)
    (meta : list Z) (par : list ParInfo) :
  tables_loaded h meta par →
  boundaries_ascend meta (_nMetaEventIndexLength h) →
  _lastMetaEventIndex h ≤ _nMetaEventIndexLength h - 1 →
  load (Some meta) (_lastMetaEventIndex h) = Some b → ev < b →
  (_lastMetaEventIndex h < _nMetaEventIndexLength h - 1 →
   ∃ p, load (Some par) (_lastMetaEventIndex h) = Some p ∧
        getEventParameter ev h = Returns (scanParameter p) h) ∧
  (_lastMetaEventIndex h = _nMetaEventIndexLength h - 1 →
   getEventParameter ev h = Throws (CorrelationError ev b (_lastMetaEventIndex h)) h).
Proof.
  intros (Hmeta & Hpar & Hn & Hlmeta & Hlpar & Hc) Hasc Hcur Hb Hev.
  set (cursor := _lastMetaEventIndex h) in *.
  set (last := _nMetaEventIndexLength h - 1) in *.
  assert (Hlast : to_uint (_nMetaEventIndexLength h - 1) = last).
  { unfold to_uint, UINT_MOD in *. apply Z.mod_small. lia. }
  split.
  - intros Hlt.
    destruct (lookup_lt_is_Some_2 meta (Z.to_nat (cursor + 1)) ltac:(lia)) as [next Hnext].
    destruct (lookup_lt_is_Some_2 par (Z.to_nat cursor) ltac:(lia)) as [p Hp].
    rewrite <- load_Some in Hnext by lia. rewrite <- load_Some in Hp by lia.
    pose proof (Hasc cursor b next Hc ltac:(lia) Hb Hnext) as Hle.
    exists p. split; [done|].
    unfold getEventParameter. erewrite bind_Returns by reflexivity.
    rewrite Hpar, Hlast. fold cursor. erewrite bind_Returns; last first.
    { apply (getEventParameter_scan_stops ev h meta par p 0 cursor);
        rewrite ?Z.add_0_r; [done|done|done|lia|lia|intros; lia| |done].
      exists b, next. split; [done|]. split; [done|]. left. lia. }
    cbv beta. rewrite Z.add_0_r. unfold cursor. by destruct h.
  - intros Heq.
    unfold getEventParameter. erewrite bind_Returns by reflexivity.
    rewrite Hpar, Hlast. fold cursor. rewrite Heq, Z.sub_diag. simpl for_first.
    unfold_monad. rewrite Hmeta. rewrite <- Heq, Hb.
    destruct (Z.leb_spec b ev); [lia|done].
Qed.

(** ** The errors of the parameter lookup in a batch *)

(** After the hits before it are ingested, a hit that passes the four
    checks still aborts the batch when its event number cannot be
    correlated (correlation error, 23) or when the index of its scan
    parameter lies above the parameter count minus one (22). In both cases
    the three histograms hold the counts the hits before left; the
    correlation error leaves the whole histogram as it was. *)
Theorem addHits_parameter_errors_abort (pre post : list HitInfo) (hit : HitInfo)
    (h h1 : Histogram) :
  geometry_in_type → hit_in_type hit →
  valid_column hit → valid_row hit → valid_tot hit → valid_relativeBCID hit →
  addHits pre h = Returns tt h1 →
  (∀ e h2, getEventParameter (eventNumber hit) h1 = Throws e h2 →
     addHits (pre ++ hit :: post) h = Throws e h1 ∧ thrown_value e = 23) ∧
  (∀ v h2 k,
     getEventParameter (eventNumber hit) h1 = Returns v h2 →
     getParIndex v h2 = Returns k h2 →
     to_uint (_NparameterValues h2 - 1) < k →
     addHits (pre ++ hit :: post) h
       = Throws (ParameterIndexOutOfRange k (_minParameterValue h2) (_maxParameterValue h2)) h2 ∧
     _occupancy h2 = _occupancy h1 ∧ _relBcid h2 = _relBcid h1 ∧ _tot h2 = _tot h1).
Proof.
  intros Hgeo Htype Hc Hr Ht Hb Hpre.
  apply (column_check hit Hgeo Htype) in Hc. apply (row_check hit Hgeo Htype) in Hr.
  apply (tot_check hit Htype) in Ht. apply (relativeBCID_check hit Htype) in Hb.
  assert (Hstep : addHits (pre ++ hit :: post) h = (addHit hit;; addHits post) h1).
  { rewrite addHits_app. by erewrite bind_Returns by exact Hpre. }
  rewrite Hstep. clear Hstep. split.
  - intros e h2 Hthrow.
    destruct (getEventParameter_Throws_inv _ _ _ _ Hthrow) as (-> & boundary & _ & ->).
    split; [|done]. apply bind_Throws. unfold addHit. rewrite Hc, Hr, Ht, Hb.
    by apply bind_Throws.
  - intros v h2 k Hev Hidx Hk. split.
    + apply bind_Throws. unfold addHit. rewrite Hc, Hr, Ht, Hb.
      erewrite bind_Returns by exact Hev. cbv beta.
      erewrite bind_Returns by exact Hidx. cbv beta.
      unfold getNparameters. unfold_monad.
      destruct (Z.ltb_spec (to_uint (_NparameterValues h2 - 1)) k); [|lia].
      by rewrite orb_true_r.
    + by apply getEventParameter_Returns_frame in Hev as [i ->].
Qed.

(** ** The parameter table that [addScanParameter] installs *)

(** A strictly ascending list of integers between [a] and [b] has at most
    [b - a + 1] elements. *)
Lemma strictly_sorted_length (l : list Z) (a b : Z) :
  StronglySorted Z.lt l → Forall (λ v, a ≤ v ≤ b) l →
  Z.of_nat (length l) ≤ Z.max 0 (b - a + 1).
Proof.
  intros Hsorted. revert a. induction Hsorted as [|x l Hl IH Hx]; intros a Hrange.
  - simpl. lia.
  - apply Forall_cons in Hrange as [Hxr Hrange].
    assert (Hup : Forall (λ v, x + 1 ≤ v ≤ b) l).
    { rewrite Forall_forall in *. intros v Hv. specialize (Hx v Hv).
      specialize (Hrange v Hv). simpl in *. lia. }
    specialize (IH (x + 1) Hup). simpl length. lia.
Qed.

(** In a strictly ascending list a later element is larger. *)
Lemma strictly_sorted_lookup (l : list Z) (i j : nat) (x y : Z) :
  StronglySorted Z.lt l → l !! i = Some x → l !! j = Some y → (i < j)%nat → x < y.
Proof.
  intros Hsorted. revert i j. induction Hsorted as [|z l Hl IH Hz]; intros i j Hi Hj Hij.
  - done.
  - destruct j as [|j]; [lia|]. destruct i as [|i].
    + injection Hi as ->. simpl in Hj. rewrite Forall_forall in Hz.
      apply Hz. by eapply list_elem_of_lookup_2.
    + simpl in Hi, Hj. apply (IH i j); [done|done|lia].
Qed.

(** In a list without duplicates an element is first found where it is. *)
Lemma NoDup_first_match (values : list Z) (v : Z) (k : nat) :
  NoDup values → values !! k = Some v → first_match values v k.
Proof.
  intros Hnd Hk. split; [done|]. intros j Hj Hv.
  pose proof (NoDup_lookup _ _ _ _ Hnd Hv Hk). lia.
Qed.

(** The histogram [addScanParameter] leaves for a table of values up to the
    largest [int]: the value set is strictly ascending, holds the values of
    the table, and has as many elements as the recorded count, which is at
    least 1 and at most 2^31. *)
Lemma addScanParameter_value_set (h h' : Histogram) (par : list ParInfo) :
  0 < RAW_DATA_MAX_COLUMN → 0 < RAW_DATA_MAX_ROW → par ≠ [] →
  Forall (λ v, 0 ≤ v ≤ INT_MAX) (scanParameter <$> par) →
  addScanParameter (Z.of_nat (length par)) (Some par) h = Returns tt h' →
  StronglySorted Z.lt (_parameterValues h') ∧
  (∀ v, v ∈ _parameterValues h' ↔ v ∈ scanParameter <$> par) ∧
  _NparameterValues h' = Z.of_nat (length (_parameterValues h')) ∧
  1 ≤ _NparameterValues h' ≤ INT_MAX + 1.
Proof.
  intros HC HR Hpar Hrange Hrun.
  assert (Hvalues : scanParameter <$> par ≠ []) by by destruct par.
  destruct (limits_of_values _ Hvalues)
    as (front & back & Hfront & Hback & _ & _ & Hcount & Hset).
  destruct (Hset Hrange) as [Hsorted Helem].
  rewrite (addScanParameter_Returns h par front back HC HR Hfront Hback) in Hrun.
  injection Hrun as <-.
  cbn [_parameterValues _NparameterValues set_occupancy set_NparameterValues
       set_maxParameterValue set_minParameterValue set_parameterValues].
  set (values := std_unique _) in *.
  assert (Hlen : length values = length (remove_dups (scanParameter <$> par))).
  { apply Permutation_length, NoDup_Permutation.
    - by apply strictly_sorted_NoDup.
    - apply NoDup_remove_dups.
    - intros v. rewrite Helem. by rewrite elem_of_remove_dups. }
  split; [done|]. split; [done|]. split; [by rewrite Hcount, Hlen|].
  rewrite Hcount, <- Hlen. split.
  - destruct values as [|v values'] eqn:E; [|simpl; lia].
    destruct par as [|p par']; [done|].
    assert (scanParameter p ∈ @nil Z) as Hin%elem_of_nil; [|done].
    apply Helem. simpl. left.
  - assert (Hbound : Forall (λ v, 0 ≤ v ≤ INT_MAX) values).
    { rewrite Forall_forall in *. intros v Hv. apply Hrange. by apply Helem. }
    pose proof (strictly_sorted_length values 0 INT_MAX Hsorted Hbound).
    unfold INT_MAX in *. lia.
Qed.

(** [addScanParameter] with a table that has an entry returns. It stores the
    table, records the least of its values as minimum, the greatest as
    maximum and the number of distinct values as count, and replaces the
    occupancy array by one of columns x rows x count zeros, whatever the
    old one held. The event index, the correlation cursor, the ToT and
    relative-BCID histograms and the three flags are as before: the cursor
    is not set back for the new table. *)
Theorem addScanParameter_installs_table (h : Histogram) (par : list ParInfo) :
  0 < RAW_DATA_MAX_COLUMN → 0 < RAW_DATA_MAX_ROW → par ≠ [] →
  ∃ h', addScanParameter (Z.of_nat (length par)) (Some par) h = Returns tt h' ∧
    let values := scanParameter <$> par in
    _parInfo h' = Some par ∧ _nParInfoLength h' = Z.of_nat (length par) ∧
    (_minParameterValue h' ∈ values ∧ ∀ v, v ∈ values → _minParameterValue h' ≤ v) ∧
    (_maxParameterValue h' ∈ values ∧ ∀ v, v ∈ values → v ≤ _maxParameterValue h') ∧
    _NparameterValues h' = Z.of_nat (length (remove_dups values)) ∧
    _occupancy h' = Some (replicate
      (Z.to_nat (RAW_DATA_MAX_COLUMN * RAW_DATA_MAX_ROW * _NparameterValues h')) 0) ∧
    _lastMetaEventIndex h' = _lastMetaEventIndex h ∧
    _metaEventIndex h' = _metaEventIndex h ∧
    _nMetaEventIndexLength h' = _nMetaEventIndexLength h ∧
    _tot h' = _tot h ∧ _relBcid h' = _relBcid h ∧
    _createOccHist h' = _createOccHist h ∧
    _createRelBCIDhist h' = _createRelBCIDhist h ∧
    _createTotHist h' = _createTotHist h.
Proof.
  intros HC HR Hpar.
  assert (Hvalues : scanParameter <$> par ≠ []) by by destruct par.
  destruct (limits_of_values _ Hvalues)
    as (front & back & Hfront & Hback & Hmin & Hmax & Hcount & _).
  eexists. split; [by apply (addScanParameter_Returns h par front back)|].
  cbv zeta. cbn. rewrite Hcount. by destruct h.
Qed.

(** After [addScanParameter] with a table of values up to the largest
    [int], every value of the table has a parameter index: [getParIndex]
    returns the position of the value in the value set, which lies between
    0 and the count minus one, so the range check of [addHits] passes for
    it. The index follows the order of the values: a larger value has a
    larger index. *)
Theorem addScanParameter_parameter_indices (h h' : Histogram) (par : list ParInfo) :
  0 < RAW_DATA_MAX_COLUMN → 0 < RAW_DATA_MAX_ROW → par ≠ [] →
  Forall (λ v, 0 ≤ v ≤ INT_MAX) (scanParameter <$> par) →
  addScanParameter (Z.of_nat (length par)) (Some par) h = Returns tt h' →
  (∀ p, p ∈ par →
     ∃ k, getParIndex (scanParameter p) h' = Returns k h' ∧
          0 ≤ k ≤ to_uint (_NparameterValues h' - 1) ∧
          _parameterValues h' !! Z.to_nat k = Some (scanParameter p)) ∧
  (∀ p q k l, p ∈ par → q ∈ par →
     getParIndex (scanParameter p) h' = Returns k h' →
     getParIndex (scanParameter q) h' = Returns l h' →
     (scanParameter p < scanParameter q ↔ k < l)).
Proof.
  intros HC HR Hpar Hrange Hrun.
  destruct (addScanParameter_value_set h h' par HC HR Hpar Hrange Hrun)
    as (Hsorted & Helem & Hcount & Hn).
  assert (Hindex : ∀ p, p ∈ par →
            ∃ k : nat, _parameterValues h' !! k = Some (scanParameter p) ∧
                       getParIndex (scanParameter p) h' = Returns (Z.of_nat k) h').
  { intros p Hp.
    assert (Hv : scanParameter p ∈ _parameterValues h').
    { apply Helem. by apply list_elem_of_fmap_2. }
    apply list_elem_of_lookup_1 in Hv as [k Hk]. exists k. split; [done|].
    rewrite getParIndex_index_from.
    rewrite (index_from_first_match 0 _ _ k); [done|].
    apply NoDup_first_match; [by apply strictly_sorted_NoDup|done]. }
  split.
  - intros p Hp. destruct (Hindex p Hp) as (k & Hk & Hget).
    exists (Z.of_nat k). split; [done|]. rewrite Nat2Z.id. split; [|done].
    apply lookup_lt_Some in Hk.
    rewrite to_uint_small by (unfold UINT_MOD, INT_MAX in *; lia). lia.
  - intros p q k l Hp Hq Hk Hl.
    destruct (Hindex p Hp) as (k' & Hk' & Hgetk). rewrite Hgetk in Hk. injection Hk as <-.
    destruct (Hindex q Hq) as (l' & Hl' & Hgetl). rewrite Hgetl in Hl. injection Hl as <-.
    split.
    + intros Hlt. destruct (Nat.lt_trichotomy k' l') as [?|[->|Hgt]]; [lia| |].
      * rewrite Hk' in Hl'. injection Hl' as Heq. lia.
      * pose proof (strictly_sorted_lookup _ _ _ _ _ Hsorted Hl' Hk' Hgt). lia.
    + intros Hlt. apply (strictly_sorted_lookup _ k' l' _ _ Hsorted Hk' Hl'). lia.
Qed.

(** ** What the histograms hold after a batch *)

Lemma hits_with_nil (key : HitInfo → Z) (t : Z) : hits_with key t [] = 0.
Proof. done. Qed.

Lemma hits_with_cons (key : HitInfo → Z) (t : Z) (hit : HitInfo) (rest : list HitInfo) :
  hits_with key t (hit :: rest)
  = (if decide (key hit = t) then 1 else 0) + hits_with key t rest.
Proof.
  unfold hits_with. rewrite filter_cons. destruct (decide (key hit = t)); simpl length; lia.
Qed.

(** Two keys that agree on the hits of a batch count the same. *)
Lemma hits_with_ext (key : HitInfo → Z) (t : Z) (P : HitInfo → Prop)
    `{!∀ hit, Decision (P hit)} (rHitInfo : list HitInfo) :
  Forall (λ hit, key hit = t ↔ P hit) rHitInfo →
  hits_with key t rHitInfo = Z.of_nat (length (filter P rHitInfo)).
Proof.
  induction 1 as [|hit rest Hhit _ IH]; [done|].
  rewrite hits_with_cons, IH, filter_cons.
  destruct (decide (key hit = t)), (decide (P hit)); simpl length; tauto || lia.
Qed.

(** A histogram whose every ingested hit counts one at the cell [key hit]
    holds, after a batch, in every cell what it held before plus the number
    of hits of the batch with that cell, modulo the range of the counter. *)
Lemma addHits_counts_bins (I : Histogram → Prop) (Q : HitInfo → Prop) (modulus : Z)
    (getp : Histogram → option (list Z)) (key : HitInfo → Z) :
  0 < modulus →
  (∀ hit h h', I h → Q hit → addHit hit h = Returns tt h' →
     I h' ∧ ∃ a1, increment modulus (getp h) (key hit) = Some a1 ∧ getp h' = Some a1) →
  ∀ rHitInfo h h' a,
    I h → Forall Q rHitInfo → addHits rHitInfo h = Returns tt h' →
    getp h = Some a → Forall (λ c, 0 ≤ c < modulus) a →
    ∃ a', getp h' = Some a' ∧ length a' = length a ∧
      ∀ t, 0 ≤ t →
        load (Some a') t
        = (λ c, (c + hits_with key t rHitInfo) mod modulus) <$> load (Some a) t.
Proof.
  intros Hmod Hstep rHitInfo.
  induction rHitInfo as [|hit rest IH]; intros h h' a Hh Hhits Hrun Ha Hcells.
  - injection Hrun as <-. exists a. split; [done|]. split; [done|].
    intros t Ht. rewrite load_Some by done.
    destruct (a !! Z.to_nat t) as [c|] eqn:Hc; [|done]. simpl. f_equal.
    rewrite Forall_lookup in Hcells. specialize (Hcells _ _ Hc). simpl in Hcells.
    rewrite hits_with_nil, Z.add_0_r. by rewrite Z.mod_small.
  - apply Forall_cons in Hhits as [Hhit Hhits].
    simpl in Hrun. apply bind_Returns_inv in Hrun as ([] & h1 & Hrun1 & Hrun).
    destruct (Hstep hit h h1 Hh Hhit Hrun1) as (Hh1 & a1 & Hinc & Ha1).
    apply increment_inv in Hinc as (a0 & v & Ha0 & Hkey & Hv & ->).
    rewrite Ha in Ha0. injection Ha0 as <-.
    assert (Hcells1 : Forall (λ c, 0 ≤ c < modulus)
                        (<[Z.to_nat (key hit) := (v + 1) mod modulus]> a)).
    { apply Forall_insert; [done|]. by apply Z.mod_pos_bound. }
    destruct (IH h1 h' _ Hh1 Hhits Hrun Ha1 Hcells1) as (a' & Ha' & Hlen & Hbins).
    exists a'. split; [done|]. split; [by rewrite Hlen, length_insert|].
    intros t Ht. rewrite (Hbins t Ht), !load_Some by done. rewrite hits_with_cons.
    destruct (decide (key hit = t)) as [Heq|Hne].
    + subst t. rewrite list_lookup_insert_eq by lia. rewrite Hv. simpl. f_equal.
      rewrite Zplus_mod_idemp_l. f_equal. lia.
    + rewrite list_lookup_insert_ne by lia. by rewrite Z.add_0_l.
Qed.

(** The ToT histogram is a histogram of the ToT values and the relative-BCID
    histogram one of the relative BCIDs: after a batch that is ingested,
    each enabled histogram holds in bin [t] what it held before plus the
    number of hits of the batch whose value is [t], modulo 2^64, whatever
    the scan parameters are. *)
Theorem addHits_tot_and_bcid_histograms (rHitInfo : list HitInfo) (h h' : Histogram) :
  Forall hit_in_type rHitInfo →
  addHits rHitInfo h = Returns tt h' →
  (_createTotHist h = true →
   ∀ a, _tot h = Some a → Forall (λ c, 0 ≤ c < ULONG_MOD) a →
     ∃ a', _tot h' = Some a' ∧ length a' = length a ∧
       ∀ t, 0 ≤ t →
         load (Some a') t
         = (λ c, (c + hits_with tot t rHitInfo) mod ULONG_MOD) <$> load (Some a) t) ∧
  (_createRelBCIDhist h = true →
   ∀ a, _relBcid h = Some a → Forall (λ c, 0 ≤ c < ULONG_MOD) a →
     ∃ a', _relBcid h' = Some a' ∧ length a' = length a ∧
       ∀ t, 0 ≤ t →
         load (Some a') t
         = (λ c, (c + hits_with relativeBCID t rHitInfo) mod ULONG_MOD)
             <$> load (Some a) t).
Proof.
  intros Htype Hrun. split.
  - intros Hflag a Ha Hcells.
    apply (addHits_counts_bins (λ h, _createTotHist h = true) hit_in_type ULONG_MOD
             _tot tot ltac:(done)) with (h := h); try done.
    clear. intros hit h h' Hflag (_ & _ & Ht & _) Hstep.
    apply addHit_Returns_inv in Hstep
      as (_ & _ & _ & _ & v & h1 & occ' & bcid' & tot' & Hev & _ & -> & _ & _ & Hcount).
    apply getEventParameter_Returns_frame in Hev as [i ->].
    cbn in Hcount |- *. rewrite Hflag in Hcount. split; [done|].
    rewrite to_uint_small in Hcount by done.
    destruct Hcount as (a1 & Hinc & ->). by exists a1.
  - intros Hflag a Ha Hcells.
    apply (addHits_counts_bins (λ h, _createRelBCIDhist h = true) hit_in_type ULONG_MOD
             _relBcid relativeBCID ltac:(done)) with (h := h); try done.
    clear. intros hit h h' Hflag (_ & _ & _ & Hb) Hstep.
    apply addHit_Returns_inv in Hstep
      as (_ & _ & _ & _ & v & h1 & occ' & bcid' & tot' & Hev & _ & -> & _ & Hcount & _).
    apply getEventParameter_Returns_frame in Hev as [i ->].
    cbn in Hcount |- *. rewrite Hflag in Hcount. split; [done|].
    rewrite to_uint_small in Hcount by done.
    destruct Hcount as (a1 & Hinc & ->). by exists a1.
Qed.

(** The cells of two pixels of one parameter index are different cells. *)
Lemma occupancy_index_pixel_inj (i j i' j' k : Z) :
  0 ≤ i < RAW_DATA_MAX_COLUMN → 0 ≤ i' < RAW_DATA_MAX_COLUMN →
  occupancy_index i j k = occupancy_index i' j' k → i = i' ∧ j = j'.
Proof.
  unfold occupancy_index. intros Hi Hi' Heq.
  assert (Hrow : i + j * RAW_DATA_MAX_COLUMN = i' + j' * RAW_DATA_MAX_COLUMN) by lia.
  assert (j = j'); [|subst; lia].
  assert (Hj : (i + j * RAW_DATA_MAX_COLUMN) / RAW_DATA_MAX_COLUMN = j).
  { rewrite Z.div_add by lia. rewrite Z.div_small by lia. lia. }
  assert (Hj' : (i' + j' * RAW_DATA_MAX_COLUMN) / RAW_DATA_MAX_COLUMN = j').
  { rewrite Z.div_add by lia. rewrite Z.div_small by lia. lia. }
  congruence.
Qed.

(** Without scan parameter the occupancy array is a hit map: every batch of
    hits that pass the four checks is ingested, and the cell of each pixel
    then holds what it held before plus the number of hits of the batch at
    that pixel, modulo 2^32. *)
Theorem addHits_no_scan_parameter_hit_map (rHitInfo : list HitInfo) (h : Histogram)
    (a : list Z) :
  geometry_in_type → no_scan_parameter h → _createOccHist h = true →
  _occupancy h = Some a → Forall (λ c, 0 ≤ c < UINT_MOD) a →
  Forall (λ hit, hit_in_type hit ∧ valid_column hit ∧ valid_row hit ∧ valid_tot hit ∧
                 valid_relativeBCID hit) rHitInfo →
  ∃ h' a', addHits rHitInfo h = Returns tt h' ∧ _occupancy h' = Some a' ∧
    length a' = length a ∧
    ∀ i j, 0 ≤ i < RAW_DATA_MAX_COLUMN → 0 ≤ j < RAW_DATA_MAX_ROW →
      load (Some a') (occupancy_index i j 0)
      = (λ c, (c + Z.of_nat (length (filter
                  (λ hit, column hit = i + 1 ∧ row hit = j + 1) rHitInfo))) mod UINT_MOD)
          <$> load (Some a) (occupancy_index i j 0).
Proof.
  intros Hgeo Hh Hflag Ha Hcells Hhits.
  destruct (addHits_no_scan_parameter rHitInfo h Hgeo Hh Hhits) as (h' & Hrun & _).
  set (key := λ hit, occupancy_index (column hit - 1) (row hit - 1) 0).
  set (Q := λ hit, hit_in_type hit ∧ valid_column hit ∧ valid_row hit ∧ valid_tot hit ∧
                   valid_relativeBCID hit) in *.
  destruct (addHits_counts_bins (λ h, no_scan_parameter h ∧ _createOccHist h = true)
              Q UINT_MOD _occupancy key ltac:(done)) with (rHitInfo := rHitInfo)
              (h := h) (h' := h') (a := a) as (a' & Ha' & Hlen & Hbins); try done.
  { clear -Hgeo. intros hit h h' [Hh Hflag] (Htype & Hc & Hr & Ht & Hb) Hstep.
    destruct (addHit_no_scan_parameter hit h Hgeo Htype Hh Hc Hr Ht Hb) as (h2 & Hrun & Hh2).
    rewrite Hstep in Hrun. injection Hrun as <-.
    apply addHit_Returns_inv in Hstep
      as (_ & _ & _ & _ & v & h1 & occ' & bcid' & tot' & Hev & _ & -> & Hcount & _ & _).
    destruct Hh as (Hpar & Hvalues & _).
    assert (Hev0 : getEventParameter (eventNumber hit) h = Returns 0 h).
    { unfold getEventParameter. unfold_monad. by rewrite Hpar. }
    rewrite Hev0 in Hev. injection Hev as <- <-.
    rewrite Hvalues, Hflag in Hcount. cbn in Hcount.
    assert (Hcol : to_ushort (column hit - 1) = column hit - 1).
    { destruct Hgeo as [? _], Htype as [? _]. unfold valid_column, to_ushort, USHRT_MOD in *.
      apply Z.mod_small. lia. }
    assert (Hrow : to_uint (row hit - 1) = row hit - 1).
    { destruct Hgeo as [_ ?], Htype as (_ & ? & _).
      unfold valid_row, to_uint, UINT_MOD, INT_MAX in *. apply Z.mod_small. lia. }
    rewrite Hcol, Hrow in Hcount. destruct Hcount as (a1 & Hinc & ->).
    split; [split; [done|by cbn]|]. by exists a1. }
  exists h', a'. split; [done|]. split; [done|]. split; [done|].
  intros i j Hi Hj.
  pose proof (occupancy_index_range 1 i j 0 Hi Hj ltac:(lia)) as Hidx.
  rewrite Hbins by lia.
  rewrite (hits_with_ext key _ (λ hit, column hit = i + 1 ∧ row hit = j + 1)); [done|].
  apply Forall_impl with (P := Q); [done|].
  intros hit (_ & Hc & _). unfold key. unfold valid_column in Hc.
  destruct (decide (column hit = i + 1 ∧ row hit = j + 1)) as [[-> ->]|Hne].
  - replace (i + 1 - 1) with i by lia. by replace (j + 1 - 1) with j by lia.
  - split; [|done]. intros Heq.
    apply occupancy_index_pixel_inj in Heq as [? ?]; lia.
Qed.

(** ** The estimator reads the histogram *)

Lemma reads_ret {A : Type} (P : A → Prop) (a : A) : P a → reads P (mret a).
Proof. intros Ha h. by split. Qed.

Lemma reads_get : reads (λ _, True) get.
Proof. by intros h. Qed.

Lemma reads_defined {A : Type} (P : A → Prop) (o : option A) :
  (∀ a, o = Some a → P a) → reads P (defined o).
Proof. intros Ho h. destruct o as [a|]; [|done]. split; [done|]. by apply Ho. Qed.

Lemma reads_bind {A B : Type} (P : A → Prop) (Q : B → Prop) (m : M A) (k : A → M B) :
  reads P m → (∀ a, P a → reads Q (k a)) → reads Q (m ≫= k).
Proof.
  intros Hm Hk h. specialize (Hm h). unfold mbind, M_bind.
  destruct (m h) as [a h1| |]; [|done..].
  destruct Hm as [-> Ha]. apply (Hk a Ha).
Qed.

Lemma reads_for_fold {A : Type} (P : A → Prop) (body : Z → A → M A) (range : list Z) :
  (∀ i acc, P acc → reads P (body i acc)) →
  ∀ acc, P acc → reads P (for_fold body range acc).
Proof.
  intros Hbody. induction range as [|i range IH]; intros acc Hacc.
  - by apply reads_ret.
  - simpl. eapply reads_bind; [by apply Hbody|]. intros acc' Hacc'. by apply IH.
Qed.

Lemma reads_occupancy_at (i j k : Z) : reads (λ _, True) (occupancy_at i j k).
Proof.
  unfold occupancy_at. eapply reads_bind; [apply reads_get|].
  intros h _. by apply reads_defined.
Qed.

Lemma store_length {A : Type} (a a' : list A) (i : Z) (v : A) :
  store (Some a) i v = Some a' → length a' = length a.
Proof.
  unfold store. simpl. destruct (_ && _); [|done]. intros [= <-]. apply length_insert.
Qed.

(** [calculateThresholdScanArrays] only reads the histogram: it throws no
    exception, and when it returns the histogram is what it was and the two
    maps have the lengths they had. *)
Theorem calculateThresholdScanArrays_reads (rMuArray rSigmaArray : list float)
    (h : Histogram) :
  match calculateThresholdScanArrays rMuArray rSigmaArray h with
  | Returns maps h' =>
      h' = h ∧ length maps.1 = length rMuArray ∧ length maps.2 = length rSigmaArray
  | Throws _ _ => False
  | Undefined => True
  end.
Proof.
  set (P := λ maps : list float * list float,
         length maps.1 = length rMuArray ∧ length maps.2 = length rSigmaArray).
  enough (Hreads : reads P (calculateThresholdScanArrays rMuArray rSigmaArray))
    by apply Hreads.
  unfold calculateThresholdScanArrays.
  eapply reads_bind; [apply reads_get|]. intros h0 _.
  destruct (_NparameterValues h0 <? 2); [by apply reads_ret|].
  eapply reads_bind with (P := λ _, True).
  { eapply reads_bind; [apply reads_get|]. intros. by apply reads_ret. }
  intros q_min _. eapply reads_bind with (P := λ _, True).
  { eapply reads_bind; [apply reads_get|]. intros. by apply reads_ret. }
  intros q_max _. eapply reads_bind with (P := λ _, True).
  { eapply reads_bind; [apply reads_get|]. intros. by apply reads_ret. }
  intros n _. eapply reads_bind with (P := λ _, True); [by apply reads_defined|].
  intros d _. apply reads_for_fold; [|done].
  intros i maps Hmaps. apply reads_for_fold; [|done].
  clear maps Hmaps. intros j maps [Hmu Hsigma].
  unfold calculateThresholdScanArrays_pixel.
  eapply reads_bind; [apply reads_occupancy_at|]. intros tMinOccupancy _.
  eapply reads_bind; [apply reads_occupancy_at|]. intros tMaxOccupancy _.
  eapply reads_bind with (P := λ _, True).
  { apply reads_for_fold; [|done]. intros k acc _.
    eapply reads_bind; [apply reads_occupancy_at|]. intros. by apply reads_ret. }
  intros M _.
  eapply reads_bind with (P := λ a, length a = length rMuArray).
  { apply reads_defined. intros a Ha%store_length. by rewrite Ha. }
  intros mu' Hmu'.
  eapply reads_bind with (P := λ _, True).
  { apply reads_for_fold; [|done]. intros k acc _. unfold pixel_mu_step.
    eapply reads_bind with (P := λ _, True).
    { destruct (_ <? _)%float; [|by apply reads_ret].
      eapply reads_bind; [apply reads_occupancy_at|]. intros. by apply reads_ret. }
    intros mu1 _. eapply reads_bind with (P := λ _, True).
    { destruct (_ <? _)%float; [|by apply reads_ret].
      eapply reads_bind; [apply reads_occupancy_at|]. intros. by apply reads_ret. }
    intros. by apply reads_ret. }
  intros mu _.
  eapply reads_bind with (P := λ a, length a = length rSigmaArray).
  { apply reads_defined. intros a Ha%store_length. by rewrite Ha. }
  intros sigma' Hsigma'. by apply reads_ret.
Qed.

(** ** Hits before the occupancy array is allocated *)

(** With occupancy histogramming enabled and no occupancy array (as after
    [createOccupancyHist] in a new histogram: the array is allocated by
    [addScanParameter] and [setNoScanParameter] only), a hit that passes the
    four checks and whose parameter index is in range is counted through
    the null pointer: the behaviour of the batch is undefined. *)
Theorem addHits_before_allocation (hit : HitInfo) (post : list HitInfo)
    (h h1 : Histogram) (v k : Z) :
  geometry_in_type → hit_in_type hit →
  valid_column hit → valid_row hit → valid_tot hit → valid_relativeBCID hit →
  _createOccHist h = true → _occupancy h = None →
  getEventParameter (eventNumber hit) h = Returns v h1 →
  getParIndex v h1 = Returns k h1 →
  0 ≤ k ≤ to_uint (_NparameterValues h1 - 1) →
  addHits (hit :: post) h = Undefined.
Proof.
  intros Hgeo Htype Hc Hr Ht Hb Hflag Hocc Hev Hidx Hk.
  apply (column_check hit Hgeo Htype) in Hc. apply (row_check hit Hgeo Htype) in Hr.
  apply (tot_check hit Htype) in Ht. apply (relativeBCID_check hit Htype) in Hb.
  simpl. apply bind_Undefined. unfold addHit. rewrite Hc, Hr, Ht, Hb.
  erewrite bind_Returns by exact Hev. cbv beta.
  erewrite bind_Returns by exact Hidx. cbv beta.
  apply getEventParameter_Returns_frame in Hev as [i ->].
  unfold getNparameters. unfold_monad.
  cbn [_NparameterValues _createOccHist _occupancy set_lastMetaEventIndex] in *.
  destruct (Z.ltb_spec k 0); [lia|].
  destruct (Z.ltb_spec (to_uint (_NparameterValues h - 1)) k); [lia|].
  cbn. rewrite Hflag, Hocc. done.
Qed.

(** ** Setting the histogram up *)

(** [setNoScanParameter] sets the parameter count to 1 and replaces the
    occupancy array by one of columns x rows zeros. It leaves a parameter
    table and the value set derived from it in place, as it does the limits,
    the event index, the cursor, the other two histograms and the flags; on
    a histogram without table and value set whose enabled ToT and
    relative-BCID histograms are allocated, it leaves a histogram without
    scan parameter. *)
Theorem setNoScanParameter_single_parameter (h : Histogram) :
  0 < RAW_DATA_MAX_COLUMN → 0 < RAW_DATA_MAX_ROW →
  ∃ h', setNoScanParameter h = Returns tt h' ∧
    _NparameterValues h' = 1 ∧
    _occupancy h' = Some (replicate (Z.to_nat (RAW_DATA_MAX_COLUMN * RAW_DATA_MAX_ROW)) 0) ∧
    _parInfo h' = _parInfo h ∧ _nParInfoLength h' = _nParInfoLength h ∧
    _parameterValues h' = _parameterValues h ∧
    _minParameterValue h' = _minParameterValue h ∧
    _maxParameterValue h' = _maxParameterValue h ∧
    _metaEventIndex h' = _metaEventIndex h ∧
    _nMetaEventIndexLength h' = _nMetaEventIndexLength h ∧
    _lastMetaEventIndex h' = _lastMetaEventIndex h ∧
    _tot h' = _tot h ∧ _relBcid h' = _relBcid h ∧
    _createOccHist h' = _createOccHist h ∧
    _createRelBCIDhist h' = _createRelBCIDhist h ∧
    _createTotHist h' = _createTotHist h ∧
    (_parInfo h = None → _parameterValues h = [] →
     (_createRelBCIDhist h = true → ∃ a, _relBcid h = Some a ∧ length a = 16%nat) →
     (_createTotHist h = true → ∃ a, _tot h = Some a ∧ length a = 16%nat) →
     no_scan_parameter h').
Proof.
  intros HC HR. eexists. split; [by apply setNoScanParameter_Returns|].
  rewrite Z.mul_1_r. cbn. repeat split; try done.
  intros _. eexists. split; [done|]. rewrite length_replicate. nia.
Qed.

(** The two tables can be loaded in either order: loading the event index
    before or after a parameter table that has an entry leaves the same
    histogram. *)
Theorem tables_load_in_either_order (h : Histogram) (par : list ParInfo)
    (rNmetaEventIndexLength : Z) (rMetaEventIndex : option (list Z)) :
  0 < RAW_DATA_MAX_COLUMN → 0 < RAW_DATA_MAX_ROW → par ≠ [] →
  (addMetaEventIndex rNmetaEventIndexLength rMetaEventIndex;;
   addScanParameter (Z.of_nat (length par)) (Some par)) h
  = (addScanParameter (Z.of_nat (length par)) (Some par);;
     addMetaEventIndex rNmetaEventIndexLength rMetaEventIndex) h.
Proof.
  intros HC HR Hpar.
  assert (Hvalues : scanParameter <$> par ≠ []) by by destruct par.
  destruct (limits_of_values _ Hvalues) as (front & back & Hfront & Hback & _).
  erewrite (bind_Returns (addMetaEventIndex _ _)) by reflexivity. cbv beta.
  rewrite (addScanParameter_Returns _ par front back HC HR Hfront Hback).
  erewrite (bind_Returns (addScanParameter _ _))
    by apply (addScanParameter_Returns h par front back HC HR Hfront Hback).
  by destruct h.
Qed.

(** With a parameter table and no event index the correlation reads
    through the null pointer: the lookup of any event number is undefined,
    and so is every batch whose first hit passes the four checks. *)
Theorem getEventParameter_without_event_index (h : Histogram) (par : list ParInfo) :
  _parInfo h = Some par → _metaEventIndex h = None →
  (∀ ev, getEventParameter ev h = Undefined) ∧
  (∀ hit post, geometry_in_type → hit_in_type hit →
     valid_column hit → valid_row hit → valid_tot hit → valid_relativeBCID hit →
     addHits (hit :: post) h = Undefined).
Proof.
  intros Hpar Hmeta.
  assert (Hlookup : ∀ ev, getEventParameter ev h = Undefined).
  { intros ev. unfold getEventParameter. erewrite bind_Returns by reflexivity.
    rewrite Hpar.
    destruct (seqZ _ _) as [|i range].
    - simpl for_first. unfold_monad. by rewrite Hmeta.
    - simpl for_first. apply bind_Undefined. apply bind_Undefined.
      unfold getEventParameter_body. unfold_monad. by rewrite Hmeta. }
  split; [done|].
  intros hit post Hgeo Htype Hc Hr Ht Hb.
  apply (column_check hit Hgeo Htype) in Hc. apply (row_check hit Hgeo Htype) in Hr.
  apply (tot_check hit Htype) in Ht. apply (relativeBCID_check hit Htype) in Hb.
  simpl. apply bind_Undefined. unfold addHit. rewrite Hc, Hr, Ht, Hb.
  by apply bind_Undefined.
Qed.

(** ** The estimator on arrays of the right size *)

Lemma runs_ret {A : Type} (h : Histogram) (P : A → Prop) (a : A) :
  P a → runs h P (mret a).
Proof. intros Ha. by exists a. Qed.

Lemma runs_get (h : Histogram) (P : Histogram → Prop) : P h → runs h P get.
Proof. intros Hh. by exists h. Qed.

Lemma runs_defined {A : Type} (h : Histogram) (P : A → Prop) (o : option A) (a : A) :
  o = Some a → P a → runs h P (defined o).
Proof. intros -> Ha. by exists a. Qed.

Lemma runs_bind {A B : Type} (h : Histogram) (P : A → Prop) (Q : B → Prop)
    (m : M A) (k : A → M B) :
  runs h P m → (∀ a, P a → runs h Q (k a)) → runs h Q (m ≫= k).
Proof.
  intros (a & Hm & Ha) Hk. destruct (Hk a Ha) as (b & Hb & HQ).
  exists b. split; [|done]. by erewrite bind_Returns by exact Hm.
Qed.

Lemma runs_for_fold {A : Type} (h : Histogram) (P : A → Prop) (body : Z → A → M A)
    (range : list Z) :
  (∀ i acc, i ∈ range → P acc → runs h P (body i acc)) →
  ∀ acc, P acc → runs h P (for_fold body range acc).
Proof.
  induction range as [|i range IH]; intros Hbody acc Hacc.
  - by apply runs_ret.
  - simpl. eapply runs_bind; [apply Hbody; [left|done]|].
    intros acc' Hacc'. apply IH; [|done].
    intros i' acc'' Hi'. apply Hbody. by right.
Qed.

Lemma runs_getter (h : Histogram) (field : Histogram → Z) :
  runs h (λ v, v = field h) (h0 ← get; mret (field h0)).
Proof.
  eapply runs_bind; [by apply (runs_get h (λ h0, h0 = h))|].
  intros ? ->. by apply runs_ret.
Qed.

Lemma runs_occupancy_at (h : Histogram) (a : list Z) (i j k : Z) :
  _occupancy h = Some a →
  0 ≤ occupancy_index i j k < Z.of_nat (length a) →
  runs h (λ _, True) (occupancy_at i j k).
Proof.
  intros Hocc Hidx. unfold occupancy_at.
  eapply runs_bind; [by apply (runs_get h (λ h0, h0 = h))|].
  intros ? ->. rewrite Hocc.
  destruct (lookup_lt_is_Some_2 a (Z.to_nat (occupancy_index i j k)) ltac:(lia)) as [v Hv].
  apply (runs_defined _ _ _ v); [|done]. by rewrite load_Some by lia.
Qed.

(** On a histogram with at least two parameter values whose occupancy array
    has its columns x rows x count cells, with two maps of at least
    columns x rows entries, and a step (max - min) / (count - 1) that
    converts to [int], [calculateThresholdScanArrays] returns: every access
    lies inside its array. It leaves the histogram as it was, the maps keep
    their lengths, and the entries of the maps from columns x rows on are
    not written. *)
Theorem calculateThresholdScanArrays_defined (rMuArray rSigmaArray : list float)
    (h : Histogram) (a : list Z) (d : Z) :
  0 < RAW_DATA_MAX_COLUMN → 0 < RAW_DATA_MAX_ROW →
  RAW_DATA_MAX_COLUMN * RAW_DATA_MAX_ROW ≤ UINT_MOD →
  2 ≤ _NparameterValues h →
  _occupancy h = Some a →
  Z.of_nat (length a) = RAW_DATA_MAX_COLUMN * RAW_DATA_MAX_ROW * _NparameterValues h →
  RAW_DATA_MAX_COLUMN * RAW_DATA_MAX_ROW ≤ Z.of_nat (length rMuArray) →
  RAW_DATA_MAX_COLUMN * RAW_DATA_MAX_ROW ≤ Z.of_nat (length rSigmaArray) →
  double_to_int
    ((double_of_uint (_maxParameterValue h) - double_of_uint (_minParameterValue h))
     / double_of_uint (to_uint (_NparameterValues h - 1)))%float = Some d →
  ∃ mu sigma,
    calculateThresholdScanArrays rMuArray rSigmaArray h = Returns (mu, sigma) h ∧
    length mu = length rMuArray ∧ length sigma = length rSigmaArray ∧
    ∀ p : nat, RAW_DATA_MAX_COLUMN * RAW_DATA_MAX_ROW ≤ Z.of_nat p →
      mu !! p = rMuArray !! p ∧ sigma !! p = rSigmaArray !! p.
Proof.
  intros HC HR Hfit Hn Hocc Hlen Hmu Hsigma Hd.
  set (P := λ maps : list float * list float,
         length maps.1 = length rMuArray ∧ length maps.2 = length rSigmaArray ∧
         ∀ p : nat, RAW_DATA_MAX_COLUMN * RAW_DATA_MAX_ROW ≤ Z.of_nat p →
           maps.1 !! p = rMuArray !! p ∧ maps.2 !! p = rSigmaArray !! p).
  enough (Hruns : runs h P (calculateThresholdScanArrays rMuArray rSigmaArray)).
  { destruct Hruns as ([mu sigma] & Hrun & Hlmu & Hlsigma & Hrest). by exists mu, sigma. }
  unfold calculateThresholdScanArrays.
  eapply runs_bind; [by apply (runs_get h (λ h0, h0 = h))|]. intros ? ->.
  destruct (Z.ltb_spec (_NparameterValues h) 2); [lia|].
  eapply runs_bind; [apply (runs_getter h _minParameterValue)|]. intros ? ->.
  eapply runs_bind; [apply (runs_getter h _maxParameterValue)|]. intros ? ->.
  eapply runs_bind; [apply (runs_getter h _NparameterValues)|]. intros ? ->.
  eapply runs_bind; [by apply (runs_defined h (λ _, True) _ d)|]. intros d' _.
  apply runs_for_fold; [|done].
  intros i maps Hi%elem_of_seqZ Hmaps. apply runs_for_fold; [|done].
  clear maps Hmaps. intros j maps Hj%elem_of_seqZ (Hlmu & Hlsigma & Hrest).
  assert (Hcell : ∀ k, 0 ≤ k < _NparameterValues h →
            0 ≤ occupancy_index i j k < Z.of_nat (length a)).
  { intros k Hk. rewrite Hlen. apply occupancy_index_range; lia. }
  pose proof (occupancy_index_range 1 i j 0 ltac:(lia) ltac:(lia) ltac:(lia)) as Hpixel.
  unfold occupancy_index in Hpixel.
  assert (Hindex : to_uint (i + j * RAW_DATA_MAX_COLUMN) = i + j * RAW_DATA_MAX_COLUMN).
  { apply to_uint_small. lia. }
  unfold calculateThresholdScanArrays_pixel.
  eapply runs_bind; [apply (runs_occupancy_at h a); [done|apply Hcell; lia]|].
  intros tMinOccupancy _.
  eapply runs_bind; [apply (runs_occupancy_at h a); [done|apply Hcell; lia]|].
  intros tMaxOccupancy _.
  eapply runs_bind with (P := λ _, True).
  { apply runs_for_fold; [|done]. intros k acc Hk%elem_of_seqZ _.
    eapply runs_bind; [apply (runs_occupancy_at h a); [done|apply Hcell; lia]|].
    intros. by apply runs_ret. }
  intros M _. rewrite Hindex.
  eapply runs_bind.
  { eapply runs_defined; [apply store_Some; lia|].
    instantiate (1 := λ mu, length mu = length rMuArray ∧
      ∀ p : nat, RAW_DATA_MAX_COLUMN * RAW_DATA_MAX_ROW ≤ Z.of_nat p →
        mu !! p = rMuArray !! p).
    cbv beta. split; [by rewrite length_insert|].
    intros p Hp. rewrite list_lookup_insert_ne by lia. by apply Hrest. }
  intros mu' [Hlmu' Hrest'].
  eapply runs_bind with (P := λ _, True).
  { apply runs_for_fold; [|done]. intros k acc Hk%elem_of_seqZ _. unfold pixel_mu_step.
    eapply runs_bind with (P := λ _, True).
    { destruct (_ <? _)%float; [|by apply runs_ret].
      eapply runs_bind; [apply (runs_occupancy_at h a); [done|apply Hcell; lia]|].
      intros. by apply runs_ret. }
    intros mu1 _. eapply runs_bind with (P := λ _, True).
    { destruct (_ <? _)%float; [|by apply runs_ret].
      eapply runs_bind; [apply (runs_occupancy_at h a); [done|apply Hcell; lia]|].
      intros. by apply runs_ret. }
    intros. by apply runs_ret. }
  intros mu _.
  eapply runs_bind.
  { eapply runs_defined; [apply store_Some; lia|].
    instantiate (1 := λ sigma, length sigma = length rSigmaArray ∧
      ∀ p : nat, RAW_DATA_MAX_COLUMN * RAW_DATA_MAX_ROW ≤ Z.of_nat p →
        sigma !! p = rSigmaArray !! p).
    cbv beta. split; [by rewrite length_insert|].
    intros p Hp. rewrite list_lookup_insert_ne by lia. by apply Hrest. }
  intros sigma' [Hlsigma' Hrest''].
  apply runs_ret. unfold P. simpl. split; [done|]. split; [done|].
  intros p Hp. split; [by apply Hrest'|by apply Hrest''].
Qed.

End Histogram.

(** * The theorems at concrete inputs *)

(** ** The parameter table of a sensor of 80 x 336 pixels *)

(** C5 (the code on values above the largest [int]). For the entries with
    the values 1 and 3000000000, [addScanParameter] records minimum 1,
    maximum 3000000000 and count 2, but derives the parameter value set
    [3000000000; 1]: the set of [int]s it builds the value set from orders
    3000000000 as the negative number -1294967296, so the value set is not
    ascending, and its first element is not the minimum. *)
Theorem addScanParameter_values_above_INT_MAX (indeterminate : nat → Z) (h : Histogram) :
  ∃ h',
    addScanParameter 80 336 indeterminate 2 (Some [mkParInfo 1; mkParInfo 3000000000]) h
      = Returns tt h' ∧
    _parameterValues h' = [3000000000; 1] ∧
    _minParameterValue h' = 1 ∧
    _maxParameterValue h' = 3000000000 ∧
    _NparameterValues h' = 2.
Proof.
  eexists. split.
  - apply (addScanParameter_Returns 80 336 indeterminate h
             [mkParInfo 1; mkParInfo 3000000000] 1 3000000000); [lia|lia|done|done].
  - cbn [_parameterValues _minParameterValue _maxParameterValue _NparameterValues
         set_occupancy set_NparameterValues set_maxParameterValue set_minParameterValue
         set_parameterValues].
    by vm_compute.
Qed.

(** ** The noise constant *)

(** [noise_constant] is the binary64 number nearest to the literal of the
    code, and [spec_pi] the one nearest to pi: each lies within half a unit
    in the last place (2^-52) of the decimal number it stands for, and they
    are 225 units in the last place apart. *)
Lemma noise_constant_nearest :
  Prim2SF noise_constant = S754_finite false 7074237752028665 (-51) ∧
  2 * Z.abs (7074237752028665 * 10 ^ 27 - 3141592653589893238462643383 * 2 ^ 51)
    ≤ 10 ^ 27 ∧
  Prim2SF spec_pi = S754_finite false 7074237752028440 (-51) ∧
  2 * Z.abs (7074237752028440 * 10 ^ 27 - 3141592653589793238462643383 * 2 ^ 51)
    + 2 * 2 ^ 51 ≤ 10 ^ 27.
Proof. by vm_compute. Qed.

(** [scanned_pixel] is what a session leaves that enables occupancy, loads
    the two tables and ingests the 150 hits. *)
Example scanned_pixel_session (indeterminate : nat → Z) :
  (createOccupancyHist true;;
   addMetaEventIndex 2 (Some [0; 100]);;
   addScanParameter 1 1 indeterminate 2 (Some [mkParInfo 0; mkParInfo 2]);;
   addHits 1 1 (replicate 50 (mkHitInfo 0 0 1 1 0) ++ replicate 100 (mkHitInfo 100 0 1 1 0)))
    (Histogram_init 0 0)
  = Returns tt scanned_pixel.
Proof. by vm_compute. Qed.

(** C8 (the code at a pixel with noise). For the pixel of [scanned_pixel]
    the step is d = 2 and the sum is M = 150, the threshold written is
    2 - 2 * 150 / 100 = -1, both parameter indices lie above it, so
    mu1 = 0 and mu2 = 50. The noise the code writes is
    2 * 50 / 100 * sqrt(c / 2) with its constant c = 3.141592653589893...,
    which is not the binary64 value of 2 * 50 / 100 * sqrt(pi / 2). *)
Theorem calculateThresholdScanArrays_noise_constant :
  calculateThresholdScanArrays 1 1 [0%float] [0%float] scanned_pixel
    = Returns ([(-1)%float], [0x1.40d931ff6275fp+0%float]) scanned_pixel ∧
  spec_noise 2 0 50 100 = 0x1.40d931ff62705p+0%float ∧
  (0x1.40d931ff6275fp+0 =? 0x1.40d931ff62705p+0)%float = false.
Proof. by vm_compute. Qed.

(** ** Hit ingestion on a sensor of 2 x 2 pixels *)

(** Two hits on a zeroed array: the sum goes from 0 to 2. *)
Lemma addHits_occupancy_sum_witness :
  let batch := [mkHitInfo 0 0 1 1 0; mkHitInfo 0 0 2 2 3] in
  addHits 2 2 batch (occupancy_only [0; 0; 0; 0])
    = Returns tt (occupancy_only [1; 0; 0; 1]) ∧
  occupancy_sum (occupancy_only [1; 0; 0; 1])
    = occupancy_sum (occupancy_only [0; 0; 0; 0]) + 2 ∧
  occupancy_sum (occupancy_only [1; 0; 0; 1]) = 2.
Proof.
  pose proof (addHits_occupancy_sum 2 2
    [mkHitInfo 0 0 1 1 0; mkHitInfo 0 0 2 2 3]
    (occupancy_only [0; 0; 0; 0]) (occupancy_only [1; 0; 0; 1])
    eq_refl eq_refl) as [Hsum Hzero].
  split; [reflexivity|]. split.
  - apply Hsum. intros a [= <-]. unfold UINT_MOD. repeat constructor; simpl; lia.
  - apply (Hzero 4%nat); [reflexivity|]. unfold UINT_MOD. simpl. lia.
Defined.

(** C1 as stated fails where a counter wraps: the hit below passes every
    check and is ingested, the one cell of the array goes from 2^32 - 1 to
    0, and the sum after the batch is 0, not the sum before plus one. *)
Lemma addHits_occupancy_sum_wraps :
  let hit := mkHitInfo 0 0 1 1 0 in
  let h := occupancy_only [4294967295] in
  (valid_column 1 hit ∧ valid_row 1 hit ∧ valid_tot hit ∧ valid_relativeBCID hit) ∧
  _createOccHist h = true ∧
  addHits 1 1 [hit] h = Returns tt (occupancy_only [0]) ∧
  occupancy_sum h = 4294967295 ∧
  occupancy_sum (occupancy_only [0]) = 0 ∧
  occupancy_sum (occupancy_only [0]) ≠ occupancy_sum h + 1.
Proof.
  cbv zeta. unfold valid_column, valid_row, valid_tot, valid_relativeBCID. simpl.
  repeat split; try lia; try reflexivity. unfold occupancy_sum. simpl. lia.
Qed.

(** The scenario of the specification: on a sensor of 2 x 2 pixels with the
    parameter values 10 and 20 active over the events [0, 100) and
    [100, 200), hits of pixel (1, 1) at the events 50 and 150 count one in
    the cell of each parameter value and nowhere else. *)
Example two_parameters_scenario (indeterminate : nat → Z) :
  ∃ h,
    (createOccupancyHist true;;
     addMetaEventIndex 2 (Some [0; 100]);;
     addScanParameter 2 2 indeterminate 2 (Some [mkParInfo 10; mkParInfo 20]);;
     addHits 2 2 [mkHitInfo 50 0 1 1 0; mkHitInfo 150 0 1 1 0];;
     getOccupancy) (Histogram_init 0 0)
    = Returns (2, Some [1; 0; 0; 0; 1; 0; 0; 0]) h.
Proof. eexists. by vm_compute. Qed.

(** ** Rejected hits on a sensor of 80 x 336 pixels *)

(** After one good hit, a hit with column 81, column 0, row 337, ToT 16 or
    relative BCID 16 aborts the batch with its error, in the state the
    good hit left. *)
Lemma addHits_invalid_hit_aborts_witness :
  let good := mkHitInfo 0 0 1 1 0 in
  addHits 80 336 ([good] ++ mkHitInfo 0 0 81 1 0 :: [good]) idle = Throws InvalidColumn idle ∧
  addHits 80 336 ([good] ++ mkHitInfo 0 0 0 1 0 :: [good]) idle = Throws InvalidColumn idle ∧
  addHits 80 336 ([good] ++ mkHitInfo 0 0 80 337 0 :: [good]) idle = Throws InvalidRow idle ∧
  addHits 80 336 ([good] ++ mkHitInfo 0 0 80 336 16 :: [good]) idle = Throws InvalidTot idle ∧
  addHits 80 336 ([good] ++ mkHitInfo 0 16 80 336 15 :: [good]) idle = Throws InvalidBcid idle.
Proof.
  cbv zeta.
  assert (Hgeo : geometry_in_type 80 336) by (unfold geometry_in_type, USHRT_MOD, INT_MAX; lia).
  assert (Htype : ∀ b c r t, 0 ≤ b < 100 → 0 ≤ c < 100 → 0 ≤ r < 400 → 0 ≤ t < 100 →
            hit_in_type (mkHitInfo 0 b c r t)).
  { intros. unfold hit_in_type, USHRT_MOD, UINT_MOD. simpl. lia. }
  unfold valid_column, valid_row, valid_tot, valid_relativeBCID.
  split; [|split; [|split; [|split]]].
  - apply (addHits_invalid_hit_aborts 80 336 [mkHitInfo 0 0 1 1 0] [mkHitInfo 0 0 1 1 0]
             (mkHitInfo 0 0 81 1 0) idle idle Hgeo); [apply Htype; lia|reflexivity|].
    unfold valid_column. simpl. lia.
  - apply (addHits_invalid_hit_aborts 80 336 [mkHitInfo 0 0 1 1 0] [mkHitInfo 0 0 1 1 0]
             (mkHitInfo 0 0 0 1 0) idle idle Hgeo); [apply Htype; lia|reflexivity|].
    unfold valid_column. simpl. lia.
  - apply (addHits_invalid_hit_aborts 80 336 [mkHitInfo 0 0 1 1 0] [mkHitInfo 0 0 1 1 0]
             (mkHitInfo 0 0 80 337 0) idle idle Hgeo); [apply Htype; lia|reflexivity| |];
      unfold valid_column, valid_row; simpl; lia.
  - apply (addHits_invalid_hit_aborts 80 336 [mkHitInfo 0 0 1 1 0] [mkHitInfo 0 0 1 1 0]
             (mkHitInfo 0 0 80 336 16) idle idle Hgeo); [apply Htype; lia|reflexivity| | |];
      unfold valid_column, valid_row, valid_tot; simpl; lia.
  - apply (addHits_invalid_hit_aborts 80 336 [mkHitInfo 0 0 1 1 0] [mkHitInfo 0 0 1 1 0]
             (mkHitInfo 0 16 80 336 15) idle idle Hgeo); [apply Htype; lia|reflexivity| | | |];
      unfold valid_column, valid_row, valid_tot, valid_relativeBCID; simpl; lia.
Defined.

(** ** The correlation at concrete tables *)

Lemma stops_at_two_steps_1 : stops_at [0; 50; 100; 150] 60 1.
Proof. exists 50, 100. repeat split; [reflexivity..|lia]. Qed.

Lemma goes_on (meta : list Z) (ev j cur next : Z) :
  load (Some meta) j = Some cur → load (Some meta) (j + 1) = Some next →
  next ≤ ev → cur ≤ next → ¬ stops_at meta ev j.
Proof.
  intros Hcur Hnext Hev Hle (cur' & next' & Hcur' & Hnext' & Hstop).
  rewrite Hcur in Hcur'. rewrite Hnext in Hnext'.
  injection Hcur' as <-. injection Hnext' as <-. lia.
Qed.

(** Without a table the parameter is 0; event 60 is found at the pair
    (1, 2) and moves the cursor to 1; event 150 lies behind the last
    boundary and belongs to the last entry; event 3 lies before the one
    boundary of [one_readout] and is a correlation error. *)
Lemma getEventParameter_correlation_witness :
  getEventParameter 60 idle = Returns 0 idle ∧
  getEventParameter 60 (two_steps 0) = Returns 10 (two_steps 1) ∧
  getEventParameter 150 (two_steps 0) = Returns 20 (two_steps 0) ∧
  getEventParameter 3 one_readout = Throws (CorrelationError 3 5 0) one_readout.
Proof.
  assert (Htables : tables_loaded (two_steps 0) [0; 50; 100; 150]
            [mkParInfo 10; mkParInfo 10; mkParInfo 20; mkParInfo 20]).
  { unfold tables_loaded, UINT_MOD. simpl. repeat split; lia. }
  assert (Hone : tables_loaded one_readout [5] [mkParInfo 10]).
  { unfold tables_loaded, UINT_MOD. simpl. repeat split; lia. }
  split; [|split; [|split]].
  - apply (proj1 (getEventParameter_correlation 60 idle)). reflexivity.
  - apply (proj1 (proj2 (getEventParameter_correlation 60 (two_steps 0)) _ _ Htables)
             1 (mkParInfo 10)).
    + simpl. lia.
    + intros j Hj. simpl in Hj. assert (j = 0) as -> by lia.
      apply (goes_on _ 60 0 0 50); [reflexivity|reflexivity|lia|lia].
    + apply stops_at_two_steps_1.
    + reflexivity.
  - apply (proj2 (proj2 (getEventParameter_correlation 150 (two_steps 0)) _ _ Htables)
             150 (mkParInfo 20)).
    + intros j Hj. simpl in Hj.
      assert (j = 0 ∨ j = 1 ∨ j = 2) as [->|[->| ->]] by lia.
      * apply (goes_on _ 150 0 0 50); [reflexivity|reflexivity|lia|lia].
      * apply (goes_on _ 150 1 50 100); [reflexivity|reflexivity|lia|lia].
      * apply (goes_on _ 150 2 100 150); [reflexivity|reflexivity|lia|lia].
    + reflexivity.
    + reflexivity.
    + lia.
  - apply (proj2 (proj2 (getEventParameter_correlation 3 one_readout) _ _ Hone)
             5 (mkParInfo 10)).
    + intros j Hj. simpl in Hj. lia.
    + reflexivity.
    + reflexivity.
    + lia.
Defined.

(** In the value set [10; 20; 20] the value 20 is first found at index 1,
    and the value 7, which is not in the set, gives index 0. *)
Lemma getParIndex_linear_search_witness :
  let h := set_parameterValues [10; 20; 20] idle in
  getParIndex 20 h = Returns 1 h ∧ getParIndex 7 h = Returns 0 h.
Proof.
  cbv zeta. split.
  - apply (proj1 (getParIndex_linear_search 20 (set_parameterValues [10; 20; 20] idle)) 1%nat).
    split; [reflexivity|]. intros j Hj. assert (j = 0%nat) as -> by lia. discriminate.
  - apply (proj2 (getParIndex_linear_search 7 (set_parameterValues [10; 20; 20] idle))).
    simpl. rewrite !elem_of_cons, elem_of_nil. lia.
Defined.

(** With the single parameter value of a new histogram the estimator hands
    the two maps back untouched. *)
Lemma calculateThresholdScanArrays_too_few_parameters_witness :
  calculateThresholdScanArrays 80 336 [1.5%float] [2.5%float] idle
    = Returns ([1.5%float], [2.5%float]) idle.
Proof.
  apply (calculateThresholdScanArrays_too_few_parameters 80 336). simpl. lia.
Defined.

(** ** Batches at concrete inputs *)

(** A batch of a good hit, a hit of column 3 on a sensor of 2 x 2 pixels and
    another good hit: the first hit is counted, the second aborts the
    batch. *)
Lemma addHits_throw_keeps_counters_witness :
  ∃ pre hit post h1,
    [mkHitInfo 0 0 1 1 0; mkHitInfo 0 0 3 1 0; mkHitInfo 0 0 1 1 0] = pre ++ hit :: post ∧
    addHits 2 2 pre (occupancy_only [0; 0; 0; 0]) = Returns tt h1 ∧
    addHits 2 2 [hit] h1 = Throws InvalidColumn (occupancy_only [1; 0; 0; 0]) ∧
    _occupancy (occupancy_only [1; 0; 0; 0]) = _occupancy h1 ∧
    _relBcid (occupancy_only [1; 0; 0; 0]) = _relBcid h1 ∧
    _tot (occupancy_only [1; 0; 0; 0]) = _tot h1.
Proof.
  apply (addHits_throw_keeps_counters 2 2
           [mkHitInfo 0 0 1 1 0; mkHitInfo 0 0 3 1 0; mkHitInfo 0 0 1 1 0]
           (occupancy_only [0; 0; 0; 0]) (occupancy_only [1; 0; 0; 0]) InvalidColumn).
  reflexivity.
Defined.

(** A hit of the one pixel of [scanned_pixel] at event 100, where the scan
    parameter is 2 with index 1: the cell of index 1 goes from 100 to 101. *)
Lemma addHits_counts_occupancy_cell_witness :
  ∃ a v value k h1,
    getEventParameter 100 scanned_pixel = Returns value h1 ∧
    getParIndex value h1 = Returns k h1 ∧
    _occupancy scanned_pixel = Some a ∧
    a !! Z.to_nat (occupancy_index 1 1 (1 - 1) (1 - 1) k) = Some v ∧
    _occupancy (set_occupancy (Some [50; 101]) scanned_pixel)
    = Some (<[Z.to_nat (occupancy_index 1 1 (1 - 1) (1 - 1) k) := (v + 1) mod UINT_MOD]> a).
Proof.
  apply (addHits_counts_occupancy_cell 1 1 (mkHitInfo 100 0 1 1 0) scanned_pixel
           (set_occupancy (Some [50; 101]) scanned_pixel)).
  - unfold geometry_in_type, USHRT_MOD, INT_MAX. lia.
  - unfold hit_in_type, USHRT_MOD, UINT_MOD. simpl. lia.
  - reflexivity.
  - reflexivity.
Defined.

(** On a sensor of 2 x 2 pixels without scan parameter, three hits, two of
    them at pixel (1, 1) and one at pixel (2, 2). *)
Lemma addHits_no_scan_parameter_hit_map_witness :
  let batch := [mkHitInfo 0 0 1 1 0; mkHitInfo 0 0 2 2 3; mkHitInfo 1 0 1 1 0] in
  ∃ h' a',
    addHits 2 2 batch (occupancy_only [0; 0; 0; 0]) = Returns tt h' ∧
    _occupancy h' = Some a' ∧ length a' = length [0; 0; 0; 0] ∧
    ∀ i j, 0 ≤ i < 2 → 0 ≤ j < 2 →
      load (Some a') (occupancy_index 2 2 i j 0)
      = (λ c, (c + Z.of_nat (length (filter
                  (λ hit, column hit = i + 1 ∧ row hit = j + 1) batch))) mod UINT_MOD)
          <$> load (Some [0; 0; 0; 0]) (occupancy_index 2 2 i j 0).
Proof.
  cbv zeta.
  apply (addHits_no_scan_parameter_hit_map 2 2
           [mkHitInfo 0 0 1 1 0; mkHitInfo 0 0 2 2 3; mkHitInfo 1 0 1 1 0]
           (occupancy_only [0; 0; 0; 0]) [0; 0; 0; 0]).
  - unfold geometry_in_type, USHRT_MOD, INT_MAX. lia.
  - unfold no_scan_parameter. simpl. repeat split; try discriminate.
    intros _. by exists [0; 0; 0; 0].
  - reflexivity.
  - reflexivity.
  - unfold UINT_MOD. repeat constructor; lia.
  - unfold hit_in_type, valid_column, valid_row, valid_tot, valid_relativeBCID,
      USHRT_MOD, UINT_MOD.
    repeat constructor; simpl; lia.
Defined.

(** Two hits with the relative BCID 3 and the ToT values 5 and 7 in zeroed
    histograms. *)
Lemma addHits_tot_and_bcid_histograms_witness :
  let batch := [mkHitInfo 0 3 1 1 5; mkHitInfo 0 3 1 1 7] in
  let h := all_histograms [0] (replicate 16 0) (replicate 16 0) in
  let h' := all_histograms [2] (<[3%nat := 2]> (replicate 16 0))
              (<[5%nat := 1]> (<[7%nat := 1]> (replicate 16 0))) in
  (_createTotHist h = true →
   ∀ a, _tot h = Some a → Forall (λ c, 0 ≤ c < ULONG_MOD) a →
     ∃ a', _tot h' = Some a' ∧ length a' = length a ∧
       ∀ t, 0 ≤ t →
         load (Some a') t
         = (λ c, (c + hits_with tot t batch) mod ULONG_MOD) <$> load (Some a) t) ∧
  (_createRelBCIDhist h = true →
   ∀ a, _relBcid h = Some a → Forall (λ c, 0 ≤ c < ULONG_MOD) a →
     ∃ a', _relBcid h' = Some a' ∧ length a' = length a ∧
       ∀ t, 0 ≤ t →
         load (Some a') t
         = (λ c, (c + hits_with relativeBCID t batch) mod ULONG_MOD) <$> load (Some a) t).
Proof.
  cbv zeta.
  apply (addHits_tot_and_bcid_histograms 1 1 [mkHitInfo 0 3 1 1 5; mkHitInfo 0 3 1 1 7]
           (all_histograms [0] (replicate 16 0) (replicate 16 0))).
  - unfold hit_in_type, USHRT_MOD, UINT_MOD. repeat constructor; simpl; lia.
  - reflexivity.
Defined.

(** A hit in a new histogram with occupancy enabled and no array. *)
Lemma addHits_before_allocation_witness :
  addHits 80 336 [mkHitInfo 0 0 1 1 0; mkHitInfo 0 0 1 1 0] unallocated = Undefined.
Proof.
  apply (addHits_before_allocation 80 336 (mkHitInfo 0 0 1 1 0) [mkHitInfo 0 0 1 1 0]
           unallocated unallocated 0 0).
  - unfold geometry_in_type, USHRT_MOD, INT_MAX. lia.
  - unfold hit_in_type, USHRT_MOD, UINT_MOD. simpl. lia.
  - unfold valid_column. simpl. lia.
  - unfold valid_row. simpl. lia.
  - unfold valid_tot. simpl. lia.
  - unfold valid_relativeBCID. simpl. lia.
  - reflexivity.
  - reflexivity.
  - reflexivity.
  - reflexivity.
  - vm_compute. split; discriminate.
Defined.

(** ** The parameter lookup errors at concrete inputs *)

(** [count_set_back] is what [setNoScanParameter] leaves of [two_steps 0]. *)
Example count_set_back_session (indeterminate : nat → Z) :
  setNoScanParameter 1 1 indeterminate (two_steps 0) = Returns tt count_set_back.
Proof. by vm_compute. Qed.

(** Event 3 lies before the one boundary of [one_readout]: correlation
    error. At event 150 of [count_set_back] the scan parameter is 20, whose
    index 1 lies above the count minus one: error 22. *)
Lemma addHits_parameter_errors_abort_witness :
  addHits 80 336 ([] ++ mkHitInfo 3 0 1 1 0 :: [mkHitInfo 5 0 1 1 0]) one_readout
    = Throws (CorrelationError 3 5 0) one_readout ∧
  thrown_value (CorrelationError 3 5 0) = 23 ∧
  addHits 80 336 ([] ++ mkHitInfo 150 0 1 1 0 :: [mkHitInfo 0 0 1 1 0]) count_set_back
    = Throws (ParameterIndexOutOfRange 1 10 20) count_set_back.
Proof.
  assert (Hgeo : geometry_in_type 80 336) by (unfold geometry_in_type, USHRT_MOD, INT_MAX; lia).
  assert (Htype : ∀ ev, hit_in_type (mkHitInfo ev 0 1 1 0)).
  { intros. unfold hit_in_type, USHRT_MOD, UINT_MOD. simpl. lia. }
  assert (Hc : ∀ ev, valid_column 80 (mkHitInfo ev 0 1 1 0)).
  { intros. unfold valid_column. simpl. lia. }
  assert (Hr : ∀ ev, valid_row 336 (mkHitInfo ev 0 1 1 0)).
  { intros. unfold valid_row. simpl. lia. }
  assert (Ht : ∀ ev, valid_tot (mkHitInfo ev 0 1 1 0)).
  { intros. unfold valid_tot. simpl. lia. }
  assert (Hb : ∀ ev, valid_relativeBCID (mkHitInfo ev 0 1 1 0)).
  { intros. unfold valid_relativeBCID. simpl. lia. }
  split; [|split].
  - apply (proj1 (addHits_parameter_errors_abort 80 336 [] [mkHitInfo 5 0 1 1 0]
             (mkHitInfo 3 0 1 1 0) one_readout one_readout
             Hgeo (Htype 3) (Hc 3) (Hr 3) (Ht 3) (Hb 3) eq_refl)
             (CorrelationError 3 5 0) one_readout).
    reflexivity.
  - reflexivity.
  - apply (proj2 (addHits_parameter_errors_abort 80 336 [] [mkHitInfo 0 0 1 1 0]
             (mkHitInfo 150 0 1 1 0) count_set_back count_set_back
             Hgeo (Htype 150) (Hc 150) (Hr 150) (Ht 150) (Hb 150) eq_refl)
             20 count_set_back 1).
    + reflexivity.
    + reflexivity.
    + reflexivity.
Defined.

(** ** The correlation at concrete tables, continued *)

(** Event 60 was found at the pair (1, 2) of [two_steps 0], which left
    [two_steps 1]; looked up again there it is found at once. *)
Lemma getEventParameter_idempotent_witness :
  getEventParameter 60 (two_steps 1) = Returns 10 (two_steps 1).
Proof.
  apply (getEventParameter_idempotent 60 10 (two_steps 0) (two_steps 1)). reflexivity.
Defined.

Lemma boundaries_ascend_two_steps : boundaries_ascend [0; 50; 100; 150] 4.
Proof.
  intros j cur next Hj Hj1 Hcur Hnext.
  assert (j = 0 ∨ j = 1 ∨ j = 2) as [->|[->| ->]] by lia;
    vm_compute in Hcur, Hnext; injection Hcur as <-; injection Hnext as <-; lia.
Qed.

Lemma tables_loaded_two_steps (cursor : Z) :
  0 ≤ cursor →
  tables_loaded (two_steps cursor) [0; 50; 100; 150]
    [mkParInfo 10; mkParInfo 10; mkParInfo 20; mkParInfo 20].
Proof. intros. unfold tables_loaded, UINT_MOD. simpl. repeat split; lia. Qed.

(** Event 60 in the tables of [two_steps 0], whose boundaries ascend. *)
Lemma getEventParameter_ascending_table_witness :
  let h := two_steps 0 in
  let meta := [0; 50; 100; 150] in
  let par := [mkParInfo 10; mkParInfo 10; mkParInfo 20; mkParInfo 20] in
  ∃ i b p h',
    getEventParameter 60 h = Returns (scanParameter p) h' ∧
    _lastMetaEventIndex h ≤ i ≤ _nMetaEventIndexLength h - 1 ∧
    load (Some par) i = Some p ∧
    load (Some meta) i = Some b ∧ b ≤ 60 ∧
    (i = _nMetaEventIndexLength h - 1 ∨
     ∃ next, load (Some meta) (i + 1) = Some next ∧ 60 < next) ∧
    (h' = h ∨ h' = set_lastMetaEventIndex i h) ∧
    ∃ b', load (Some meta) (_lastMetaEventIndex h') = Some b' ∧ b' ≤ 60.
Proof.
  cbv zeta.
  apply (getEventParameter_ascending_table 60 (two_steps 0) [0; 50; 100; 150]
           [mkParInfo 10; mkParInfo 10; mkParInfo 20; mkParInfo 20]).
  - apply tables_loaded_two_steps. lia.
  - apply boundaries_ascend_two_steps.
  - simpl. lia.
  - intros b Hb. vm_compute in Hb. injection Hb as <-. lia.
Defined.

(** With the cursor of [two_steps] at entry 2, event 10, which lies in the
    range of entry 0 with the parameter 10, is given the parameter 20 of
    entry 2; with the cursor at the last entry it is a correlation error. *)
Lemma getEventParameter_event_behind_cursor_witness :
  (∃ p, load (Some [mkParInfo 10; mkParInfo 10; mkParInfo 20; mkParInfo 20]) 2 = Some p ∧
        getEventParameter 10 (two_steps 2) = Returns (scanParameter p) (two_steps 2)) ∧
  getEventParameter 10 (two_steps 3) = Throws (CorrelationError 10 150 3) (two_steps 3).
Proof.
  split.
  - apply (proj1 (getEventParameter_event_behind_cursor 10 100 (two_steps 2) [0; 50; 100; 150]
             [mkParInfo 10; mkParInfo 10; mkParInfo 20; mkParInfo 20]
             (tables_loaded_two_steps 2 ltac:(lia)) boundaries_ascend_two_steps
             ltac:(simpl; lia) eq_refl ltac:(lia))).
    simpl. lia.
  - apply (proj2 (getEventParameter_event_behind_cursor 10 150 (two_steps 3) [0; 50; 100; 150]
             [mkParInfo 10; mkParInfo 10; mkParInfo 20; mkParInfo 20]
             (tables_loaded_two_steps 3 ltac:(lia)) boundaries_ascend_two_steps
             ltac:(simpl; lia) eq_refl ltac:(lia))).
    reflexivity.
Defined.

(** ** The parameter table at concrete inputs *)

(** The table of the values 20, 10, 20 on a sensor of 2 x 2 pixels. *)
Lemma addScanParameter_installs_table_witness :
  let par := [mkParInfo 20; mkParInfo 10; mkParInfo 20] in
  let h := two_steps 2 in
  ∃ h', addScanParameter 2 2 (λ _, 7) (Z.of_nat (length par)) (Some par) h = Returns tt h' ∧
    let values := scanParameter <$> par in
    _parInfo h' = Some par ∧ _nParInfoLength h' = Z.of_nat (length par) ∧
    (_minParameterValue h' ∈ values ∧ ∀ v, v ∈ values → _minParameterValue h' ≤ v) ∧
    (_maxParameterValue h' ∈ values ∧ ∀ v, v ∈ values → v ≤ _maxParameterValue h') ∧
    _NparameterValues h' = Z.of_nat (length (remove_dups values)) ∧
    _occupancy h' = Some (replicate (Z.to_nat (2 * 2 * _NparameterValues h')) 0) ∧
    _lastMetaEventIndex h' = _lastMetaEventIndex h ∧
    _metaEventIndex h' = _metaEventIndex h ∧
    _nMetaEventIndexLength h' = _nMetaEventIndexLength h ∧
    _tot h' = _tot h ∧ _relBcid h' = _relBcid h ∧
    _createOccHist h' = _createOccHist h ∧
    _createRelBCIDhist h' = _createRelBCIDhist h ∧
    _createTotHist h' = _createTotHist h.
Proof.
  cbv zeta.
  apply (addScanParameter_installs_table 2 2 (λ _, 7) (two_steps 2)
           [mkParInfo 20; mkParInfo 10; mkParInfo 20]); [lia|lia|done].
Defined.

(** [three_entries] is what [addScanParameter] leaves for that table on a
    sensor of one pixel; the value 10 has index 0 and the value 20 index 1. *)
Lemma addScanParameter_parameter_indices_witness :
  let par := [mkParInfo 20; mkParInfo 10; mkParInfo 20] in
  (∀ p, p ∈ par →
     ∃ k, getParIndex (scanParameter p) three_entries = Returns k three_entries ∧
          0 ≤ k ≤ to_uint (_NparameterValues three_entries - 1) ∧
          _parameterValues three_entries !! Z.to_nat k = Some (scanParameter p)) ∧
  (∀ p q k l, p ∈ par → q ∈ par →
     getParIndex (scanParameter p) three_entries = Returns k three_entries →
     getParIndex (scanParameter q) three_entries = Returns l three_entries →
     (scanParameter p < scanParameter q ↔ k < l)).
Proof.
  cbv zeta.
  apply (addScanParameter_parameter_indices 1 1 (λ _, 7) idle three_entries
           [mkParInfo 20; mkParInfo 10; mkParInfo 20]).
  - lia.
  - lia.
  - done.
  - unfold INT_MAX. repeat constructor; simpl; lia.
  - by vm_compute.
Defined.

(** ** The setup at concrete inputs *)

(** [setNoScanParameter] on the tables of [two_steps 0], on a sensor of 2 x 2
    pixels. *)
Lemma setNoScanParameter_single_parameter_witness :
  let h := two_steps 0 in
  ∃ h', setNoScanParameter 2 2 (λ _, 7) h = Returns tt h' ∧
    _NparameterValues h' = 1 ∧
    _occupancy h' = Some (replicate (Z.to_nat (2 * 2)) 0) ∧
    _parInfo h' = _parInfo h ∧ _nParInfoLength h' = _nParInfoLength h ∧
    _parameterValues h' = _parameterValues h ∧
    _minParameterValue h' = _minParameterValue h ∧
    _maxParameterValue h' = _maxParameterValue h ∧
    _metaEventIndex h' = _metaEventIndex h ∧
    _nMetaEventIndexLength h' = _nMetaEventIndexLength h ∧
    _lastMetaEventIndex h' = _lastMetaEventIndex h ∧
    _tot h' = _tot h ∧ _relBcid h' = _relBcid h ∧
    _createOccHist h' = _createOccHist h ∧
    _createRelBCIDhist h' = _createRelBCIDhist h ∧
    _createTotHist h' = _createTotHist h ∧
    (_parInfo h = None → _parameterValues h = [] →
     (_createRelBCIDhist h = true → ∃ a, _relBcid h = Some a ∧ length a = 16%nat) →
     (_createTotHist h = true → ∃ a, _tot h = Some a ∧ length a = 16%nat) →
     no_scan_parameter 2 2 h').
Proof.
  cbv zeta. apply (setNoScanParameter_single_parameter 2 2 (λ _, 7) (two_steps 0)); lia.
Defined.

(** The event index [0; 100] and the table of the values 10 and 20 loaded
    into a new histogram in either order. *)
Lemma tables_load_in_either_order_witness :
  let par := [mkParInfo 10; mkParInfo 20] in
  (addMetaEventIndex 2 (Some [0; 100]);;
   addScanParameter 2 2 (λ _, 7) (Z.of_nat (length par)) (Some par)) idle
  = (addScanParameter 2 2 (λ _, 7) (Z.of_nat (length par)) (Some par);;
     addMetaEventIndex 2 (Some [0; 100])) idle.
Proof.
  cbv zeta.
  apply (tables_load_in_either_order 2 2 (λ _, 7) idle [mkParInfo 10; mkParInfo 20]
           2 (Some [0; 100])); [lia|lia|done].
Defined.

(** The table of [one_readout] without its event index. *)
Lemma getEventParameter_without_event_index_witness :
  let h := set_metaEventIndex 1 None one_readout in
  (∀ ev, getEventParameter ev h = Undefined) ∧
  (∀ hit post, geometry_in_type 80 336 → hit_in_type hit →
     valid_column 80 hit → valid_row 336 hit → valid_tot hit → valid_relativeBCID hit →
     addHits 80 336 (hit :: post) h = Undefined).
Proof.
  cbv zeta.
  apply (getEventParameter_without_event_index 80 336 (set_metaEventIndex 1 None one_readout)
           [mkParInfo 10]); reflexivity.
Defined.

(** ** The estimator at a concrete input *)

(** The pixel of [scanned_pixel], with maps of two entries: the step is
    (2 - 0) / 1 = 2, and the second entries are not written. *)
Lemma calculateThresholdScanArrays_defined_witness :
  ∃ mu sigma,
    calculateThresholdScanArrays 1 1 [0%float; 1.5%float] [0%float; 2.5%float] scanned_pixel
      = Returns (mu, sigma) scanned_pixel ∧
    length mu = length [0%float; 1.5%float] ∧
    length sigma = length [0%float; 2.5%float] ∧
    ∀ p : nat, 1 * 1 ≤ Z.of_nat p →
      mu !! p = [0%float; 1.5%float] !! p ∧ sigma !! p = [0%float; 2.5%float] !! p.
Proof.
  apply (calculateThresholdScanArrays_defined 1 1 [0%float; 1.5%float] [0%float; 2.5%float]
           scanned_pixel [50; 100] 2).
  - lia.
  - lia.
  - unfold UINT_MOD. lia.
  - simpl. lia.
  - reflexivity.
  - reflexivity.
  - simpl. lia.
  - simpl. lia.
  - by vm_compute.
Defined.
